(** * Random-Walk-Simulation: a shallow embedding of walkers.py,
      terrains.py, simulation.py, statistics.py and of the part of
      main.py that works on their objects

    Conventions of the embedding.

    - Python numbers (ints and floats alike) are rationals [Q]; float
      rounding is not modelled.  Comparisons of Python values ([==],
      [<=], [in]) are the boolean comparisons of [Q] ([Qeq_bool],
      [Qle_bool]), which decide the value and not the representation.
    - [math] (pi, cos, sin, atan2, sqrt) is the interface [MathLib];
      shapely's [intersects] on the rectangles of terrains.py is the
      interface [Shapely].  Every definition that calls them takes the
      instance as an argument, and the theorems hold for all instances.
    - [random] is an explicit source: a stream of unit draws and a cursor.
    - Python's insertion-ordered [dict] is an association list [dict K V].
    - Exceptions are the [Err] results of the monad [Rand]; the averages
      of statistics.py, which draw nothing, return an [Outcome].
    - A numpy array of floats is a list of rationals, with numpy's rule
      for an index: a negative one counts from the end, one out of the
      bounds raises IndexError. *)

From Stdlib Require Import ZArith QArith Qround Qabs Lia Lqa.
From Stdlib Require Import List FinFun String Bool Ascii.
From Stdlib Require Import DecimalString DecimalPos.
Import ListNotations.

Local Open Scope Q_scope.

(** ** Python dictionaries *)

Definition dict (K V : Type) : Type := list (K * V).

Section Dict.
Context {K V : Type}.
Variable eqb : K -> K -> bool.

(** [d[k]], [None] standing for KeyError *)
Fixpoint dict_get (k : K) (d : dict K V) : option V :=
  match d with
  | [] => None
  | (k', v) :: d' => if eqb k k' then Some v else dict_get k d'
  end.

(** [k in d] *)
Definition dict_mem (k : K) (d : dict K V) : bool :=
  match dict_get k d with Some _ => true | None => false end.

(** [d[k] = v]: an existing key keeps its place, a new key goes last *)
Fixpoint dict_set (k : K) (v : V) (d : dict K V) : dict K V :=
  match d with
  | [] => [(k, v)]
  | (k', v') :: d' =>
      if eqb k k' then (k', v) :: d' else (k', v') :: dict_set k v d'
  end.

Definition dict_keys (d : dict K V) : list K := map fst d.
Definition dict_values (d : dict K V) : list V := map snd d.
End Dict.

(** ** Exceptions, and the monad of code that draws random numbers *)

Inductive Exn : Type := ValueError | KeyError.

Inductive Result (A : Type) : Type :=
| Ok (a : A)
| Err (e : Exn).
Arguments Ok {A} a.
Arguments Err {A} e.

(** The random source: [draws n] is the n-th value [random.random()]
    returns, [cursor] counts the values already consumed. *)
Record Rng : Type := { draws : nat -> Q; cursor : nat }.

Definition Rand (A : Type) : Type := Rng -> Result (A * Rng).

Definition ret {A} (a : A) : Rand A := fun r => Ok (a, r).
Definition raise {A} (e : Exn) : Rand A := fun _ => Err e.
Definition bind {A B} (m : Rand A) (k : A -> Rand B) : Rand B :=
  fun r => match m r with
           | Ok (a, r') => k a r'
           | Err e => Err e
           end.

Declare Scope rand_scope.
Delimit Scope rand_scope with rand.
Notation "x <- m ;; k" := (bind m (fun x => k))
  (at level 61, m at next level, right associativity) : rand_scope.
Notation "' p <- m ;; k" := (bind m (fun p => k))
  (at level 61, p pattern, m at next level, right associativity) : rand_scope.
Local Open Scope rand_scope.

(** [random.random()] *)
Definition random : Rand Q :=
  fun r => Ok (draws r (cursor r), {| draws := draws r; cursor := S (cursor r) |}).

(** [random.uniform(a, b)] is [a + (b - a) * random()] *)
Definition uniform (a b : Q) : Rand Q :=
  u <- random ;; ret (a + (b - a) * u).

(** [random.choice(seq)] on a non-empty sequence: the element at an index
    below [len(seq)] drawn from the source *)
Definition choice {A} (dflt : A) (seq : list A) : Rand A :=
  u <- random ;;
  let index := Z.to_nat (Qfloor (u * inject_Z (Z.of_nat (List.length seq)))) in
  ret (nth (Nat.min index (List.length seq - 1)) seq dflt).

(** [itertools.accumulate(weights)] *)
Fixpoint accumulate (acc : Q) (weights : list Q) : list Q :=
  match weights with
  | [] => []
  | w :: ws => (acc + w) :: accumulate (acc + w) ws
  end.

(** [bisect.bisect(a, x, 0, hi)]: the first index below [hi] whose entry
    exceeds [x], else [hi] *)
Fixpoint bisect (a : list Q) (x : Q) (hi : nat) : nat :=
  match hi, a with
  | S hi', c :: a' => if Qle_bool c x then S (bisect a' x hi') else O
  | _, _ => O
  end.

(** [random.choices(population, weights)[0]] *)
Definition choices {A} (dflt : A) (population : list A) (weights : list Q) : Rand A :=
  let n := List.length population in
  let cum_weights := accumulate 0 weights in
  if negb (Nat.eqb (List.length cum_weights) n) then raise ValueError
  else
    let total := last cum_weights 0 in
    if Qle_bool total 0 then raise ValueError
    else
      u <- random ;;
      ret (nth (bisect cum_weights (u * total) (n - 1)) population dflt).

(** ** The numeric and geometric libraries the program calls *)

Class MathLib : Type := {
  pi : Q;
  cos : Q -> Q;
  sin : Q -> Q;
  atan2 : Q -> Q -> Q;
  sqrt : Q -> Q
}.

(** Python's [round(x)] with one argument: the nearest integer, a tie
    going to the even neighbour *)
Definition round (x : Q) : Z :=
  let f := Qfloor x in
  match Qcompare (x - inject_Z f) (1 # 2) with
  | Lt => f
  | Gt => (f + 1)%Z
  | Eq => if Z.even f then f else (f + 1)%Z
  end.

Definition Point : Type := (Q * Q)%type.

(** terrains.py: Obstacle, Grass, Water and Sand are four classes with the
    same attributes and the same [get_boundary]. *)
Record Rect : Type := { rect_x : Q; rect_y : Q; rect_width : Q; rect_height : Q }.

Definition Obstacle := Rect.
Definition Grass := Rect.
Definition Water := Rect.
Definition Sand := Rect.

Record EnchantedGate : Type := {
  entrance_location : Point;
  exit_location : Point;
  gate_width : Q;
  gate_height : Q
}.

(** [get_boundary]: the polygon with the four vertices
    (x, y), (x + width, y), (x + width, y + height), (x, y + height) *)
Definition Polygon : Type := list Point.

Definition vertices (x y width height : Q) : Polygon :=
  [(x, y); (x + width, y); (x + width, y + height); (x, y + height)].

Definition get_boundary (t : Rect) : Polygon :=
  vertices (rect_x t) (rect_y t) (rect_width t) (rect_height t).

Definition gate_get_boundary (g : EnchantedGate) : Polygon :=
  vertices (fst (entrance_location g)) (snd (entrance_location g))
           (gate_width g) (gate_height g).

Class Shapely : Type := {
  (** [Point(p).intersects(polygon)] *)
  point_intersects : Point -> Polygon -> bool;
  (** [LineString([p, q]).intersects(polygon)] *)
  line_intersects : Point -> Point -> Polygon -> bool
}.

(** ** walkers.py *)

Inductive WalkerType : Type :=
| BaseWalker            (* class Walker itself *)
| UnitWalker
| RandomDistanceWalker
| StraightWalker
| DirectionalBiasWalker
| MemoryWalker.

Definition WalkerType_eqb (a b : WalkerType) : bool :=
  match a, b with
  | BaseWalker, BaseWalker | UnitWalker, UnitWalker
  | RandomDistanceWalker, RandomDistanceWalker
  | StraightWalker, StraightWalker
  | DirectionalBiasWalker, DirectionalBiasWalker
  | MemoryWalker, MemoryWalker => true
  | _, _ => false
  end.

(** [type(walker).__name__] *)
Definition type_name (t : WalkerType) : string :=
  match t with
  | BaseWalker => "Walker"
  | UnitWalker => "UnitWalker"
  | RandomDistanceWalker => "RandomDistanceWalker"
  | StraightWalker => "StraightWalker"
  | DirectionalBiasWalker => "DirectionalBiasWalker"
  | MemoryWalker => "MemoryWalker"
  end.

(** One record for the six classes: [_bias_probabilities] is used by
    DirectionalBiasWalker only, [__memory] by MemoryWalker only. *)
Record Walker : Type := {
  type_ : WalkerType;
  _x : Q;
  _y : Q;
  _prev_x : Q;
  _prev_y : Q;
  escaped : bool;
  _bias_probabilities : list Q;
  __memory : list Point
}.

(** [isinstance(walker, cls)]: the five variants derive from Walker and
    from nothing else *)
Definition isinstance (w : Walker) (cls : WalkerType) : bool :=
  match cls with
  | BaseWalker => true
  | _ => WalkerType_eqb (type_ w) cls
  end.

Definition __memory_size : nat := 1000.

(** [Walker.__init__] (and [MemoryWalker.__init__]) *)
Definition Walker_init (t : WalkerType) : Walker :=
  {| type_ := t; _x := 0; _y := 0; _prev_x := 0; _prev_y := 0;
     escaped := false; _bias_probabilities := []; __memory := [] |}.

Definition sum (l : list Q) : Q := fold_left Qplus l 0.

(** [DirectionalBiasWalker.normalize_weights]; the division of a weight
    by a zero total raises ZeroDivisionError, here [None]; an empty list
    has no weight to divide *)
Definition normalize_weights (weights : list Q) : option (list Q) :=
  let total := sum weights in
  if negb (Qeq_bool total 1) then
    match weights with
    | [] => Some []
    | _ :: _ =>
        if Qeq_bool total 0 then None
        else Some (map (fun w => w / total) weights)
    end
  else Some weights.

(** [DirectionalBiasWalker.__init__] *)
Definition DirectionalBiasWalker_init (bias_probabilities : option (list Q))
  : option Walker :=
  let bias := match bias_probabilities with
              | None => [1; 1; 1; 1; 1]
              | Some b => b
              end in
  match normalize_weights bias with
  | None => None
  | Some p =>
      Some {| type_ := DirectionalBiasWalker; _x := 0; _y := 0;
              _prev_x := 0; _prev_y := 0; escaped := false;
              _bias_probabilities := p; __memory := [] |}
  end.

Definition get_location (w : Walker) : Point := (_x w, _y w).
Definition get_prev_location (w : Walker) : Point := (_prev_x w, _prev_y w).

(** [self._x, self._y = p] *)
Definition set_position (w : Walker) (position : Point) : Walker :=
  {| type_ := type_ w; _x := fst position; _y := snd position;
     _prev_x := _prev_x w; _prev_y := _prev_y w; escaped := escaped w;
     _bias_probabilities := _bias_probabilities w; __memory := __memory w |}.

(** [self._prev_x, self._prev_y = self._x, self._y] *)
Definition snapshot_prev (w : Walker) : Walker :=
  {| type_ := type_ w; _x := _x w; _y := _y w;
     _prev_x := _x w; _prev_y := _y w; escaped := escaped w;
     _bias_probabilities := _bias_probabilities w; __memory := __memory w |}.

Definition set_escaped (w : Walker) (b : bool) : Walker :=
  {| type_ := type_ w; _x := _x w; _y := _y w;
     _prev_x := _prev_x w; _prev_y := _prev_y w; escaped := b;
     _bias_probabilities := _bias_probabilities w; __memory := __memory w |}.

Definition set_memory (w : Walker) (m : list Point) : Walker :=
  {| type_ := type_ w; _x := _x w; _y := _y w;
     _prev_x := _prev_x w; _prev_y := _prev_y w; escaped := escaped w;
     _bias_probabilities := _bias_probabilities w; __memory := m |}.

Definition move_back (w : Walker) : Walker :=
  set_position w (get_prev_location w).

(** [pop(0)] *)
Definition pop0 {A} (l : list A) : list A := tl l.

(** [MemoryWalker.update_memory] *)
Definition update_memory (w : Walker) : Walker :=
  let m := __memory w ++ [(_x w, _y w)] in
  if Nat.ltb __memory_size (List.length m) then set_memory w (pop0 m)
  else set_memory w m.

(** [Walker.reset_walker], and the override of MemoryWalker *)
Definition reset_walker (w : Walker) : Walker :=
  let w' := set_escaped (set_position w (0, 0)) false in
  if isinstance w MemoryWalker then set_memory w' [] else w'.

(** Equality of two coordinate tuples, as [==] decides it *)
Definition Point_eqb (p q : Point) : bool :=
  Qeq_bool (fst p) (fst q) && Qeq_bool (snd p) (snd q).

(** [move in self.__memory] *)
Definition in_memory (p : Point) (m : list Point) : bool :=
  existsb (Point_eqb p) m.

(** [MemoryWalker.possible_moves] *)
Definition possible_moves (w : Walker) : list Point :=
  let possible := [(_x w, _y w - 1); (_x w, _y w + 1);
                   (_x w + 1, _y w); (_x w - 1, _y w)] in
  filter (fun move => negb (in_memory move (__memory w))) possible.

Definition directions : list Point := [(0, -1); (0, 1); (1, 0); (-1, 0)].

Section Walkers.
Context {math : MathLib}.

(** [Walker.escape_check]: the flag it returns, and the walker with its
    sticky [escaped] attribute *)
Definition escape_check (w : Walker) : bool * Walker :=
  if Qle_bool (sqrt (fst (get_location w) ^ 2 + snd (get_location w) ^ 2)) 10
     && negb (escaped w)
  then (false, w)
  else (true, set_escaped w true).

Definition UnitWalker_move (w : Walker) : Rand Walker :=
  direction <- uniform 0 (2 * pi) ;;
  let w := snapshot_prev w in
  ret (set_position w (_x w + cos direction, _y w + sin direction)).

Definition RandomDistanceWalker_move (w : Walker) : Rand Walker :=
  direction <- uniform 0 (2 * pi) ;;
  distance <- uniform (1 # 2) (3 # 2) ;;
  let w := snapshot_prev w in
  ret (set_position w (_x w + distance * cos direction,
                       _y w + distance * sin direction)).

Definition StraightWalker_move (w : Walker) : Rand Walker :=
  direction <- choice (0, 0) directions ;;
  let w := snapshot_prev w in
  ret (set_position w (_x w + fst direction, _y w + snd direction)).

(** [DirectionalBiasWalker.angle_to_origin_distance_1] *)
Definition angle_to_origin_distance_1 (w : Walker) : option Point :=
  let y := - _y w in
  let x := - _x w in
  let length := sqrt (x ^ 2 + y ^ 2) in
  if negb (Qeq_bool length 0) then Some (x / length, y / length) else None.

Definition DirectionalBiasWalker_move (w : Walker) : Rand Walker :=
  let relevant_directions :=
    directions ++ match angle_to_origin_distance_1 w with
                  | Some d => [d]
                  | None => []
                  end in
  chosen_direction <-
    choices (0, 0) relevant_directions
            (firstn (List.length relevant_directions) (_bias_probabilities w)) ;;
  let w := snapshot_prev w in
  ret (set_position w (_x w + fst chosen_direction, _y w + snd chosen_direction)).

Definition MemoryWalker_move (w : Walker) : Rand Walker :=
  match possible_moves w with
  | _ :: _ =>
      direction <- choice (0, 0) (possible_moves w) ;;
      let w := snapshot_prev w in
      let w := set_position w direction in
      ret (set_memory w (__memory w ++ [(_x w, _y w)]))
  | [] =>
      direction <- choice (0, 0) directions ;;
      let w := snapshot_prev w in
      ret (set_position w (_x w + fst direction, _y w + snd direction))
  end.

(** [walker.move()], dispatched on the class; the base class does
    nothing *)
Definition move (w : Walker) : Rand Walker :=
  match type_ w with
  | BaseWalker => ret w
  | UnitWalker => UnitWalker_move w
  | RandomDistanceWalker => RandomDistanceWalker_move w
  | StraightWalker => StraightWalker_move w
  | DirectionalBiasWalker => DirectionalBiasWalker_move w
  | MemoryWalker => MemoryWalker_move w
  end.
End Walkers.

(** ** simulation.py *)

(** One entry of the step-record table, keys 'locations', 'escape time',
    'y crosses', 'distance from origin', 'distance from x' and
    'distance from y' *)
Record StepRecord : Type := {
  locations : Point;
  escape_time : option Z;
  y_crosses : Z;
  distance_from_origin : Q;
  distance_from_x : Q;
  distance_from_y : Q
}.

Record Simulation : Type := {
  __num_moves : Z;
  __walkers : dict string Walker;
  __obstacles : list Obstacle;
  __enchanted_gates : list EnchantedGate;
  __escape_times : dict string (option Z);
  __crosses_y : dict string Z;
  __total_dict : dict string (dict Z StepRecord);
  __sands : list Sand;
  __waters : list Water;
  __grasses : list Grass;
  __walkers_interaction : option string
}.

(** [Simulation.__init__] *)
Definition Simulation_init (num_moves : Z) : Simulation :=
  {| __num_moves := num_moves; __walkers := []; __obstacles := [];
     __enchanted_gates := []; __escape_times := []; __crosses_y := [];
     __total_dict := []; __sands := []; __waters := []; __grasses := [];
     __walkers_interaction := None |}.

Definition set_walkers (sim : Simulation) (ws : dict string Walker) : Simulation :=
  {| __num_moves := __num_moves sim; __walkers := ws;
     __obstacles := __obstacles sim; __enchanted_gates := __enchanted_gates sim;
     __escape_times := __escape_times sim; __crosses_y := __crosses_y sim;
     __total_dict := __total_dict sim; __sands := __sands sim;
     __waters := __waters sim; __grasses := __grasses sim;
     __walkers_interaction := __walkers_interaction sim |}.

Definition set_escape_times (sim : Simulation) (e : dict string (option Z)) : Simulation :=
  {| __num_moves := __num_moves sim; __walkers := __walkers sim;
     __obstacles := __obstacles sim; __enchanted_gates := __enchanted_gates sim;
     __escape_times := e; __crosses_y := __crosses_y sim;
     __total_dict := __total_dict sim; __sands := __sands sim;
     __waters := __waters sim; __grasses := __grasses sim;
     __walkers_interaction := __walkers_interaction sim |}.

Definition set_crosses_y (sim : Simulation) (c : dict string Z) : Simulation :=
  {| __num_moves := __num_moves sim; __walkers := __walkers sim;
     __obstacles := __obstacles sim; __enchanted_gates := __enchanted_gates sim;
     __escape_times := __escape_times sim; __crosses_y := c;
     __total_dict := __total_dict sim; __sands := __sands sim;
     __waters := __waters sim; __grasses := __grasses sim;
     __walkers_interaction := __walkers_interaction sim |}.

Definition set_total_dict (sim : Simulation) (t : dict string (dict Z StepRecord)) : Simulation :=
  {| __num_moves := __num_moves sim; __walkers := __walkers sim;
     __obstacles := __obstacles sim; __enchanted_gates := __enchanted_gates sim;
     __escape_times := __escape_times sim; __crosses_y := __crosses_y sim;
     __total_dict := t; __sands := __sands sim;
     __waters := __waters sim; __grasses := __grasses sim;
     __walkers_interaction := __walkers_interaction sim |}.

(** [set_interaction]: a non-empty string other than 'attract' and
    'repel' raises ValueError *)
Definition set_interaction (sim : Simulation) (interaction : option string)
  : Result Simulation :=
  let truthy := match interaction with
                | Some s => negb (String.eqb s "")
                | None => false
                end in
  let allowed := match interaction with
                 | Some s => String.eqb s "attract" || String.eqb s "repel"
                 | None => false
                 end in
  if truthy && negb allowed then Err ValueError
  else Ok {| __num_moves := __num_moves sim; __walkers := __walkers sim;
             __obstacles := __obstacles sim;
             __enchanted_gates := __enchanted_gates sim;
             __escape_times := __escape_times sim; __crosses_y := __crosses_y sim;
             __total_dict := __total_dict sim; __sands := __sands sim;
             __waters := __waters sim; __grasses := __grasses sim;
             __walkers_interaction := interaction |}.

(** [str(index)] for a positive integer *)
Definition str (index : positive) : string :=
  NilEmpty.string_of_uint (Pos.to_uint index).

(** The loop [while name + str(index) in self.__walkers: index += 1].
    Each round finds one more key of the dictionary, so [fuel] rounds with
    [fuel] the size of the dictionary are all the loop can make. *)
Fixpoint next_index (fuel : nat) (name : string) (ws : dict string Walker)
  (index : positive) : positive :=
  match fuel with
  | O => index
  | S fuel' =>
      if dict_mem String.eqb (name ++ str index)%string ws
      then next_index fuel' name ws (Pos.succ index)
      else index
  end.

Definition add_walker (sim : Simulation) (walker : Walker) : Simulation :=
  let name := type_name (type_ walker) in
  let index := next_index (List.length (__walkers sim)) name (__walkers sim) 1 in
  let walker_name := (name ++ str index)%string in
  {| __num_moves := __num_moves sim;
     __walkers := dict_set String.eqb walker_name walker (__walkers sim);
     __obstacles := __obstacles sim;
     __enchanted_gates := __enchanted_gates sim;
     __escape_times := dict_set String.eqb walker_name None (__escape_times sim);
     __crosses_y := dict_set String.eqb walker_name (-1)%Z (__crosses_y sim);
     __total_dict := dict_set String.eqb walker_name [] (__total_dict sim);
     __sands := __sands sim; __waters := __waters sim; __grasses := __grasses sim;
     __walkers_interaction := __walkers_interaction sim |}.

Definition add_obstacle (sim : Simulation) (obstacle : Obstacle) : Simulation :=
  {| __num_moves := __num_moves sim; __walkers := __walkers sim;
     __obstacles := __obstacles sim ++ [obstacle];
     __enchanted_gates := __enchanted_gates sim;
     __escape_times := __escape_times sim; __crosses_y := __crosses_y sim;
     __total_dict := __total_dict sim; __sands := __sands sim;
     __waters := __waters sim; __grasses := __grasses sim;
     __walkers_interaction := __walkers_interaction sim |}.

Definition add_enchanted_gate (sim : Simulation) (g : EnchantedGate) : Simulation :=
  {| __num_moves := __num_moves sim; __walkers := __walkers sim;
     __obstacles := __obstacles sim;
     __enchanted_gates := __enchanted_gates sim ++ [g];
     __escape_times := __escape_times sim; __crosses_y := __crosses_y sim;
     __total_dict := __total_dict sim; __sands := __sands sim;
     __waters := __waters sim; __grasses := __grasses sim;
     __walkers_interaction := __walkers_interaction sim |}.

Definition add_grass (sim : Simulation) (grass : Grass) : Simulation :=
  {| __num_moves := __num_moves sim; __walkers := __walkers sim;
     __obstacles := __obstacles sim; __enchanted_gates := __enchanted_gates sim;
     __escape_times := __escape_times sim; __crosses_y := __crosses_y sim;
     __total_dict := __total_dict sim; __sands := __sands sim;
     __waters := __waters sim; __grasses := __grasses sim ++ [grass];
     __walkers_interaction := __walkers_interaction sim |}.

Definition add_sand (sim : Simulation) (sand : Sand) : Simulation :=
  {| __num_moves := __num_moves sim; __walkers := __walkers sim;
     __obstacles := __obstacles sim; __enchanted_gates := __enchanted_gates sim;
     __escape_times := __escape_times sim; __crosses_y := __crosses_y sim;
     __total_dict := __total_dict sim; __sands := __sands sim ++ [sand];
     __waters := __waters sim; __grasses := __grasses sim;
     __walkers_interaction := __walkers_interaction sim |}.

Definition add_water (sim : Simulation) (water : Water) : Simulation :=
  {| __num_moves := __num_moves sim; __walkers := __walkers sim;
     __obstacles := __obstacles sim; __enchanted_gates := __enchanted_gates sim;
     __escape_times := __escape_times sim; __crosses_y := __crosses_y sim;
     __total_dict := __total_dict sim; __sands := __sands sim;
     __waters := __waters sim ++ [water]; __grasses := __grasses sim;
     __walkers_interaction := __walkers_interaction sim |}.

Definition get_escape_times (sim : Simulation) := __escape_times sim.
Definition get_crosses_y (sim : Simulation) := __crosses_y sim.
Definition get_total_dict (sim : Simulation) := __total_dict sim.

Definition Qlt_bool (a b : Q) : bool := negb (Qle_bool b a).

(** What [terrain_check] returns: one of the strings 'water', 'sand' and
    'grass', or [False], here [None] *)
Inductive Terrain : Type := water | sand | grass.

(** A dictionary access that raises KeyError on a missing key *)
Definition subscript {A} (o : option A) : Rand A :=
  match o with
  | Some a => ret a
  | None => raise KeyError
  end.

Definition max_collision_attempts : nat := 1000.

(** [range(1, n + 1)] *)
Definition range1 (n : Z) : list Z :=
  map Z.of_nat (seq 1 (Z.to_nat n)).

Section Simulation.
Context {math : MathLib} {shapely : Shapely}.

(** [locate_nearest_walker]: the loop over the dictionary, the walker
    itself (the entry under its own name) skipped; [min_distance] starts
    at infinity, here [None] *)
Fixpoint nearest_loop (ws : dict string Walker) (walker_name : string)
  (walker : Walker) (min_distance : option Q) (nearest_walker : option Walker)
  : option Walker :=
  match ws with
  | [] => nearest_walker
  | (name, other_walker) :: rest =>
      if negb (String.eqb name walker_name) then
        let distance :=
          sqrt ((fst (get_location other_walker) - fst (get_location walker)) ^ 2 +
                (snd (get_location other_walker) - snd (get_location walker)) ^ 2) in
        let closer := match min_distance with
                      | None => true
                      | Some m => Qlt_bool distance m
                      end in
        if closer
        then nearest_loop rest walker_name walker (Some distance) (Some other_walker)
        else nearest_loop rest walker_name walker min_distance nearest_walker
      else nearest_loop rest walker_name walker min_distance nearest_walker
  end.

Definition locate_nearest_walker (sim : Simulation) (walker_name : string)
  (walker : Walker) : Rand Walker :=
  match nearest_loop (__walkers sim) walker_name walker None None with
  | None => raise ValueError
  | Some nearest_walker => ret nearest_walker
  end.

(** The test that guards the rounding of the bearing in [choose_move] *)
Definition rounds_bearing (walker : Walker) : bool :=
  negb (isinstance walker UnitWalker) || isinstance walker RandomDistanceWalker.

(** [round(direction_vector / (math.pi / 2)) * (math.pi / 2)] *)
Definition round_to_quarter_turn (direction_vector : Q) : Q :=
  inject_Z (round (direction_vector / (pi / 2))) * (pi / 2).

(** The branch [prob <= 0.2] of [choose_move] *)
Definition interaction_move (interaction : string) (walker nearest_walker : Walker)
  (distance : Q) : Walker :=
  let direction_vector :=
    atan2 (snd (get_location nearest_walker) - snd (get_location walker))
          (fst (get_location nearest_walker) - fst (get_location walker)) in
  let direction_vector :=
    if Qlt_bool direction_vector 0 then direction_vector + 2 * pi
    else direction_vector in
  if String.eqb interaction "attract" then
    let direction_vector :=
      if rounds_bearing walker then round_to_quarter_turn direction_vector
      else direction_vector in
    let walker :=
      set_position walker
        (fst (get_location walker) + cos direction_vector * distance,
         snd (get_location walker) + sin direction_vector * distance) in
    if isinstance walker MemoryWalker then update_memory walker else walker
  else if String.eqb interaction "repel" then
    let direction_vector :=
      if rounds_bearing walker then round_to_quarter_turn direction_vector
      else direction_vector in
    let walker :=
      set_position walker
        (fst (get_location walker) - cos direction_vector * distance,
         snd (get_location walker) - sin direction_vector * distance) in
    if isinstance walker MemoryWalker then update_memory walker else walker
  else walker.

Definition choose_move (sim : Simulation) (walker_name : string) (walker : Walker)
  : Rand Walker :=
  match __walkers_interaction sim with
  | None => move walker
  | Some interaction =>
      nearest_walker <- locate_nearest_walker sim walker_name walker ;;
      prob <- random ;;
      distance <- (if isinstance walker RandomDistanceWalker
                   then uniform (1 # 2) (3 # 2) else ret 1) ;;
      if Qle_bool prob (2 # 10)
      then ret (interaction_move interaction walker nearest_walker distance)
      else move walker
  end.

Definition on_terrain (walker : Walker) (tiles : list Rect) : bool :=
  existsb (fun t => point_intersects (get_location walker) (get_boundary t)) tiles.

Definition terrain_check (sim : Simulation) (walker : Walker) : option Terrain :=
  if on_terrain walker (__waters sim) then Some water
  else if on_terrain walker (__sands sim) then Some sand
  else if on_terrain walker (__grasses sim) then Some grass
  else None.

Definition handle_terrain (walker : Walker) (terrain : option Terrain) : Walker :=
  let walker :=
    match terrain with
    | Some water => set_position walker (0, 0)
    | Some sand =>
        set_position walker
          ((fst (get_prev_location walker) + fst (get_location walker)) / 2,
           (snd (get_prev_location walker) + snd (get_location walker)) / 2)
    | Some grass =>
        let vector := (fst (get_location walker) - fst (get_prev_location walker),
                       snd (get_location walker) - snd (get_prev_location walker)) in
        let vector := (fst vector * 2, snd vector * 2) in
        set_position walker (fst (get_location walker) + fst vector,
                             snd (get_location walker) + snd vector)
    | None => walker
    end in
  if isinstance walker MemoryWalker then update_memory walker else walker.

Definition check_collision (sim : Simulation) (walker : Walker) : bool :=
  existsb (fun obstacle =>
             line_intersects (get_prev_location walker) (get_location walker)
                             (get_boundary obstacle))
          (__obstacles sim).

(** The loop of [gate_check] over the gates that remain *)
Fixpoint gate_loop (gates : list EnchantedGate) (walker : Walker) : Walker :=
  match gates with
  | [] => walker
  | gate :: rest =>
      if line_intersects (get_prev_location walker) (get_location walker)
                         (gate_get_boundary gate)
      then
        let walker := set_position walker (exit_location gate) in
        gate_loop rest (if isinstance walker MemoryWalker
                        then update_memory walker else walker)
      else gate_loop rest walker
  end.

Definition gate_check (sim : Simulation) (walker : Walker) : Walker :=
  gate_loop (__enchanted_gates sim) walker.

(** The test of [cross_y_check] *)
Definition crosses_y_axis (walker : Walker) : bool :=
  Qlt_bool (fst (get_location walker) * fst (get_prev_location walker)) 0
  || (Qeq_bool (fst (get_prev_location walker)) 0
      && negb (Qeq_bool (fst (get_location walker)) 0)).

Definition cross_y_check (sim : Simulation) (walker_name : string) (walker : Walker)
  : Rand Simulation :=
  if crosses_y_axis walker then
    c <- subscript (dict_get String.eqb walker_name (__crosses_y sim)) ;;
    ret (set_crosses_y sim (dict_set String.eqb walker_name (c + 1)%Z (__crosses_y sim)))
  else ret sim.

(** [Simulation.escape_check] *)
Definition Simulation_escape_check (sim : Simulation) (walker_name : string)
  (walker : Walker) (i : Z) : Simulation * Walker :=
  let (esc, walker) := escape_check walker in
  if negb esc
  then (set_escape_times sim (dict_set String.eqb walker_name (Some i)
                                        (__escape_times sim)), walker)
  else (sim, walker).

Definition simulation_results_update (sim : Simulation) (walker_name : string)
  (walker : Walker) (i : Z) : Rand (Simulation * Walker) :=
  let location := get_location walker in
  let (esc, walker) := escape_check walker in
  et <- (if esc then subscript (dict_get String.eqb walker_name (get_escape_times sim))
         else ret None) ;;
  c <- subscript (dict_get String.eqb walker_name (get_crosses_y sim)) ;;
  let record :=
    {| locations := location;
       escape_time := et;
       y_crosses := Z.max 0 c;
       distance_from_origin :=
         sqrt (fst (get_location walker) ^ 2 + snd (get_location walker) ^ 2);
       distance_from_x := Qabs (snd (get_location walker));
       distance_from_y := Qabs (fst (get_location walker)) |} in
  table <- subscript (dict_get String.eqb walker_name (__total_dict sim)) ;;
  ret (set_total_dict sim
         (dict_set String.eqb walker_name (dict_set Z.eqb i record table)
                   (__total_dict sim)),
       walker).

(** The body of the collision loop of [run_simulation] *)
Definition retry_move (sim : Simulation) (walker_name : string) (walker : Walker)
  : Rand Walker :=
  let walker := move_back walker in
  walker <- choose_move sim walker_name walker ;;
  match terrain_check sim walker with
  | Some terrain => ret (handle_terrain walker (Some terrain))
  | None => ret walker
  end.

(** [while self.check_collision(walker): ...] with [remaining] the
    difference between the cap and [collision_attempts]; the flag is
    [false] where the source returns False *)
Fixpoint collision_loop (remaining : nat) (sim : Simulation) (walker_name : string)
  (walker : Walker) : Rand (bool * Walker) :=
  if check_collision sim walker then
    match remaining with
    | O => ret (false, walker)
    | S remaining' =>
        walker <- retry_move sim walker_name walker ;;
        collision_loop remaining' sim walker_name walker
    end
  else ret (true, walker).

(** The walker object lives in the dictionary and is mutated in place *)
Definition store_walker (sim : Simulation) (walker_name : string) (walker : Walker)
  : Simulation :=
  set_walkers sim (dict_set String.eqb walker_name walker (__walkers sim)).

(** The three calls that end the body of the loop over the walkers:
    [escape_check], [cross_y_check], [simulation_results_update] *)
Definition bookkeeping (i : Z) (sim : Simulation) (walker_name : string)
  (walker : Walker) : Rand (Simulation * Walker) :=
  let (sim, walker) := Simulation_escape_check sim walker_name walker i in
  sim <- cross_y_check sim walker_name walker ;;
  simulation_results_update sim walker_name walker i.

(** The first move of a turn: [choose_move], [terrain_check],
    [handle_terrain] *)
Definition first_move (sim : Simulation) (walker_name : string) : Rand Walker :=
  walker <- subscript (dict_get String.eqb walker_name (__walkers sim)) ;;
  walker <- choose_move sim walker_name walker ;;
  let terrain := terrain_check sim walker in
  ret (handle_terrain walker terrain).

(** The body of the loop over the walkers; the flag is [false] where the
    source returns False *)
Definition walker_turn (i : Z) (sim : Simulation) (walker_name : string)
  : Rand (bool * Simulation) :=
  walker <- first_move sim walker_name ;;
  '(ok, walker) <- collision_loop max_collision_attempts sim walker_name walker ;;
  if negb ok then ret (false, store_walker sim walker_name walker)
  else
    let walker := if isinstance walker MemoryWalker
                  then update_memory walker else walker in
    let walker := gate_check sim walker in
    '(sim, walker) <- bookkeeping i sim walker_name walker ;;
    ret (true, store_walker sim walker_name walker).

(** [for walker_name in self.__walkers] *)
Fixpoint walkers_loop (i : Z) (names : list string) (sim : Simulation)
  : Rand (bool * Simulation) :=
  match names with
  | [] => ret (true, sim)
  | walker_name :: rest =>
      '(ok, sim) <- walker_turn i sim walker_name ;;
      if ok then walkers_loop i rest sim else ret (false, sim)
  end.

(** [for i in range(1, self.__num_moves + 1)] *)
Fixpoint moves_loop (steps : list Z) (sim : Simulation) : Rand (bool * Simulation) :=
  match steps with
  | [] => ret (true, sim)
  | i :: rest =>
      '(ok, sim) <- walkers_loop i (dict_keys (__walkers sim)) sim ;;
      if ok then moves_loop rest sim else ret (false, sim)
  end.

Definition run_simulation (sim : Simulation) : Rand (bool * Simulation) :=
  moves_loop (range1 (__num_moves sim)) sim.

Definition reset (sim : Simulation) : Simulation :=
  {| __num_moves := __num_moves sim;
     __walkers := map (fun kv => (fst kv, reset_walker (snd kv))) (__walkers sim);
     __obstacles := __obstacles sim;
     __enchanted_gates := __enchanted_gates sim;
     __escape_times := map (fun kv => (fst kv, None)) (__walkers sim);
     __crosses_y := map (fun kv => (fst kv, (-1)%Z)) (__walkers sim);
     __total_dict := map (fun kv => (fst kv, [])) (__walkers sim);
     __sands := __sands sim; __waters := __waters sim; __grasses := __grasses sim;
     __walkers_interaction := __walkers_interaction sim |}.

(** *** Traces

    The definitions below are not in the source: they name the states a
    run goes through, for the statements about whole runs. *)


(** The turns of a run in the order the two loops make them *)
Definition schedule (sim : Simulation) : list (Z * string) :=
  flat_map (fun i => map (pair i) (dict_keys (__walkers sim)))
           (range1 (__num_moves sim)).

(** The turns of a list, with the early return *)
Fixpoint turns (sched : list (Z * string)) (sim : Simulation)
  : Rand (bool * Simulation) :=
  match sched with
  | [] => ret (true, sim)
  | (i, walker_name) :: rest =>
      '(ok, sim) <- walker_turn i sim walker_name ;;
      if ok then turns rest sim else ret (false, sim)
  end.

(** What every [move] does to the two positions: the snapshot, then the
    new position *)
Definition arrive (walker : Walker) (p : Point) : Walker :=
  set_position (snapshot_prev walker) p.

End Simulation.

(** ** statistics.py *)

Module Statistics.

Record Statistics : Type := {
  __total_dict : dict string (dict Z (dict Z StepRecord))
}.

(** [Statistics.__init__] *)
Definition init : Statistics := {| __total_dict := [] |}.

Definition load_to_dict (stat : Statistics)
  (dicti : dict string (dict Z StepRecord)) (i : Z) : Statistics :=
  {| __total_dict :=
       fold_left
         (fun total item =>
            let walker_name := fst item in
            let walker_data := snd item in
            match dict_get String.eqb walker_name total with
            | None => dict_set String.eqb walker_name [(i, walker_data)] total
            | Some runs =>
                dict_set String.eqb walker_name
                         (dict_set Z.eqb i walker_data runs) total
            end)
         dicti (__total_dict stat) |}.

(** [[step_data['escape time'] for step_data in simulation.values()
      if step_data['escape time'] is not None]] *)
Fixpoint collect_escape_times (steps : list StepRecord) : list Z :=
  match steps with
  | [] => []
  | step_data :: rest =>
      match escape_time step_data with
      | Some t => t :: collect_escape_times rest
      | None => collect_escape_times rest
      end
  end.

(** [sum(l) / len(l)] for a list of integers *)
Definition int_average (l : list Z) : Q :=
  inject_Z (fold_left Z.add l 0%Z) / inject_Z (Z.of_nat (List.length l)).

(** [sum(l) / len(l)] for a list of floats *)
Definition average (l : list Q) : Q :=
  sum l / inject_Z (Z.of_nat (List.length l)).

(** The loop over [simulations.values()] of [average_escape_time] *)
Fixpoint simulations_loop (simulations : list (dict Z StepRecord))
  (successful_escapes : list Q) (unsuccessful_count : Z) : list Q * Z :=
  match simulations with
  | [] => (successful_escapes, unsuccessful_count)
  | simulation :: rest =>
      match collect_escape_times (dict_values simulation) with
      | [] => simulations_loop rest successful_escapes (unsuccessful_count + 1)%Z
      | escape_times =>
          simulations_loop rest
            (successful_escapes ++ [int_average escape_times])
            unsuccessful_count
      end
  end.

Definition average_escape_time (stat : Statistics) : dict string (Q * Z) :=
  fold_left
    (fun escape_data item =>
       let walker_type := fst item in
       let simulations := snd item in
       let (successful_escapes, unsuccessful_count) :=
         simulations_loop (dict_values simulations) [] 0%Z in
       let average_escape_time :=
         match successful_escapes with
         | [] => 0
         | _ => average successful_escapes
         end in
       dict_set String.eqb walker_type (average_escape_time, unsuccessful_count)
                escape_data)
    (__total_dict stat) [].

(** *** The averages per step *)

(** What the averages can raise besides the exceptions of [Exn] *)
Inductive Raised : Type :=
| Builtin (e : Exn)
| StopIteration
| IndexError
| TypeError.

Inductive Outcome (A : Type) : Type :=
| Returns (a : A)
| Raises (e : Raised).
Arguments Returns {A} a.
Arguments Raises {A} e.

(** The values a step record holds under its six keys *)
Inductive Value : Type :=
| Number (q : Q)
| NoneValue
| Tuple (p : Point).

(** [step_data[key]], [None] standing for KeyError *)
Definition getitem (step_data : StepRecord) (key : string) : option Value :=
  if String.eqb key "locations" then Some (Tuple (locations step_data))
  else if String.eqb key "escape time" then
    Some (match escape_time step_data with
          | Some t => Number (inject_Z t)
          | None => NoneValue
          end)
  else if String.eqb key "y crosses" then
    Some (Number (inject_Z (y_crosses step_data)))
  else if String.eqb key "distance from origin" then
    Some (Number (distance_from_origin step_data))
  else if String.eqb key "distance from x" then
    Some (Number (distance_from_x step_data))
  else if String.eqb key "distance from y" then
    Some (Number (distance_from_y step_data))
  else None.

(** [a[k] = v] on a list, [k] within the bounds *)
Fixpoint array_set (a : list Q) (k : nat) (v : Q) : list Q :=
  match a, k with
  | [], _ => []
  | _ :: a', O => v :: a'
  | x :: a', S k' => x :: array_set a' k' v
  end.

(** [counts[index] += value] on a numpy array of floats: a negative
    index counts from the end, an index out of the bounds raises
    IndexError, None cannot be added and a tuple cannot be stored *)
Definition array_iadd (counts : list Q) (index : Z) (value : Value)
  : Outcome (list Q) :=
  let n := Z.of_nat (List.length counts) in
  let k := if (index <? 0)%Z then (index + n)%Z else index in
  if ((k <? 0) || (n <=? k))%Z then Raises IndexError
  else
    match value with
    | Number q =>
        Returns (array_set counts (Z.to_nat k) (nth (Z.to_nat k) counts 0 + q))
    | NoneValue => Raises TypeError
    | Tuple _ => Raises (Builtin ValueError)
    end.

(** [for step, step_data in sim.items()] *)
Fixpoint steps_loop (key : string) (items : list (Z * StepRecord))
  (counts : list Q) : Outcome (list Q) :=
  match items with
  | [] => Returns counts
  | (step, step_data) :: rest =>
      match getitem step_data key with
      | None => Raises (Builtin KeyError)
      | Some distance =>
          match array_iadd counts (step - 1) distance with
          | Returns counts => steps_loop key rest counts
          | Raises e => Raises e
          end
      end
  end.

(** [for sim in simulations.values()] *)
Fixpoint sims_loop (key : string) (sims : list (dict Z StepRecord))
  (counts : list Q) : Outcome (list Q) :=
  match sims with
  | [] => Returns counts
  | sim :: rest =>
      match steps_loop key sim counts with
      | Returns counts => sims_loop key rest counts
      | Raises e => Raises e
      end
  end.

(** [{str(step): counts[i] / total_simulations
      for i, step in enumerate(range(1, len(counts) + 1))}] *)
Definition per_step (counts : list Q) (total_simulations : nat) : dict string Q :=
  map (fun i_step =>
         (str (Pos.of_nat (snd i_step)),
          nth (fst i_step) counts 0 / inject_Z (Z.of_nat total_simulations)))
      (combine (seq 0 (List.length counts)) (seq 1 (List.length counts))).

(** The loop over the walker types that [average_walker_distance] and
    [avg_cross_y_axis] both have; [next(iter(...))] on an empty dictionary
    raises StopIteration *)
Fixpoint averages_loop (key : string)
  (items : list (string * dict Z (dict Z StepRecord)))
  (averages : dict string (dict string Q)) : Outcome (dict string (dict string Q)) :=
  match items with
  | [] => Returns averages
  | (walker, simulations) :: rest =>
      match dict_values simulations with
      | [] => Raises StopIteration
      | first :: _ =>
          let distance_counts := repeat 0 (List.length first) in
          let total_simulations := List.length simulations in
          match sims_loop key (dict_values simulations) distance_counts with
          | Returns distance_counts =>
              averages_loop key rest
                (dict_set String.eqb walker
                          (per_step distance_counts total_simulations) averages)
          | Raises e => Raises e
          end
      end
  end.

Definition average_walker_distance (stat : Statistics) (distance_key : string)
  : Outcome (dict string (dict string Q)) :=
  averages_loop distance_key (__total_dict stat) [].

Definition average_walker_distance_origin (stat : Statistics) :=
  average_walker_distance stat "distance from origin".

Definition average_walker_distance_x (stat : Statistics) :=
  average_walker_distance stat "distance from x".

Definition average_walker_distance_y (stat : Statistics) :=
  average_walker_distance stat "distance from y".

(** [avg_cross_y_axis] repeats the loop of [average_walker_distance] on
    the key 'y crosses' *)
Definition avg_cross_y_axis (stat : Statistics) : Outcome (dict string (dict string Q)) :=
  averages_loop "y crosses" (__total_dict stat) [].

End Statistics.

(** [Simulation.export_to_statistics] *)
Definition export_to_statistics (sim : Simulation) (stat : Statistics.Statistics)
  (i : Z) : Statistics.Statistics :=
  Statistics.load_to_dict stat (__total_dict sim) i.

(** ** main.py

    The part of main.py that works on the objects of the four modules:
    the check of the layout, the loading of the objects that the readers
    of the JSON file return, and the loop over the simulations.  The
    prompts, the files and the plots are left out. *)

(** shapely's [intersects] between two polygons and between a polygon
    and a point *)
Class ShapelyPolygons : Type := {
  polygon_intersects : Polygon -> Polygon -> bool;
  polygon_intersects_point : Polygon -> Point -> bool
}.

Section Main.
Context {math : MathLib} {shapely : Shapely} {polygons : ShapelyPolygons}.

(** [for i in range(len(ps)): for j in range(i + 1, len(ps))] with the
    test [ps[i].intersects(ps[j])]; [false] where the source calls
    [exit(1)] *)
Fixpoint no_overlap (ps : list Polygon) : bool :=
  match ps with
  | [] => true
  | p :: rest =>
      forallb (fun q => negb (polygon_intersects p q)) rest && no_overlap rest
  end.

(** [enumerate(l)] *)
Definition enumerate {A} (l : list A) : list (nat * A) :=
  combine (seq 0 (List.length l)) l.

(** The body of the loop over the gates: no obstacle holds the exit, and
    the gate that is the very object [gate] (the gate at the same place of
    the list) does not hold it in its entrance *)
Definition exit_is_free (gates : list EnchantedGate) (obstacles : list Obstacle)
  (index : nat) (gate : EnchantedGate) : bool :=
  forallb (fun obstacle =>
             negb (polygon_intersects_point (get_boundary obstacle)
                                            (exit_location gate)))
          obstacles &&
  forallb (fun j_other =>
             negb (Nat.eqb (fst j_other) index &&
                   polygon_intersects_point (gate_get_boundary (snd j_other))
                                            (exit_location gate)))
          (enumerate gates).

(** [occupied_locations_check]: [true] where the function returns,
    [false] where it calls [exit(1)] *)
Definition occupied_locations_check (gates : list EnchantedGate)
  (obstacles : list Obstacle) (waters : list Water) (sands : list Sand)
  (grasses : list Grass) : bool :=
  let all_polygons := map gate_get_boundary gates ++ map get_boundary obstacles in
  let terrain_polygons :=
    map get_boundary waters ++ map get_boundary sands ++ map get_boundary grasses in
  no_overlap all_polygons &&
  no_overlap terrain_polygons &&
  forallb (fun i_gate => exit_is_free gates obstacles (fst i_gate) (snd i_gate))
          (enumerate gates).

(** [load_sim_objects] on the lists that the readers of the JSON file
    return; [None] where [occupied_locations_check] calls [exit(1)] *)
Definition load_sim_objects (walkers : list Walker) (obstacles : list Obstacle)
  (gates : list EnchantedGate) (waters : list Water) (sands : list Sand)
  (grasses : list Grass) (sim : Simulation) : option Simulation :=
  let sim := fold_left add_walker walkers sim in
  let sim := fold_left add_obstacle obstacles sim in
  let sim := fold_left add_enchanted_gate gates sim in
  let sim := fold_left add_water waters sim in
  let sim := fold_left add_sand sands sim in
  let sim := fold_left add_grass grasses sim in
  if occupied_locations_check (__enchanted_gates sim) (__obstacles sim)
                              (__waters sim) (__sands sim) (__grasses sim)
  then Some sim else None.

(** The loop of [main] over the simulations: a run that returns True is
    exported under its index, and the simulation is reset after every
    run *)
Fixpoint main_loop (indices : list Z) (sim : Simulation)
  (stats : Statistics.Statistics) : Rand (Simulation * Statistics.Statistics) :=
  match indices with
  | [] => ret (sim, stats)
  | i :: rest =>
      '(ok, sim) <- run_simulation sim ;;
      let stats := if ok then export_to_statistics sim stats i else stats in
      main_loop rest (reset sim) stats
  end.
End Main.

(** ** Rational instances of the two libraries, for running the program

    The theorems below hold for every [MathLib] and every [Shapely]; the
    instances here serve the concrete runs.  [rational_math] computes in
    fixed point and truncates to nine decimals; [box_shapely] is exact on the axis-aligned rectangles
    that [get_boundary] builds. *)

Definition nine_decimals (q : Q) : Q := Qfloor (q * (1000000000 # 1)) # 1000000000.

(** Twelve decimals for the intermediate values, so that they stay small *)
Definition twelve_decimals (q : Q) : Q :=
  Qfloor (q * (1000000000000 # 1)) # 1000000000000.

Definition rational_pi : Q := 3141592653589 # 1000000000000.

Definition rational_sqrt (q : Q) : Q :=
  if Qle_bool q 0 then 0
  else Z.sqrt (Qfloor (q * (1000000000000000000 # 1))) # 1000000000.

(** [n] terms of an alternating power series, [term] the current term and
    [k] the index of its factorial *)
Fixpoint trig_series (n : nat) (x2 term acc : Q) (k : Z) : Q :=
  match n with
  | O => acc
  | S n' =>
      trig_series n' x2
        (twelve_decimals (- term * x2 / inject_Z ((k + 1) * (k + 2))))
        (twelve_decimals (acc + term)) (k + 2)
  end.

Definition reduce_angle (x : Q) : Q :=
  twelve_decimals (x - inject_Z (round (x / (2 * rational_pi))) * (2 * rational_pi)).

Definition rational_cos (x : Q) : Q :=
  let y := reduce_angle x in
  nine_decimals (trig_series 14 (twelve_decimals (y * y)) 1 0 0).

Definition rational_sin (x : Q) : Q :=
  let y := reduce_angle x in
  nine_decimals (trig_series 14 (twelve_decimals (y * y)) y 0 1).

Fixpoint atan_series (n : nat) (t2 power acc : Q) (k : Z) : Q :=
  match n with
  | O => acc
  | S n' =>
      atan_series n' t2 (twelve_decimals (- power * t2))
                  (twelve_decimals (acc + power / inject_Z k)) (k + 2)
  end.

(** arctangent on [-1, 1], the argument halved twice before the series *)
Definition rational_atan (z : Q) : Q :=
  let half := fun z => twelve_decimals (z / (1 + rational_sqrt (1 + z * z))) in
  let t := half (half z) in
  4 * atan_series 12 (twelve_decimals (t * t)) t 0 1.

Definition rational_atan2 (y x : Q) : Q :=
  if Qeq_bool x 0 && Qeq_bool y 0 then 0
  else if Qle_bool (Qabs y) (Qabs x) then
    let a := rational_atan (twelve_decimals (y / x)) in
    if Qlt_bool 0 x then nine_decimals a
    else if Qle_bool 0 y then nine_decimals (a + rational_pi)
    else nine_decimals (a - rational_pi)
  else
    let a := rational_atan (twelve_decimals (x / y)) in
    if Qlt_bool 0 y then nine_decimals (rational_pi / 2 - a)
    else nine_decimals (- (rational_pi / 2) - a).

Definition rational_math : MathLib :=
  {| pi := rational_pi; cos := rational_cos; sin := rational_sin;
     atan2 := rational_atan2; sqrt := rational_sqrt |}.

Definition Qmin (a b : Q) : Q := if Qle_bool a b then a else b.
Definition Qmax (a b : Q) : Q := if Qle_bool a b then b else a.

(** The bounding box (xmin, xmax, ymin, ymax) of a non-empty polygon *)
Definition bounding_box (polygon : Polygon) : option (Q * Q * Q * Q) :=
  match polygon with
  | [] => None
  | (x, y) :: rest =>
      Some (fold_left (fun b p =>
                         let '(x0, x1, y0, y1) := b in
                         (Qmin x0 (fst p), Qmax x1 (fst p),
                          Qmin y0 (snd p), Qmax y1 (snd p)))
                      rest (x, x, y, y))
  end.

Definition box_contains (p : Point) (polygon : Polygon) : bool :=
  match bounding_box polygon with
  | None => false
  | Some (x0, x1, y0, y1) =>
      Qle_bool x0 (fst p) && Qle_bool (fst p) x1 &&
      Qle_bool y0 (snd p) && Qle_bool (snd p) y1
  end.

(** One clipping step: the parameters [t] of [t0, t1] with [p * t <= q] *)
Definition clip (p q : Q) (t : option (Q * Q)) : option (Q * Q) :=
  match t with
  | None => None
  | Some (t0, t1) =>
      if Qeq_bool p 0 then (if Qlt_bool q 0 then None else Some (t0, t1))
      else
        let r := q / p in
        if Qlt_bool p 0
        then (if Qlt_bool t1 r then None else Some (Qmax t0 r, t1))
        else (if Qlt_bool r t0 then None else Some (t0, Qmin t1 r))
  end.

(** The segment from [a] to [b] meets the closed box *)
Definition box_meets_segment (a b : Point) (polygon : Polygon) : bool :=
  match bounding_box polygon with
  | None => false
  | Some (x0, x1, y0, y1) =>
      let dx := fst b - fst a in
      let dy := snd b - snd a in
      match clip dy (y1 - snd a)
              (clip (- dy) (snd a - y0)
                 (clip dx (x1 - fst a)
                    (clip (- dx) (fst a - x0) (Some (0, 1))))) with
      | Some _ => true
      | None => false
      end
  end.

Definition box_shapely : Shapely :=
  {| point_intersects := box_contains; line_intersects := box_meets_segment |}.

(** A random source that returns the same draw for ever *)
Definition constant_rng (u : Q) : Rng := {| draws := fun _ => u; cursor := 0 |}.

(** A random source that replays a list of draws, then returns 0 *)
Definition list_rng (l : list Q) : Rng := {| draws := fun n => nth n l 0; cursor := 0 |}.

(** ** Definitions used in the statements

    None of these is in the source; each names a notion of the
    specification. *)

Section Notions.
Context {math : MathLib} {shapely : Shapely}.

(** The walker stands on one of the tiles *)
Definition lands_on (walker : Walker) (tiles : list Rect) : Prop :=
  exists t, In t tiles /\ point_intersects (get_location walker) (get_boundary t) = true.

(** The final segment of the walker meets the entrance of the gate *)
Definition crosses_entrance (walker : Walker) (gate : EnchantedGate) : bool :=
  line_intersects (get_prev_location walker) (get_location walker)
                  (gate_get_boundary gate).

(** The bearing from a walker to another, in [0, 2 pi) *)
Definition bearing (walker nearest_walker : Walker) : Q :=
  let direction_vector :=
    atan2 (snd (get_location nearest_walker) - snd (get_location walker))
          (fst (get_location nearest_walker) - fst (get_location walker)) in
  if Qlt_bool direction_vector 0 then direction_vector + 2 * pi
  else direction_vector.

(** The first gate in list order whose entrance the final segment meets *)
Definition first_gate_crossed (gates : list EnchantedGate) (walker : Walker)
  : option EnchantedGate :=
  find (crosses_entrance walker) gates.
End Notions.

(** The sign of a number: -1, 0 or 1 *)
Definition sign (x : Q) : Z := Z.sgn (Qnum x).

(** The crossing rule in the words of the specification: the signs of the
    two abscissas differ, or the previous one is zero and the new one is
    not *)
Definition spec_crossing (x_prev x_new : Q) : Prop :=
  sign x_prev <> sign x_new \/ (x_prev == 0 /\ ~ x_new == 0).

(** The 'escape time' field in the words of the specification: the current
    escape time while the walker has not escaped, none once it has *)
Definition spec_escape_field (has_escaped : bool) (current : option Z) : option Z :=
  if has_escaped then None else current.

(** ** Concrete configurations *)

(** [n] calls of [walker.move()] in a row *)
Fixpoint moves {math : MathLib} (n : nat) (walker : Walker) : Rand Walker :=
  match n with
  | O => ret walker
  | S n' => walker <- move walker ;; moves n' walker
  end.

(** Two gates with disjoint entrances on the x axis: the entrance of
    [gate_a] is [1, 2] x [-1, 1] and leads to (5, 0), the entrance of
    [gate_b] is [3, 4] x [-1, 1] and leads to (0, 7). *)
Definition gate_a : EnchantedGate :=
  {| entrance_location := (1, -1); exit_location := (5, 0);
     gate_width := 1; gate_height := 2 |}.

Definition gate_b : EnchantedGate :=
  {| entrance_location := (3, -1); exit_location := (0, 7);
     gate_width := 1; gate_height := 2 |}.

Definition two_gates_sim : Simulation :=
  add_enchanted_gate
    (add_enchanted_gate
       (add_walker (Simulation_init 1) (Walker_init StraightWalker)) gate_a)
    gate_b.

(** A walker that has just stepped from the origin to (1, 0) *)
Definition stepped_right : Walker :=
  arrive (Walker_init StraightWalker) (1, 0).

(** A RandomDistanceWalker at the origin and a second walker at (1, 2),
    under the interaction 'attract' *)
Definition attract_sim : Simulation :=
  match set_interaction
          (add_walker (add_walker (Simulation_init 1) (Walker_init RandomDistanceWalker))
                      (set_position (Walker_init StraightWalker) (1, 2)))
          (Some "attract"%string) with
  | Ok sim => sim
  | Err _ => Simulation_init 1
  end.

(** [cross_y_check] after each arrival of a walker at the given positions *)
Fixpoint crossing_trace (positions : list Point) (sim : Simulation)
  (walker_name : string) (walker : Walker) : Rand Simulation :=
  match positions with
  | [] => ret sim
  | p :: rest =>
      sim <- cross_y_check sim walker_name (arrive walker p) ;;
      crossing_trace rest sim walker_name (arrive walker p)
  end.

(** A walker that stepped from (1, 0) onto the y axis *)
Definition stepped_onto_axis : Walker :=
  arrive (arrive (Walker_init StraightWalker) (1, 0)) (0, 0).

(** ** Notions of the escape bookkeeping *)

Section EscapeNotions.
Context {math : MathLib}.

(** The point is within the radius 10 of the origin *)
Definition inside (p : Point) : bool :=
  Qle_bool (sqrt (fst p ^ 2 + snd p ^ 2)) 10.

(** The number of steps before the escape: the positions, from the first
    on, that are within the radius *)
Fixpoint pre_escape_steps (positions : list Point) : nat :=
  match positions with
  | [] => O
  | p :: rest => if inside p then S (pre_escape_steps rest) else O
  end.

(** The 'escape time' fields of the records of the steps [i], [i + 1],
    ... of a walker that arrives at the given positions, [has_escaped] its
    flag and [et] its escape time before the first of them *)
Fixpoint escape_fields (has_escaped : bool) (et : option Z) (i : Z)
  (positions : list Point) : list (option Z) :=
  match positions with
  | [] => []
  | p :: rest =>
      if inside p && negb has_escaped
      then None :: escape_fields false (Some i) (i + 1) rest
      else et :: escape_fields true et (i + 1) rest
  end.
End EscapeNotions.

(** The steps [i], [i + 1], ..., [n] of them *)
Fixpoint steps_from (i : Z) (n : nat) : list Z :=
  match n with
  | O => []
  | S n' => i :: steps_from (i + 1) n'
  end.

(** The escape times recorded in a run *)
Definition run_escape_times (run : dict Z StepRecord) : list Z :=
  Statistics.collect_escape_times (dict_values run).

Definition has_escape_time (run : dict Z StepRecord) : bool :=
  match run_escape_times run with
  | [] => false
  | _ => true
  end.

(** [sum(l) / len(l)], and 0 for the empty list *)
Definition average_or_zero (l : list Q) : Q :=
  match l with
  | [] => 0
  | _ => Statistics.average l
  end.

(** The first reduction in the words of the specification.  The
    pre-escape steps of a recorded run are the steps, from the first on,
    whose record is within the radius; the walker escaped in the run when
    some step is not among them. *)
Fixpoint spec_pre_escape_indices (run : dict Z StepRecord) : list Z :=
  match run with
  | [] => []
  | (i, step_data) :: rest =>
      if Qle_bool (distance_from_origin step_data) 10
      then i :: spec_pre_escape_indices rest
      else []
  end.

Definition spec_escaped (run : dict Z StepRecord) : bool :=
  Nat.ltb (List.length (spec_pre_escape_indices run)) (List.length run).

(** The pair of one walker type: the average, over the runs in which the
    walker escaped, of the per-run average of the pre-escape step indices,
    and the count of the runs in which it never escaped *)
Definition spec_average_escape_time (runs : list (dict Z StepRecord)) : Q * Z :=
  (average_or_zero
     (map (fun run => Statistics.int_average (spec_pre_escape_indices run))
          (filter spec_escaped runs)),
   Z.of_nat (List.length (filter (fun run => negb (spec_escaped run)) runs))).

(** A StraightWalker alone on free ground, for twelve moves *)
Definition straight_sim : Simulation :=
  add_walker (Simulation_init 12) (Walker_init StraightWalker).

Section RecordedRuns.
Context {math : MathLib} {shapely : Shapely}.

(** The escape flag and the escape time of a walker after the steps [i],
    [i + 1], ... at the given positions *)
Fixpoint escape_state (has_escaped : bool) (et : option Z) (i : Z)
  (positions : list Point) : bool * option Z :=
  match positions with
  | [] => (has_escaped, et)
  | p :: rest =>
      if inside p && negb has_escaped
      then escape_state false (Some i) (i + 1) rest
      else escape_state true et (i + 1) rest
  end.

(** The positions a table of step records holds, step by step *)
Definition trace (table : dict Z StepRecord) : list Point :=
  map locations (dict_values table).

(** The state of a walker in a run after [m] of its turns: its table
    holds the records of the steps 1 .. m in order, the 'escape time'
    fields follow from the recorded positions, and so do the flag and the
    escape time of the walker *)
Definition walker_state_ok (sim : Simulation) (walker_name : string) (m : nat) : Prop :=
  exists w et table,
    dict_get String.eqb walker_name (__walkers sim) = Some w /\
    dict_get String.eqb walker_name (__escape_times sim) = Some et /\
    dict_get String.eqb walker_name (__total_dict sim) = Some table /\
    dict_keys table = steps_from 1 m /\
    map escape_time (dict_values table) = escape_fields false None 1 (trace table) /\
    (escaped w, et) = escape_state false None 1 (trace table).

(** A simulation as [add_walker] and [reset] leave it: the names are
    distinct, no walker has escaped, no escape time is set and the tables
    are empty *)
Definition before_run (sim : Simulation) : Prop :=
  NoDup (dict_keys (__walkers sim)) /\
  forall walker_name w,
    dict_get String.eqb walker_name (__walkers sim) = Some w ->
    escaped w = false /\
    dict_get String.eqb walker_name (__escape_times sim) = Some None /\
    dict_get String.eqb walker_name (__total_dict sim) = Some [].

(** [run] is the table of step records of a walker in a run that went
    through: what [export_to_statistics] hands to the statistics *)
Definition recorded (run : dict Z StepRecord) : Prop :=
  exists (sim sim' : Simulation) (r r' : Rng) (walker_name : string),
    before_run sim /\
    run_simulation sim r = Ok ((true, sim'), r') /\
    In walker_name (dict_keys (__walkers sim)) /\
    dict_get String.eqb walker_name (__total_dict sim') = Some run.

(** The walker is within the radius after its first step *)
Definition starts_inside (positions : list Point) : Prop :=
  match positions with
  | [] => True
  | p :: _ => inside p = true
  end.

(** The walker escapes in the run: some step is not a pre-escape step *)
Definition escapes (positions : list Point) : bool :=
  Nat.ltb (pre_escape_steps positions) (List.length positions).
End RecordedRuns.

(** A StraightWalker alone on free ground, for five moves *)
Definition short_sim : Simulation :=
  add_walker (Simulation_init 5) (Walker_init StraightWalker).

(** The simulation after its run, the walkers always drawing 0 *)
Definition completed (sim : Simulation) : Simulation :=
  match @run_simulation rational_math box_shapely sim (constant_rng 0) with
  | Ok ((_, sim'), _) => sim'
  | Err _ => sim
  end.

(** Two accumulated runs of a StraightWalker that walks straight down:
    one of twelve steps, with the escape at step 11, and one of five
    steps, without escape *)
Definition two_runs_stat : Statistics.Statistics :=
  export_to_statistics (completed short_sim)
    (export_to_statistics (completed straight_sim) Statistics.init 1) 2.

(** ** Notions of a whole run *)

Section RunNotions.
Context {math : MathLib} {shapely : Shapely}.



(** The table of the walker has a record of the step *)
Definition step_recorded (sim : Simulation) (i : Z) (walker_name : string) : Prop :=
  exists table record,
    dict_get String.eqb walker_name (__total_dict sim) = Some table /\
    dict_get Z.eqb i table = Some record.

End RunNotions.


(** A simulation that is ready to run without raising: no interaction
    mode, no walker that draws with weights, and an entry for every walker
    in the three dictionaries of the bookkeeping *)
Definition ready (sim : Simulation) : Prop :=
  __walkers_interaction sim = None /\
  forall walker_name w,
    dict_get String.eqb walker_name (__walkers sim) = Some w ->
    type_ w <> DirectionalBiasWalker /\
    dict_get String.eqb walker_name (__crosses_y sim) <> None /\
    dict_get String.eqb walker_name (__escape_times sim) <> None /\
    dict_get String.eqb walker_name (__total_dict sim) <> None.

(** ** Notions of the walkers' moves *)

Section MoveNotions.
Context {math : MathLib}.

(** The directions a DirectionalBiasWalker chooses from: the four
    cardinal ones, and the one towards the origin when the walker is not
    there *)
Definition relevant_directions (w : Walker) : list Point :=
  directions ++ match angle_to_origin_distance_1 w with
                | Some d => [d]
                | None => []
                end.
End MoveNotions.

(** ** Notions of the interaction and of the layout *)

Section InteractionNotions.
Context {math : MathLib}.

End InteractionNotions.

(** The two simulations have the same budget, obstacles, gates, terrains
    and interaction *)
Definition same_layout (sim sim' : Simulation) : Prop :=
  __num_moves sim' = __num_moves sim /\
  __obstacles sim' = __obstacles sim /\
  __enchanted_gates sim' = __enchanted_gates sim /\
  __sands sim' = __sands sim /\
  __waters sim' = __waters sim /\
  __grasses sim' = __grasses sim /\
  __walkers_interaction sim' = __walkers_interaction sim.

(** The walkers of the two simulations have the same names in the same
    order, and each has kept its class and its weights *)
Definition same_cast (sim sim' : Simulation) : Prop :=
  dict_keys (__walkers sim') = dict_keys (__walkers sim) /\
  forall name w',
    dict_get String.eqb name (__walkers sim') = Some w' ->
    exists w,
      dict_get String.eqb name (__walkers sim) = Some w /\
      type_ w' = type_ w /\
      _bias_probabilities w' = _bias_probabilities w.

(** A StraightWalker alone, under the interaction 'attract' *)
Definition lone_attract_sim : Simulation :=
  match set_interaction straight_sim (Some "attract"%string) with
  | Ok sim => sim
  | Err _ => straight_sim
  end.

(** ** Notions of the averages per step *)

(** The accumulated runs of a walker type are there, and each holds the
    records of the steps 1 .. n in order *)
Definition runs_of_length (n : nat) (simulations : dict Z (dict Z StepRecord)) : Prop :=
  simulations <> [] /\
  Forall (fun run => dict_keys run = steps_from 1 n) (dict_values simulations).

(** Every walker type of the statistics has runs of one length *)
Definition uniform_statistics (stat : Statistics.Statistics) : Prop :=
  forall walker simulations,
    In (walker, simulations) (Statistics.__total_dict stat) ->
    exists n, runs_of_length n simulations.

(** The value of a field in the record of a step of a run, 0 for a step
    without record *)
Definition field_at (field : StepRecord -> Q) (step : Z) (run : dict Z StepRecord) : Q :=
  match dict_get Z.eqb step run with
  | Some step_data => field step_data
  | None => 0
  end.

(** The mean of a field over the runs at a step *)
Definition field_mean (field : StepRecord -> Q) (step : Z)
  (runs : list (dict Z StepRecord)) : Q :=
  sum (map (field_at field step) runs) / inject_Z (Z.of_nat (List.length runs)).

(** The table the averages hold for a walker type whose runs have [n]
    steps: under the key [str(k)] of every step the mean of the field
    over the runs *)
Definition mean_table (field : StepRecord -> Q) (n : nat)
  (per_step : dict string Q) (runs : list (dict Z StepRecord)) : Prop :=
  dict_keys per_step = map (fun k => str (Pos.of_nat k)) (seq 1 n) /\
  forall k, (1 <= k <= n)%nat ->
    dict_get String.eqb (str (Pos.of_nat k)) per_step
    = Some (field_mean field (Z.of_nat k) runs).

(** ** Notions of the loading and of the loop of main.py *)

(** How many of the classes seen so far are the class [t] *)
Fixpoint count_type (t : WalkerType) (seen : list WalkerType) : nat :=
  match seen with
  | [] => O
  | s :: rest => ((if WalkerType_eqb s t then 1 else 0) + count_type t rest)%nat
  end.

(** The names of walkers that are added one after the other to a
    simulation that has seen the classes [seen]: the name of the class,
    followed by the rank of the walker among the walkers of its class *)
Fixpoint names_from (seen : list WalkerType) (walkers : list Walker) : list string :=
  match walkers with
  | [] => []
  | w :: rest =>
      (type_name (type_ w) ++ str (Pos.of_nat (S (count_type (type_ w) seen))))%string
      :: names_from (type_ w :: seen) rest
  end.

(** The tables of step records are those of the walkers, name by name *)
Definition tables_match_walkers (sim : Simulation) : Prop :=
  dict_keys (__total_dict sim) = dict_keys (__walkers sim).

(** The sum of two arrays, entry by entry *)
Definition add_arrays (counts values : list Q) : list Q :=
  map (fun cv => fst cv + snd cv) (combine counts values).

(** What the loop of the averages stores for a walker type *)
Definition walker_averages (key : string) (simulations : dict Z (dict Z StepRecord))
  : dict string Q :=
  match Statistics.sims_loop key (dict_values simulations)
          (repeat 0 (List.length (hd [] (dict_values simulations)))) with
  | Statistics.Returns counts => Statistics.per_step counts (List.length simulations)
  | Statistics.Raises _ => []
  end.

(** The averages are the means of a field: the result holds, for every
    walker type, under the key of every step the mean of the field over
    the runs of the type *)
Definition averages_are_means (stat : Statistics.Statistics) (field : StepRecord -> Q)
  (result : Statistics.Outcome (dict string (dict string Q))) : Prop :=
  exists averages,
    result = Statistics.Returns averages /\
    dict_keys averages = dict_keys (Statistics.__total_dict stat) /\
    forall walker simulations n,
      dict_get String.eqb walker (Statistics.__total_dict stat) = Some simulations ->
      runs_of_length n simulations ->
      exists per_step,
        dict_get String.eqb walker averages = Some per_step /\
        mean_table field n per_step (dict_values simulations).

(** A StraightWalker's run of five steps, accumulated *)
Definition one_run_stat : Statistics.Statistics :=
  export_to_statistics (completed short_sim) Statistics.init 1.

(** ** An instance of the intersections of polygons, for running main.py

    Exact on the axis-aligned rectangles that [get_boundary] builds. *)

Definition boxes_meet (p q : Polygon) : bool :=
  match bounding_box p, bounding_box q with
  | Some (x0, x1, y0, y1), Some (u0, u1, v0, v1) =>
      Qle_bool x0 u1 && Qle_bool u0 x1 && Qle_bool y0 v1 && Qle_bool v0 y1
  | _, _ => false
  end.

Definition box_polygons : ShapelyPolygons :=
  {| polygon_intersects := boxes_meet;
     polygon_intersects_point := fun p c => box_contains c p |}.

(** The names of a class that are taken are those with the ranks of the
    walkers of the class seen so far *)
Definition names_taken (seen : list WalkerType) (ws : dict string Walker) : Prop :=
  forall t j,
    dict_mem String.eqb (type_name t ++ str j)%string ws = true <->
    (Pos.to_nat j <= count_type t seen)%nat.

Section AccumulatedRuns.
Context {math : MathLib} {shapely : Shapely}.

(** The statistics hold, for walkers among [names] only and under
    distinct names, tables that runs of [n] steps recorded, filed under
    indices that satisfy [P], at least one for every walker they have *)
Definition statistics_of_runs (names : list string) (n : nat) (P : Z -> Prop)
  (stats : Statistics.Statistics) : Prop :=
  NoDup (dict_keys (Statistics.__total_dict stats)) /\
  forall walker runs,
    dict_get String.eqb walker (Statistics.__total_dict stats) = Some runs ->
    In walker names /\
    runs <> [] /\
    Forall (fun item =>
              P (fst item) /\ recorded (snd item) /\
              dict_keys (snd item) = steps_from 1 n)
           runs.
End AccumulatedRuns.

(** ** Notions of the records of a run *)

(** The test of [cross_y_check] on the two abscissas *)
Definition crossing_test (x_prev x_new : Q) : bool :=
  Qlt_bool (x_new * x_prev) 0 || (Qeq_bool x_prev 0 && negb (Qeq_bool x_new 0)).

(** The crossing counter of a walker that had the counter [c] at the
    abscissa [x_prev] and arrived, step after step, at the abscissas
    [xs] *)
Fixpoint crossing_counter (c : Z) (x_prev : Q) (xs : list Q) : Z :=
  match xs with
  | [] => c
  | x :: rest =>
      crossing_counter (if crossing_test x_prev x then c + 1 else c)%Z x rest
  end.

(** The 'y crosses' fields of the records of these steps: the counter
    after each step, clamped at 0 *)
Fixpoint crossing_fields (c : Z) (x_prev : Q) (xs : list Q) : list Z :=
  match xs with
  | [] => []
  | x :: rest =>
      let c' := (if crossing_test x_prev x then c + 1 else c)%Z in
      Z.max 0 c' :: crossing_fields c' x rest
  end.

Section RecordNotions.
Context {math : MathLib}.

(** The three distances of a record are those of its location, and its
    crossing count is not negative *)
Definition record_is_sound (record : StepRecord) : Prop :=
  distance_from_origin record
  = sqrt (fst (locations record) ^ 2 + snd (locations record) ^ 2) /\
  distance_from_x record = Qabs (snd (locations record)) /\
  distance_from_y record = Qabs (fst (locations record)) /\
  (0 <= y_crosses record)%Z.
End RecordNotions.

(** A run of five steps accumulated first and a run of twelve steps
    accumulated after it *)
Definition longer_later_stat : Statistics.Statistics :=
  export_to_statistics (completed straight_sim)
    (export_to_statistics (completed short_sim) Statistics.init 1) 2.

(** A MemoryWalker alone on free ground, for one move *)
Definition memory_sim : Simulation :=
  add_walker (Simulation_init 1) (Walker_init MemoryWalker).

Section RecordStates.
Context {math : MathLib} {shapely : Shapely}.

(** The state of a walker after [m] turns, for the soundness of its
    records *)
Definition sound_after (sim : Simulation) (walker_name : string) (m : nat) : Prop :=
  exists w table,
    dict_get String.eqb walker_name (__walkers sim) = Some w /\
    dict_get String.eqb walker_name (__total_dict sim) = Some table /\
    dict_keys table = steps_from 1 m /\
    Forall record_is_sound (dict_values table) /\
    (m <> O -> get_location w = last (trace table) (0, 0)).

(** The state of a walker after [m] turns, for its crossings; [sim0] is
    the simulation before the run *)
Definition crossings_after (sim0 sim : Simulation) (walker_name : string) (m : nat)
  : Prop :=
  __walkers_interaction sim = None /\
  exists w0 w c table,
    dict_get String.eqb walker_name (__walkers sim0) = Some w0 /\
    dict_get String.eqb walker_name (__walkers sim) = Some w /\
    type_ w <> BaseWalker /\
    dict_get String.eqb walker_name (__crosses_y sim) = Some c /\
    dict_get String.eqb walker_name (__total_dict sim) = Some table /\
    dict_keys table = steps_from 1 m /\
    fst (get_location w)
    = last (map fst (trace table)) (fst (get_location w0)) /\
    c = crossing_counter (-1) (fst (get_location w0)) (map fst (trace table)) /\
    map y_crosses (dict_values table)
    = crossing_fields (-1) (fst (get_location w0)) (map fst (trace table)).
End RecordStates.

(** * Properties *)

(** ** Dictionaries *)

Section DictFacts.
Context {K V : Type}.
Variable eqb : K -> K -> bool.
Hypothesis eqb_eq : forall a b, eqb a b = true <-> a = b.

Lemma eqb_refl_true (k : K) : eqb k k = true.
Proof. now apply eqb_eq. Qed.

Lemma eqb_neq_false (a b : K) : a <> b -> eqb a b = false.
Proof.
  intros Hne. destruct (eqb a b) eqn:E; [|reflexivity].
  apply eqb_eq in E. contradiction.
Qed.

Lemma dict_get_set_eq (k : K) (v : V) (d : dict K V) :
  dict_get eqb k (dict_set eqb k v d) = Some v.
Proof.
  induction d as [|[k' v'] d IH]; simpl.
  - now rewrite eqb_refl_true.
  - destruct (eqb k k') eqn:E; simpl; rewrite E; auto.
Qed.

Lemma dict_get_set_ne (k k' : K) (v : V) (d : dict K V) :
  k <> k' -> dict_get eqb k' (dict_set eqb k v d) = dict_get eqb k' d.
Proof.
  intros Hne. induction d as [|[k0 v0] d IH]; simpl.
  - rewrite eqb_neq_false; auto.
  - destruct (eqb k k0) eqn:E; simpl.
    + apply eqb_eq in E. subst k0. rewrite eqb_neq_false; auto.
    + destruct (eqb k' k0); auto.
Qed.

Lemma dict_set_keys_present (k : K) (v : V) (d : dict K V) :
  dict_get eqb k d <> None -> dict_keys (dict_set eqb k v d) = dict_keys d.
Proof.
  induction d as [|[k' v'] d IH]; simpl; intros H.
  - congruence.
  - destruct (eqb k k') eqn:E; simpl; [reflexivity|].
    f_equal. apply IH, H.
Qed.

Lemma dict_get_In_keys (k : K) (d : dict K V) :
  dict_get eqb k d <> None <-> In k (dict_keys d).
Proof.
  induction d as [|[k' v'] d IH]; simpl.
  - split; [congruence | tauto].
  - destruct (eqb k k') eqn:E.
    + apply eqb_eq in E. subst. split; [auto | discriminate].
    + rewrite IH. split; [auto | intros [H|H]; auto].
      subst. rewrite eqb_refl_true in E. discriminate.
Qed.

Lemma dict_mem_In_keys (k : K) (d : dict K V) :
  dict_mem eqb k d = true <-> In k (dict_keys d).
Proof.
  rewrite <- dict_get_In_keys. unfold dict_mem.
  destruct (dict_get eqb k d); split; congruence.
Qed.

Lemma dict_set_keys_fresh (k : K) (v : V) (d : dict K V) :
  dict_mem eqb k d = false -> dict_keys (dict_set eqb k v d) = dict_keys d ++ [k].
Proof.
  unfold dict_mem.
  induction d as [|[k' v'] d IH]; simpl; [reflexivity|].
  destruct (eqb k k'); [discriminate|].
  intros H. simpl. f_equal. apply IH, H.
Qed.

(** A write under a key leaves every entry that was there before, unless
    it is the entry of that key. *)
Lemma dict_set_fresh_keeps (k k' : K) (v v' : V) (d : dict K V) :
  dict_mem eqb k d = false ->
  dict_get eqb k' d = Some v' ->
  dict_get eqb k' (dict_set eqb k v d) = Some v'.
Proof.
  intros Hfresh Hget.
  rewrite dict_get_set_ne; auto.
  intros ->. unfold dict_mem in Hfresh. rewrite Hget in Hfresh. discriminate.
Qed.
End DictFacts.

(** ** Names of walkers *)

Lemma append_inj_r (s a b : string) : (s ++ a)%string = (s ++ b)%string -> a = b.
Proof. induction s; simpl; intros H; [assumption | injection H; auto]. Qed.

Lemma str_inj (i j : positive) : str i = str j -> i = j.
Proof.
  unfold str. intros H.
  apply Unsigned.to_uint_inj.
  pose proof (NilEmpty.usu (Pos.to_uint i)) as Hi.
  pose proof (NilEmpty.usu (Pos.to_uint j)) as Hj.
  rewrite H in Hi. congruence.
Qed.

Lemma walker_name_inj (name : string) (i j : positive) :
  (name ++ str i)%string = (name ++ str j)%string -> i = j.
Proof. intros H. apply str_inj. eapply append_inj_r; eauto. Qed.

(** The loop stops at an index that is not below its start, with every
    index it passed in use; it stops at a free index or when the fuel is
    spent. *)
Lemma next_index_scan (fuel : nat) (name : string) (ws : dict string Walker)
  (index : positive) :
  let r := next_index fuel name ws index in
  (index <= r)%positive /\
  (forall j, (index <= j < r)%positive ->
             dict_mem String.eqb (name ++ str j)%string ws = true) /\
  (dict_mem String.eqb (name ++ str r)%string ws = false \/
   Pos.to_nat r = (Pos.to_nat index + fuel)%nat).
Proof.
  revert index. induction fuel as [|fuel IH]; intros index; simpl.
  - split; [lia|]. split; [lia|]. right. lia.
  - destruct (dict_mem String.eqb (name ++ str index)%string ws) eqn:E.
    + destruct (IH (Pos.succ index)) as (Hle & Hall & Hend).
      split; [lia|]. split.
      * intros j Hj. destruct (Pos.eq_dec j index) as [->|Hne]; [assumption|].
        apply Hall. lia.
      * destruct Hend as [Hend|Hend]; [left; assumption | right; lia].
    + split; [lia|]. split; [lia|]. now left.
Qed.

(** Pigeonhole: the names of the indices 1 .. n + 1 cannot all be keys of
    a dictionary of n entries. *)
Lemma names_exceed_dict (name : string) (ws : dict string Walker) :
  ~ (forall j, (Pos.to_nat j <= S (List.length ws))%nat ->
               dict_mem String.eqb (name ++ str j)%string ws = true).
Proof.
  intros Hall.
  set (names := map (fun n => (name ++ str (Pos.of_nat n))%string)
                    (seq 1 (S (List.length ws)))).
  assert (Hnodup : NoDup names).
  { unfold names. apply Injective_map_NoDup_in; [|apply seq_NoDup].
    intros a b Ha Hb Hab. apply in_seq in Ha. apply in_seq in Hb.
    apply walker_name_inj in Hab.
    apply (f_equal Pos.to_nat) in Hab.
    rewrite !Nat2Pos.id in Hab by lia. assumption. }
  assert (Hincl : incl names (dict_keys ws)).
  { intros k Hk. unfold names in Hk. apply in_map_iff in Hk.
    destruct Hk as (n & <- & Hn). apply in_seq in Hn.
    apply (dict_mem_In_keys String.eqb String.eqb_eq).
    apply Hall. rewrite Nat2Pos.id by lia. lia. }
  pose proof (NoDup_incl_length Hnodup Hincl) as Hlen.
  unfold names, dict_keys in Hlen.
  rewrite !length_map, length_seq in Hlen. lia.
Qed.

(** The index [add_walker] picks is free, and every smaller one is in use. *)
Lemma next_index_fresh (name : string) (ws : dict string Walker) :
  let r := next_index (List.length ws) name ws 1 in
  dict_mem String.eqb (name ++ str r)%string ws = false /\
  (forall j, (j < r)%positive -> dict_mem String.eqb (name ++ str j)%string ws = true).
Proof.
  destruct (next_index_scan (List.length ws) name ws 1) as (Hle & Hall & Hend).
  simpl. split.
  - destruct Hend as [Hend|Hend]; [assumption|].
    destruct (dict_mem String.eqb (name ++ str (next_index (List.length ws) name ws 1))%string ws) eqn:E;
      [|reflexivity].
    exfalso. apply (names_exceed_dict name ws).
    intros j Hj.
    destruct (Pos.eq_dec j (next_index (List.length ws) name ws 1)) as [->|Hne];
      [assumption|].
    apply Hall. lia.
  - intros j Hj. apply Hall. lia.
Qed.

(** C10. [add_walker] stores the walker under its class name followed by
    the smallest positive integer that makes the key unused: the key is
    not in the dictionary before the call, every smaller index is, no
    entry that was there is replaced, and after the call the key maps to
    the walker, its escape time is None, its crossing counter is -1 and
    its table of step records is empty. *)
Theorem add_walker_fresh_key (sim : Simulation) (walker : Walker) :
  exists index : positive,
    let walker_name := (type_name (type_ walker) ++ str index)%string in
    dict_mem String.eqb walker_name (__walkers sim) = false /\
    (forall j, (j < index)%positive ->
       dict_mem String.eqb (type_name (type_ walker) ++ str j)%string (__walkers sim) = true) /\
    (forall k w, dict_get String.eqb k (__walkers sim) = Some w ->
       dict_get String.eqb k (__walkers (add_walker sim walker)) = Some w) /\
    dict_get String.eqb walker_name (__walkers (add_walker sim walker)) = Some walker /\
    dict_keys (__walkers (add_walker sim walker)) = dict_keys (__walkers sim) ++ [walker_name] /\
    dict_get String.eqb walker_name (__escape_times (add_walker sim walker)) = Some None /\
    dict_get String.eqb walker_name (__crosses_y (add_walker sim walker)) = Some (-1)%Z /\
    dict_get String.eqb walker_name (__total_dict (add_walker sim walker)) = Some [].
Proof.
  exists (next_index (List.length (__walkers sim)) (type_name (type_ walker)) (__walkers sim) 1).
  destruct (next_index_fresh (type_name (type_ walker)) (__walkers sim)) as (Hfresh & Hsmall).
  cbv zeta. unfold add_walker. simpl.
  repeat split.
  - exact Hfresh.
  - exact Hsmall.
  - intros k w Hk. eapply dict_set_fresh_keeps; eauto using String.eqb_eq.
  - apply dict_get_set_eq, String.eqb_eq.
  - apply dict_set_keys_fresh, Hfresh.
  - apply dict_get_set_eq, String.eqb_eq.
  - apply dict_get_set_eq, String.eqb_eq.
  - apply dict_get_set_eq, String.eqb_eq.
Qed.

(** ** The monad *)

Lemma bind_Ok {A B} (m : Rand A) (k : A -> Rand B) (r r' : Rng) (b : B) :
  bind m k r = Ok (b, r') ->
  exists a r1, m r = Ok (a, r1) /\ k a r1 = Ok (b, r').
Proof.
  unfold bind. destruct (m r) as [[a r1]|e]; [|discriminate].
  intros H. exists a, r1. auto.
Qed.

Lemma ret_Ok {A} (a b : A) (r r' : Rng) : ret a r = Ok (b, r') -> a = b /\ r = r'.
Proof. unfold ret. intros H. injection H. auto. Qed.

Lemma bind_ret_l {A B} (m : Rand A) (k : A -> Rand B) (r r1 : Rng) (a : A) :
  m r = Ok (a, r1) -> bind m k r = k a r1.
Proof. unfold bind. now intros ->. Qed.

Lemma subscript_Ok {A} (o : option A) (a : A) (r r' : Rng) :
  subscript o r = Ok (a, r') -> o = Some a /\ r = r'.
Proof.
  destruct o as [a0|]; simpl; [|discriminate].
  intros H. apply ret_Ok in H. destruct H. split; congruence.
Qed.

(** Take apart a hypothesis that says a computation returned. *)
Ltac inv_rand H :=
  repeat match type of H with
    | bind _ _ _ = Ok _ =>
        let a := fresh "a" in let r := fresh "r" in
        let H1 := fresh "Hm" in
        apply bind_Ok in H; destruct H as (a & r & H1 & H)
    | ret _ _ = Ok _ => apply ret_Ok in H; destruct H
    end.

(** ** Walkers *)

Lemma update_memory_location (w : Walker) :
  get_location (update_memory w) = get_location w.
Proof. unfold update_memory. now destruct (Nat.ltb _ _). Qed.

Lemma update_memory_prev (w : Walker) :
  get_prev_location (update_memory w) = get_prev_location w.
Proof. unfold update_memory. now destruct (Nat.ltb _ _). Qed.

Lemma update_memory_type (w : Walker) : type_ (update_memory w) = type_ w.
Proof. unfold update_memory. now destruct (Nat.ltb _ _). Qed.

Lemma refresh_location (w : Walker) :
  get_location (if isinstance w MemoryWalker then update_memory w else w)
  = get_location w.
Proof. destruct (isinstance w MemoryWalker); auto using update_memory_location. Qed.

Lemma refresh_prev (w : Walker) :
  get_prev_location (if isinstance w MemoryWalker then update_memory w else w)
  = get_prev_location w.
Proof. destruct (isinstance w MemoryWalker); auto using update_memory_prev. Qed.

Lemma refresh_type (w : Walker) :
  type_ (if isinstance w MemoryWalker then update_memory w else w) = type_ w.
Proof. destruct (isinstance w MemoryWalker); auto using update_memory_type. Qed.

Section WalkerFacts.
Context {math : MathLib}.

(** Every policy of the five variants snapshots the position before it
    commits the new one, and keeps the class. *)
Lemma move_snapshots (w w' : Walker) (r r' : Rng) :
  type_ w <> BaseWalker ->
  move w r = Ok (w', r') ->
  get_prev_location w' = get_location w /\ type_ w' = type_ w.
Proof.
  intros Hbase H. unfold move in H.
  destruct (type_ w) eqn:Ht; try congruence.
  - unfold UnitWalker_move, uniform in H. inv_rand H. subst. now rewrite <- Ht.
  - unfold RandomDistanceWalker_move, uniform in H. inv_rand H. subst. now rewrite <- Ht.
  - unfold StraightWalker_move, choice in H. inv_rand H. subst. now rewrite <- Ht.
  - unfold DirectionalBiasWalker_move in H. inv_rand H. subst. now rewrite <- Ht.
  - unfold MemoryWalker_move in H.
    destruct (possible_moves w); unfold choice in H; inv_rand H; subst; now rewrite <- Ht.
Qed.
End WalkerFacts.

(** ** Terrain effects *)

Section Terrain.
Context {math : MathLib} {shapely : Shapely}.

Lemma on_terrain_lands_on (walker : Walker) (tiles : list Rect) :
  on_terrain walker tiles = true <-> lands_on walker tiles.
Proof. unfold on_terrain, lands_on. now rewrite existsb_exists. Qed.

Lemma not_on_terrain (walker : Walker) (tiles : list Rect) :
  ~ lands_on walker tiles -> on_terrain walker tiles = false.
Proof.
  intros H. destruct (on_terrain walker tiles) eqn:E; [|reflexivity].
  apply on_terrain_lands_on in E. contradiction.
Qed.

(** C8. Terrain membership is tested against water, then sand, then
    grass, and the first match wins; water puts the walker at the origin,
    sand at the midpoint of the previous and the new position, grass at the
    new position plus twice the vector from the previous to the new
    position, and no match leaves the position where it is. *)
Theorem terrain_effects (sim : Simulation) (walker : Walker) :
  let x := _x walker in
  let y := _y walker in
  let px := _prev_x walker in
  let py := _prev_y walker in
  (lands_on walker (__waters sim) ->
     terrain_check sim walker = Some water /\
     get_location (handle_terrain walker (terrain_check sim walker)) = (0, 0)) /\
  (~ lands_on walker (__waters sim) -> lands_on walker (__sands sim) ->
     terrain_check sim walker = Some sand /\
     get_location (handle_terrain walker (terrain_check sim walker))
     = ((px + x) / 2, (py + y) / 2)) /\
  (~ lands_on walker (__waters sim) -> ~ lands_on walker (__sands sim) ->
   lands_on walker (__grasses sim) ->
     terrain_check sim walker = Some grass /\
     get_location (handle_terrain walker (terrain_check sim walker))
     = (x + (x - px) * 2, y + (y - py) * 2)) /\
  (~ lands_on walker (__waters sim) -> ~ lands_on walker (__sands sim) ->
   ~ lands_on walker (__grasses sim) ->
     terrain_check sim walker = None /\
     get_location (handle_terrain walker (terrain_check sim walker)) = (x, y)).
Proof.
  cbv zeta. unfold terrain_check. repeat split.
  - apply on_terrain_lands_on in H. now rewrite H.
  - apply on_terrain_lands_on in H. rewrite H.
    unfold handle_terrain. now rewrite refresh_location.
  - apply not_on_terrain in H. apply on_terrain_lands_on in H0. now rewrite H, H0.
  - apply not_on_terrain in H. apply on_terrain_lands_on in H0. rewrite H, H0.
    unfold handle_terrain. now rewrite refresh_location.
  - apply not_on_terrain in H, H0. apply on_terrain_lands_on in H1.
    now rewrite H, H0, H1.
  - apply not_on_terrain in H, H0. apply on_terrain_lands_on in H1.
    rewrite H, H0, H1. unfold handle_terrain. now rewrite refresh_location.
  - apply not_on_terrain in H, H0, H1. now rewrite H, H0, H1.
  - apply not_on_terrain in H, H0, H1. rewrite H, H0, H1.
    unfold handle_terrain. now rewrite refresh_location.
Qed.

Lemma handle_terrain_prev (walker : Walker) (terrain : option Terrain) :
  get_prev_location (handle_terrain walker terrain) = get_prev_location walker.
Proof.
  unfold handle_terrain.
  destruct terrain as [[]|]; cbv zeta; now rewrite refresh_prev.
Qed.

Lemma handle_terrain_type (walker : Walker) (terrain : option Terrain) :
  type_ (handle_terrain walker terrain) = type_ walker.
Proof.
  unfold handle_terrain.
  destruct terrain as [[]|]; cbv zeta; now rewrite refresh_type.
Qed.

Lemma gate_loop_prev (gates : list EnchantedGate) (walker : Walker) :
  get_prev_location (gate_loop gates walker) = get_prev_location walker.
Proof.
  revert walker. induction gates as [|g gates IH]; intros walker;
    cbn [gate_loop]; [reflexivity|].
  destruct (line_intersects _ _ _); rewrite IH; [|reflexivity].
  cbv zeta. now rewrite refresh_prev.
Qed.

End Terrain.

(** A water tile over the point (1, 0), for the instance of [terrain_effects] *)
Lemma terrain_effects_witness :
  @terrain_check box_shapely
     (add_water (Simulation_init 1) {| rect_x := 0; rect_y := -1; rect_width := 2; rect_height := 2 |})
     stepped_right = Some water /\
  get_location
    (handle_terrain stepped_right
       (@terrain_check box_shapely
          (add_water (Simulation_init 1) {| rect_x := 0; rect_y := -1; rect_width := 2; rect_height := 2 |})
          stepped_right)) = (0, 0).
Proof.
  apply (@terrain_effects box_shapely
           (add_water (Simulation_init 1) {| rect_x := 0; rect_y := -1; rect_width := 2; rect_height := 2 |})
           stepped_right).
  exists {| rect_x := 0; rect_y := -1; rect_width := 2; rect_height := 2 |}.
  split; [left; reflexivity | vm_compute; reflexivity].
Defined.

(** ** The crossing counter *)

Lemma Qlt_bool_iff (a b : Q) : Qlt_bool a b = true <-> a < b.
Proof.
  unfold Qlt_bool. rewrite negb_true_iff, <- not_true_iff_false, Qle_bool_iff.
  split; [apply Qnot_le_lt | apply Qlt_not_le].
Qed.

Lemma opposite_signs (a b : Q) :
  a * b < 0 <-> (b < 0 /\ 0 < a) \/ (0 < b /\ a < 0).
Proof.
  split.
  - intros H. destruct (Q_dec a 0) as [[Ha|Ha]|Ha], (Q_dec b 0) as [[Hb|Hb]|Hb];
      try (right; split; assumption); try (left; split; assumption); exfalso.
    + nra.
    + rewrite Hb in H. nra.
    + nra.
    + rewrite Hb in H. nra.
    + rewrite Ha in H. nra.
    + rewrite Ha in H. nra.
    + rewrite Ha in H. nra.
  - intros [[Hb Ha]|[Hb Ha]]; nra.
Qed.

Lemma crosses_y_axis_rule (w : Walker) :
  crosses_y_axis w = true <->
  (_prev_x w < 0 /\ 0 < _x w) \/ (0 < _prev_x w /\ _x w < 0) \/
  (_prev_x w == 0 /\ ~ _x w == 0).
Proof.
  unfold crosses_y_axis. simpl.
  rewrite orb_true_iff, andb_true_iff, negb_true_iff, Qlt_bool_iff,
    <- not_true_iff_false, !Qeq_bool_iff, opposite_signs.
  tauto.
Qed.

Lemma cross_y_check_counter (sim : Simulation) (walker_name : string)
  (walker : Walker) (c : Z) (r : Rng) :
  dict_get String.eqb walker_name (__crosses_y sim) = Some c ->
  exists sim',
    cross_y_check sim walker_name walker r = Ok (sim', r) /\
    dict_get String.eqb walker_name (__crosses_y sim')
    = Some (if crosses_y_axis walker then (c + 1)%Z else c) /\
    __walkers sim' = __walkers sim /\
    __escape_times sim' = __escape_times sim /\
    __total_dict sim' = __total_dict sim /\
    (forall k, k <> walker_name ->
       dict_get String.eqb k (__crosses_y sim') = dict_get String.eqb k (__crosses_y sim)).
Proof.
  intros Hc. unfold cross_y_check.
  destruct (crosses_y_axis walker).
  - rewrite Hc. eexists. split; [reflexivity|]. simpl.
    split; [apply dict_get_set_eq, String.eqb_eq|].
    repeat split; auto.
    intros k Hk. apply dict_get_set_ne; auto using String.eqb_eq.
  - exists sim. repeat split; auto.
Qed.

(** A walker that stays on the y axis never moves its counter. *)
Lemma crossing_trace_on_axis (positions : list Point) (sim : Simulation)
  (walker_name : string) (walker : Walker) (c : Z) (r : Rng) :
  _x walker == 0 ->
  Forall (fun p => fst p == 0) positions ->
  dict_get String.eqb walker_name (__crosses_y sim) = Some c ->
  exists sim',
    crossing_trace positions sim walker_name walker r = Ok (sim', r) /\
    dict_get String.eqb walker_name (__crosses_y sim') = Some c.
Proof.
  revert sim walker. induction positions as [|p rest IH]; intros sim walker Hx Hall Hc.
  - exists sim. split; [reflexivity | assumption].
  - inversion Hall as [|? ? Hp Hrest]; subst.
    cbn [crossing_trace].
    destruct (cross_y_check_counter sim walker_name (arrive walker p) c r Hc)
      as (sim1 & Hrun & Hc1 & _).
    assert (Hno : crosses_y_axis (arrive walker p) = false).
    { apply not_true_iff_false. rewrite crosses_y_axis_rule. simpl.
      intros [[H _]|[[H _]|[_ H]]]; [rewrite Hx in H | rewrite Hx in H | apply H, Hp];
        apply (Qlt_irrefl 0 H). }
    rewrite Hno in Hc1.
    rewrite (bind_ret_l _ _ _ _ _ Hrun).
    apply IH; auto.
Qed.

(** C9, as the code has it.  The counter is -1 at registration;
    [cross_y_check] adds one to it exactly when the previous and the new
    abscissa have strictly opposite signs, or the previous one is zero
    and the new one is not (arriving on the axis does not count), and
    leaves it as it is otherwise.  A walker that stays at x = 0 never
    moves it, the move from x = 0 to x = 3 adds one, and the oscillation
    1, -1, 1, -1 adds three. *)
Theorem y_crossing_counter :
  (forall sim walker, exists walker_name,
     dict_keys (__walkers (add_walker sim walker))
       = dict_keys (__walkers sim) ++ [walker_name] /\
     dict_get String.eqb walker_name (__crosses_y (add_walker sim walker))
       = Some (-1)%Z) /\
  (forall walker,
     crosses_y_axis walker = true <->
     (_prev_x walker < 0 /\ 0 < _x walker) \/
     (0 < _prev_x walker /\ _x walker < 0) \/
     (_prev_x walker == 0 /\ ~ _x walker == 0)) /\
  (forall sim walker_name walker c r,
     dict_get String.eqb walker_name (__crosses_y sim) = Some c ->
     exists sim',
       cross_y_check sim walker_name walker r = Ok (sim', r) /\
       dict_get String.eqb walker_name (__crosses_y sim')
       = Some (if crosses_y_axis walker then (c + 1)%Z else c)) /\
  (forall positions sim walker_name walker c r,
     _x walker == 0 ->
     Forall (fun p => fst p == 0) positions ->
     dict_get String.eqb walker_name (__crosses_y sim) = Some c ->
     exists sim',
       crossing_trace positions sim walker_name walker r = Ok (sim', r) /\
       dict_get String.eqb walker_name (__crosses_y sim') = Some c) /\
  (forall sim walker_name walker c r,
     _x walker == 0 ->
     dict_get String.eqb walker_name (__crosses_y sim) = Some c ->
     exists sim',
       crossing_trace [(3, 0)] sim walker_name walker r = Ok (sim', r) /\
       dict_get String.eqb walker_name (__crosses_y sim') = Some (c + 1)%Z) /\
  (forall sim walker_name walker c r,
     dict_get String.eqb walker_name (__crosses_y sim) = Some c ->
     exists sim',
       crossing_trace [(-1, 0); (1, 0); (-1, 0)] sim walker_name
                      (arrive walker (1, 0)) r = Ok (sim', r) /\
       dict_get String.eqb walker_name (__crosses_y sim') = Some (c + 3)%Z).
Proof.
  split; [|split; [|split; [|split; [|split]]]].
  - intros sim walker.
    destruct (next_index_fresh (type_name (type_ walker)) (__walkers sim)) as (Hfresh & _).
    eexists. unfold add_walker. simpl. split.
    + apply dict_set_keys_fresh, Hfresh.
    + apply dict_get_set_eq, String.eqb_eq.
  - apply crosses_y_axis_rule.
  - intros sim walker_name walker c r Hc.
    destruct (cross_y_check_counter sim walker_name walker c r Hc) as (sim' & H1 & H2 & _).
    eauto.
  - apply crossing_trace_on_axis.
  - intros sim walker_name walker c r Hx Hc. cbn [crossing_trace].
    destruct (cross_y_check_counter sim walker_name (arrive walker (3, 0)) c r Hc)
      as (sim1 & Hrun & Hc1 & _).
    rewrite (bind_ret_l _ _ _ _ _ Hrun).
    exists sim1. split; [reflexivity|].
    rewrite Hc1. replace (crosses_y_axis (arrive walker (3, 0))) with true; [reflexivity|].
    symmetry. apply crosses_y_axis_rule. right; right. simpl. split; [assumption|].
    intros H. discriminate H.
  - intros sim walker_name walker c r Hc. cbn [crossing_trace].
    destruct (cross_y_check_counter sim walker_name
                (arrive (arrive walker (1, 0)) (-1, 0)) c r Hc)
      as (sim1 & Hrun1 & Hc1 & _).
    rewrite (bind_ret_l _ _ _ _ _ Hrun1).
    change (crosses_y_axis (arrive (arrive walker (1, 0)) (-1, 0))) with true in Hc1.
    destruct (cross_y_check_counter sim1 walker_name
                (arrive (arrive (arrive walker (1, 0)) (-1, 0)) (1, 0)) _ r Hc1)
      as (sim2 & Hrun2 & Hc2 & _).
    rewrite (bind_ret_l _ _ _ _ _ Hrun2).
    change (crosses_y_axis (arrive (arrive (arrive walker (1, 0)) (-1, 0)) (1, 0)))
      with true in Hc2.
    destruct (cross_y_check_counter sim2 walker_name
                (arrive (arrive (arrive (arrive walker (1, 0)) (-1, 0)) (1, 0)) (-1, 0))
                _ r Hc2)
      as (sim3 & Hrun3 & Hc3 & _).
    rewrite (bind_ret_l _ _ _ _ _ Hrun3).
    change (crosses_y_axis
              (arrive (arrive (arrive (arrive walker (1, 0)) (-1, 0)) (1, 0)) (-1, 0)))
      with true in Hc3.
    exists sim3. split; [reflexivity|]. rewrite Hc3. f_equal. lia.
Qed.

(** C9, as the specification words it, fails where a walker arrives on the
    y axis: the signs of 1 and 0 differ, and the counter stays. *)
Lemma y_crossing_sign_rule_fails :
  ~ (crosses_y_axis stepped_onto_axis = true <->
     spec_crossing (_prev_x stepped_onto_axis) (_x stepped_onto_axis)).
Proof.
  intros [_ H].
  assert (Hs : spec_crossing (_prev_x stepped_onto_axis) (_x stepped_onto_axis)).
  { left. vm_compute. discriminate. }
  apply H in Hs. vm_compute in Hs. discriminate.
Qed.

(** ** The interaction move *)

Section Interaction.
Context {math : MathLib} {shapely : Shapely}.

(** C1 fails on the code for RandomDistanceWalker: the test that guards
    the rounding, [not isinstance(walker, UnitWalker) or
    isinstance(walker, RandomDistanceWalker)], holds for every class but
    UnitWalker, so the bearing of a RandomDistanceWalker is rounded to a
    multiple of pi / 2 before the step, like that of the grid walkers, and
    only a UnitWalker keeps the bearing as it is. *)
Theorem interaction_move_rounds_all_but_unit
  (x y px py distance : Q) (e : bool) (bias : list Q) (mem : list Point)
  (nearest_walker : Walker) :
  let rdw := {| type_ := RandomDistanceWalker; _x := x; _y := y;
                _prev_x := px; _prev_y := py; escaped := e;
                _bias_probabilities := bias; __memory := mem |} in
  let unit := {| type_ := UnitWalker; _x := x; _y := y;
                 _prev_x := px; _prev_y := py; escaped := e;
                 _bias_probabilities := bias; __memory := mem |} in
  rounds_bearing rdw = true /\
  rounds_bearing unit = false /\
  get_location (interaction_move "attract" rdw nearest_walker distance)
  = (x + cos (round_to_quarter_turn (bearing rdw nearest_walker)) * distance,
     y + sin (round_to_quarter_turn (bearing rdw nearest_walker)) * distance) /\
  get_location (interaction_move "repel" rdw nearest_walker distance)
  = (x - cos (round_to_quarter_turn (bearing rdw nearest_walker)) * distance,
     y - sin (round_to_quarter_turn (bearing rdw nearest_walker)) * distance) /\
  get_location (interaction_move "attract" unit nearest_walker distance)
  = (x + cos (bearing unit nearest_walker) * distance,
     y + sin (bearing unit nearest_walker) * distance).
Proof.
  cbv zeta. repeat split.
Qed.
End Interaction.

(** The same on a run of [choose_move]: a RandomDistanceWalker at the
    origin, the nearest walker at (1, 2), that is at a bearing of about 63
    degrees, and the draws 0 (the probability) and 1/2 (the distance, 1).
    The walker ends near (0, 1), one unit along the rounded bearing of 90
    degrees, and not near (0.447, 0.894). *)
Lemma choose_move_rounds_random_distance_walker :
  match @choose_move rational_math attract_sim "RandomDistanceWalker1"
          (Walker_init RandomDistanceWalker) (list_rng [0; 1 # 2]) with
  | Ok (walker, _) =>
      Qabs (_x walker) < 1 # 1000 /\ 999 # 1000 < _y walker
  | Err _ => False
  end.
Proof. vm_compute. split; reflexivity. Qed.

(** ** Gates *)

(** C4 fails on the code: [gate_check] has no [break].  The walker steps
    from the origin to (1, 0); its segment meets the entrance of [gate_a]
    and not that of [gate_b], it is sent to (5, 0), the exit of [gate_a],
    and then the segment from the origin to (5, 0) is tested against
    [gate_b], meets it, and the walker ends at (0, 7), the exit of
    [gate_b]. *)
Lemma gate_check_chains_teleports :
  @first_gate_crossed box_shapely (__enchanted_gates two_gates_sim) stepped_right
    = Some gate_a /\
  @crosses_entrance box_shapely stepped_right gate_b = false /\
  get_location (@gate_check box_shapely two_gates_sim stepped_right)
    = exit_location gate_b /\
  Point_eqb (exit_location gate_b) (exit_location gate_a) = false.
Proof. vm_compute. repeat split. Qed.

(** ** The memory of a MemoryWalker *)

(** C5 fails on the code: [MemoryWalker.move] appends to the memory and
    never evicts.  A new MemoryWalker whose every choice is the first
    candidate walks straight down; after 1001 moves its memory holds 1001
    cells.  [update_memory] does not repair it: it removes one cell for
    the one it adds, so a memory over the capacity stays over it. *)
Lemma move_overflows_memory :
  match @moves rational_math 1001 (Walker_init MemoryWalker) (constant_rng 0) with
  | Ok (walker, _) =>
      List.length (__memory walker) = 1001%nat /\
      List.length (__memory (update_memory walker)) = 1001%nat
  | Err _ => False
  end.
Proof. vm_compute. split; reflexivity. Qed.

(** ** The previous position *)

Section PreviousPosition.
Context {math : MathLib} {shapely : Shapely}.

Lemma escape_check_walker (w : Walker) :
  get_prev_location (snd (escape_check w)) = get_prev_location w /\
  get_location (snd (escape_check w)) = get_location w /\
  type_ (snd (escape_check w)) = type_ w /\
  __memory (snd (escape_check w)) = __memory w.
Proof. unfold escape_check. destruct (_ && _); simpl; auto. Qed.

Lemma retry_move_prev (sim : Simulation) (walker_name : string)
  (w w' : Walker) (r r' : Rng) :
  __walkers_interaction sim = None ->
  type_ w <> BaseWalker ->
  retry_move sim walker_name w r = Ok (w', r') ->
  get_prev_location w' = get_prev_location w /\ type_ w' = type_ w.
Proof.
  intros Hnone Hbase H. unfold retry_move, choose_move in H. rewrite Hnone in H.
  apply bind_Ok in H as (wm & rm & Hmove & H).
  apply move_snapshots in Hmove as [Hp Ht]; [|exact Hbase].
  destruct (terrain_check sim wm); apply ret_Ok in H as [<- <-].
  - now rewrite handle_terrain_prev, handle_terrain_type.
  - auto.
Qed.

Lemma collision_loop_prev (n : nat) (sim : Simulation) (walker_name : string)
  (w w' : Walker) (ok : bool) (r r' : Rng) :
  __walkers_interaction sim = None ->
  type_ w <> BaseWalker ->
  collision_loop n sim walker_name w r = Ok ((ok, w'), r') ->
  get_prev_location w' = get_prev_location w /\ type_ w' = type_ w.
Proof.
  intros Hnone. revert w r. induction n as [|n IH]; intros w r Hbase H;
    cbn [collision_loop] in H; destruct (check_collision sim w).
  - apply ret_Ok in H as [H _]. injection H as _ <-. auto.
  - apply ret_Ok in H as [H _]. injection H as _ <-. auto.
  - apply bind_Ok in H as (w1 & r1 & Hretry & H).
    destruct (retry_move_prev _ _ _ _ _ _ Hnone Hbase Hretry) as [Hp Ht].
    apply IH in H; [|congruence]. destruct H. split; congruence.
  - apply ret_Ok in H as [H _]. injection H as _ <-. auto.
Qed.

Lemma simulation_results_update_walker (i : Z) (sim sim' : Simulation)
  (walker_name : string) (w w' : Walker) (r r' : Rng) :
  simulation_results_update sim walker_name w i r = Ok ((sim', w'), r') ->
  w' = snd (escape_check w) /\ r' = r.
Proof.
  unfold simulation_results_update. intros H.
  destruct (escape_check w) as [esc w1]. simpl.
  apply bind_Ok in H as (et & r1 & Het & H).
  apply bind_Ok in H as (c & r2 & Hc & H).
  apply bind_Ok in H as (table & r3 & Htable & H).
  apply ret_Ok in H as [H <-]. injection H as _ <-.
  apply subscript_Ok in Hc as [_ <-]. apply subscript_Ok in Htable as [_ <-].
  split; [reflexivity|].
  destruct esc; [apply subscript_Ok in Het as [_ <-] | apply ret_Ok in Het as [_ <-]];
    reflexivity.
Qed.

Lemma cross_y_check_rng (sim sim' : Simulation) (walker_name : string)
  (w : Walker) (r r' : Rng) :
  cross_y_check sim walker_name w r = Ok (sim', r') -> r' = r.
Proof.
  unfold cross_y_check. destruct (crosses_y_axis w); intros H.
  - apply bind_Ok in H as (c & r1 & Hc & H).
    apply subscript_Ok in Hc as [_ <-]. now apply ret_Ok in H as [_ <-].
  - now apply ret_Ok in H as [_ <-].
Qed.

Lemma bookkeeping_walker (i : Z) (sim sim' : Simulation) (walker_name : string)
  (w w' : Walker) (r r' : Rng) :
  bookkeeping i sim walker_name w r = Ok ((sim', w'), r') ->
  get_prev_location w' = get_prev_location w /\
  get_location w' = get_location w /\ r' = r.
Proof.
  unfold bookkeeping, Simulation_escape_check. intros H.
  destruct (escape_check_walker w) as (Hp & Hl & _).
  destruct (escape_check w) as [esc w1]. simpl in Hp, Hl.
  destruct (negb esc);
    apply bind_Ok in H as (sim1 & r1 & Hcross & H);
    apply cross_y_check_rng in Hcross as ->;
    apply simulation_results_update_walker in H as [-> ->];
    destruct (escape_check_walker w1) as (Hp1 & Hl1 & _);
    repeat split; congruence.
Qed.

Lemma first_move_Ok (sim : Simulation) (walker_name : string) (w1 : Walker)
  (r r1 : Rng) :
  first_move sim walker_name r = Ok (w1, r1) ->
  exists w0 wm,
    dict_get String.eqb walker_name (__walkers sim) = Some w0 /\
    choose_move sim walker_name w0 r = Ok (wm, r1) /\
    w1 = handle_terrain wm (terrain_check sim wm).
Proof.
  unfold first_move. intros H.
  apply bind_Ok in H as (w0 & r0 & Hget & H).
  apply subscript_Ok in Hget as [Hget <-].
  apply bind_Ok in H as (wm & rm & Hmove & H).
  apply ret_Ok in H as [<- <-].
  exists w0, wm. auto.
Qed.

(** The two ways a turn returns: the collision loop gave up, or it ended
    and the bookkeeping followed. *)
Lemma walker_turn_Ok (i : Z) (sim sim' : Simulation) (walker_name : string)
  (ok : bool) (r r' : Rng) :
  walker_turn i sim walker_name r = Ok ((ok, sim'), r') ->
  exists w1 r1 w2 r2,
    first_move sim walker_name r = Ok (w1, r1) /\
    ((collision_loop max_collision_attempts sim walker_name w1 r1 = Ok ((false, w2), r2) /\
      ok = false /\ sim' = store_walker sim walker_name w2 /\ r' = r2) \/
     (collision_loop max_collision_attempts sim walker_name w1 r1 = Ok ((true, w2), r2) /\
      ok = true /\
      exists sim3 w3,
        bookkeeping i sim walker_name
          (gate_check sim (if isinstance w2 MemoryWalker then update_memory w2 else w2))
          r2 = Ok ((sim3, w3), r') /\
        sim' = store_walker sim3 walker_name w3)).
Proof.
  unfold walker_turn. intros H.
  apply bind_Ok in H as (w1 & r1 & Hfirst & H).
  apply bind_Ok in H as ([okc w2] & r2 & Hloop & H).
  exists w1, r1, w2, r2. split; [assumption|].
  destruct okc; simpl in H.
  - right. apply bind_Ok in H as ([sim3 w3] & r3 & Hbook & H).
    apply ret_Ok in H as [H <-]. injection H as <- <-.
    split; [assumption|]. split; [reflexivity|]. exists sim3, w3. auto.
  - left. apply ret_Ok in H as [H <-]. injection H as <- <-. auto.
Qed.

(** C6, as the code has it.  In a run without interaction mode, at the
    end of the turn of a walker of one of the five variants (whether the
    turn ended or gave up on collisions) the stored previous position is
    the position the walker held when the turn began, that is immediately
    before its latest policy move: every [move] snapshots the position
    before it commits the new one, and the terrain effect, the retreat
    [move_back] and the gate teleport change the current position only. *)
Theorem previous_position_is_turn_start (i : Z) (sim sim' : Simulation)
  (walker_name : string) (w : Walker) (ok : bool) (r r' : Rng) :
  __walkers_interaction sim = None ->
  dict_get String.eqb walker_name (__walkers sim) = Some w ->
  type_ w <> BaseWalker ->
  walker_turn i sim walker_name r = Ok ((ok, sim'), r') ->
  exists w',
    dict_get String.eqb walker_name (__walkers sim') = Some w' /\
    get_prev_location w' = get_location w.
Proof.
  intros Hnone Hw Hbase H.
  apply walker_turn_Ok in H as (w1 & r1 & w2 & r2 & Hfirst & Hrest).
  apply first_move_Ok in Hfirst as (w0 & wm & Hget & Hmove & ->).
  assert (w0 = w) by congruence. subst w0.
  unfold choose_move in Hmove. rewrite Hnone in Hmove.
  apply move_snapshots in Hmove as [Hp Ht]; [|exact Hbase].
  assert (Hloop : get_prev_location w2 = get_location w).
  { destruct Hrest as [(Hloop & _)|(Hloop & _)];
      apply collision_loop_prev in Hloop as [Hp2 _]; auto;
      try (rewrite handle_terrain_type; congruence);
      rewrite handle_terrain_prev in Hp2; congruence. }
  destruct Hrest as [(_ & _ & -> & _)|(_ & _ & sim3 & w3 & Hbook & ->)].
  - exists w2. split; [|assumption].
    unfold store_walker. simpl. apply dict_get_set_eq, String.eqb_eq.
  - apply bookkeeping_walker in Hbook as (Hp3 & _).
    exists w3. split.
    + unfold store_walker. simpl. apply dict_get_set_eq, String.eqb_eq.
    + rewrite Hp3. unfold gate_check. rewrite gate_loop_prev, refresh_prev. assumption.
Qed.
End PreviousPosition.

(** A turn through terrain-free ground and two gates: the walker steps
    from the origin to (1, 0) and is teleported to (0, 7); its previous
    position is the origin. *)
Lemma previous_position_is_turn_start_witness :
  exists ok sim' r' w',
    @walker_turn rational_math box_shapely 1 two_gates_sim "StraightWalker1"%string
                 (constant_rng (1 # 2)) = Ok ((ok, sim'), r') /\
    dict_get String.eqb "StraightWalker1"%string (__walkers sim') = Some w' /\
    get_prev_location w' = get_location (Walker_init StraightWalker) /\
    get_location w' = exit_location gate_b.
Proof.
  let v := eval vm_compute in
    (@walker_turn rational_math box_shapely 1 two_gates_sim "StraightWalker1"%string
                  (constant_rng (1 # 2))) in
  match v with
  | Ok ((?ok, ?s), ?r) =>
      assert (E : @walker_turn rational_math box_shapely 1 two_gates_sim
                    "StraightWalker1"%string (constant_rng (1 # 2)) = Ok ((ok, s), r))
        by (vm_compute; reflexivity);
      destruct (@previous_position_is_turn_start rational_math box_shapely 1
                  two_gates_sim s "StraightWalker1"%string (Walker_init StraightWalker)
                  ok (constant_rng (1 # 2)) r eq_refl eq_refl
                  ltac:(discriminate) E) as (w' & H1 & H2);
      exists ok, s, r, w';
      split; [exact E|]; split; [exact H1|]; split; [exact H2|];
      vm_compute in H1; injection H1 as <-; reflexivity
  end.
Defined.

(** C6, as the specification words it, fails at a terrain effect: the
    walker that stepped from the origin to (1, 0) onto sand is moved to
    (1/2, 0); the position it held immediately before that transition is
    (1, 0), and its stored previous position is still the origin. *)
Lemma terrain_effect_keeps_previous_position :
  Point_eqb (get_prev_location (handle_terrain stepped_right (Some sand)))
            (get_location stepped_right) = false.
Proof. vm_compute. reflexivity. Qed.

(** ** The escape bookkeeping *)

Lemma dict_set_append {V : Type} (k : Z) (v : V) (d : dict Z V) :
  Forall (fun k' => (k' < k)%Z) (dict_keys d) ->
  dict_set Z.eqb k v d = d ++ [(k, v)].
Proof.
  induction d as [|[k' v'] d IH]; simpl; intros H; [reflexivity|].
  inversion H as [|? ? Hlt Hrest]; subst.
  destruct (Z.eqb_spec k k'); [lia|]. f_equal. auto.
Qed.

Lemma steps_from_seq (a n : nat) :
  steps_from (Z.of_nat a) n = map Z.of_nat (seq a n).
Proof.
  revert a. induction n as [|n IH]; intros a; simpl; [reflexivity|].
  f_equal. rewrite <- IH. f_equal. lia.
Qed.

Section EscapeFacts.
Context {math : MathLib}.

Lemma escape_check_flag (w : Walker) :
  escaped (snd (escape_check w)) = fst (escape_check w).
Proof.
  unfold escape_check. destruct w as [t x y qx qy e b m].
  cbn [escaped]. destruct (Qle_bool _ 10), e; simpl; auto.
Qed.

Lemma escape_check_twice (w : Walker) :
  fst (escape_check (snd (escape_check w))) = fst (escape_check w).
Proof.
  unfold escape_check. destruct w as [t x y qx qy e b m].
  cbn [escaped get_location _x _y fst snd].
  destruct (Qle_bool (sqrt (x ^ 2 + y ^ 2)) 10) eqn:E, e;
    cbn [andb negb snd fst set_escaped escaped _x _y]; rewrite ?E; reflexivity.
Qed.

Lemma cross_y_check_frame (sim sim' : Simulation) (walker_name : string)
  (w : Walker) (r r' : Rng) :
  cross_y_check sim walker_name w r = Ok (sim', r') ->
  __escape_times sim' = __escape_times sim /\
  __total_dict sim' = __total_dict sim /\
  __walkers sim' = __walkers sim.
Proof.
  unfold cross_y_check. destruct (crosses_y_axis w); intros H.
  - apply bind_Ok in H as (c & r1 & Hc & H).
    apply ret_Ok in H as [<- _]. auto.
  - apply ret_Ok in H as [<- _]. auto.
Qed.

(** One step of bookkeeping: the record of step [i] goes into the table of
    the walker; its 'escape time' field is None when the walker has not
    escaped, and the stored escape time when it has; the stored escape
    time becomes [i] when the walker has not escaped. *)
Lemma bookkeeping_escape (i : Z) (sim sim' : Simulation) (walker_name : string)
  (w w' : Walker) (r r' : Rng) (table : dict Z StepRecord) (et : option Z) :
  bookkeeping i sim walker_name w r = Ok ((sim', w'), r') ->
  dict_get String.eqb walker_name (__total_dict sim) = Some table ->
  dict_get String.eqb walker_name (__escape_times sim) = Some et ->
  escaped w' = fst (escape_check w) /\
  dict_get String.eqb walker_name (__escape_times sim')
    = Some (if fst (escape_check w) then et else Some i) /\
  exists record,
    dict_get String.eqb walker_name (__total_dict sim')
      = Some (dict_set Z.eqb i record table) /\
    escape_time record = (if fst (escape_check w) then et else None) /\
    locations record = get_location w.
Proof.
  unfold bookkeeping, Simulation_escape_check. intros H Htable Het.
  pose proof (escape_check_twice w) as Htwice.
  pose proof (escape_check_flag (snd (escape_check w))) as Hflag.
  destruct (escape_check_walker w) as (_ & Hloc & _).
  destruct (escape_check w) as [esc w1]. simpl in Htwice, Hflag, Hloc |- *.
  assert (Hgen : forall sim1,
    __total_dict sim1 = __total_dict sim ->
    dict_get String.eqb walker_name (__escape_times sim1)
      = Some (if esc then et else Some i) ->
    (sim2 <- cross_y_check sim1 walker_name w1 ;;
     simulation_results_update sim2 walker_name w1 i) r = Ok ((sim', w'), r') ->
    escaped w' = esc /\
    dict_get String.eqb walker_name (__escape_times sim')
      = Some (if esc then et else Some i) /\
    exists record,
      dict_get String.eqb walker_name (__total_dict sim')
        = Some (dict_set Z.eqb i record table) /\
      escape_time record = (if esc then et else None) /\
      locations record = get_location w).
  { intros sim1 Ht1 He1 H1.
    apply bind_Ok in H1 as (sim2 & r2 & Hcross & H1).
    apply cross_y_check_frame in Hcross as (He2 & Ht2 & _).
    unfold simulation_results_update in H1.
    destruct (escape_check w1) as [esc1 w2]. simpl in Htwice, Hflag. subst esc1.
    apply bind_Ok in H1 as (et1 & r3 & Hfield & H1).
    apply bind_Ok in H1 as (c & r4 & _ & H1).
    apply bind_Ok in H1 as (table1 & r5 & Htable1 & H1).
    apply ret_Ok in H1 as [H1 _]. injection H1 as <- <-.
    apply subscript_Ok in Htable1 as [Htable1 _].
    rewrite Ht2, Ht1, Htable in Htable1. injection Htable1 as <-.
    split; [assumption|]. simpl. split; [now rewrite He2|].
    eexists. split; [apply dict_get_set_eq, String.eqb_eq|]. simpl.
    split; [|congruence].
    destruct esc.
    - apply subscript_Ok in Hfield as [Hfield _].
      unfold get_escape_times in Hfield. rewrite He2, He1 in Hfield. congruence.
    - apply ret_Ok in Hfield as [Hfield _]. congruence. }
  destruct esc; simpl in H.
  - apply (Hgen sim); auto.
  - apply (Hgen (set_escape_times sim
                   (dict_set String.eqb walker_name (Some i) (__escape_times sim))));
      auto.
    simpl. apply dict_get_set_eq, String.eqb_eq.
Qed.

Lemma escape_fields_escaped (et : option Z) (i : Z) (positions : list Point) :
  escape_fields true et i positions = repeat et (List.length positions).
Proof.
  revert i. induction positions as [|p rest IH]; intros i; simpl; [reflexivity|].
  rewrite andb_false_r. f_equal. apply IH.
Qed.

(** The fields in closed form: None for the steps before the escape, then
    the index of the last of these steps. *)
Lemma escape_fields_closed (et : option Z) (i : Z) (positions : list Point) :
  escape_fields false et i positions
  = repeat None (pre_escape_steps positions) ++
    repeat (match pre_escape_steps positions with
            | O => et
            | S k => Some (i + Z.of_nat k)%Z
            end)
           (List.length positions - pre_escape_steps positions).
Proof.
  revert et i. induction positions as [|p rest IH]; intros et i;
    cbn [escape_fields pre_escape_steps List.length]; [reflexivity|].
  destruct (inside p); cbn [andb negb].
  - rewrite IH. cbn [repeat app Nat.sub]. f_equal. f_equal.
    destruct (pre_escape_steps rest) as [|k].
    + now rewrite Z.add_0_r.
    + replace (i + 1 + Z.of_nat k)%Z with (i + Z.of_nat (S k))%Z by lia. reflexivity.
  - cbn [repeat app Nat.sub]. f_equal. apply escape_fields_escaped.
Qed.

Lemma pre_escape_steps_le (positions : list Point) :
  (pre_escape_steps positions <= List.length positions)%nat.
Proof.
  induction positions as [|p rest IH]; simpl; [lia|].
  destruct (inside p); lia.
Qed.

End EscapeFacts.

(** ** The average escape time *)

(** A loop that writes one entry per item of a dictionary builds the
    dictionary of the images. *)
Lemma fold_dict_set_get {V W : Type} (g : V -> W)
  (f : dict string W -> string * V -> dict string W) (items : dict string V) :
  (forall acc item, f acc item = dict_set String.eqb (fst item) (g (snd item)) acc) ->
  forall (acc : dict string W) (k : string),
  NoDup (dict_keys items) ->
  dict_get String.eqb k (fold_left f items acc)
  = match dict_get String.eqb k items with
    | Some v => Some (g v)
    | None => dict_get String.eqb k acc
    end.
Proof.
  intros Hf.
  induction items as [|[k' v'] items IH]; intros acc k Hnd; simpl; [reflexivity|].
  inversion Hnd as [|? ? Hnotin Hnd']; subst.
  rewrite IH by assumption. rewrite Hf. simpl.
  destruct (String.eqb_spec k k') as [->|Hne].
  - destruct (dict_get String.eqb k' items) eqn:E.
    + exfalso. apply Hnotin.
      apply (dict_get_In_keys String.eqb String.eqb_eq). congruence.
    + apply dict_get_set_eq, String.eqb_eq.
  - destruct (dict_get String.eqb k items); [reflexivity|].
    apply dict_get_set_ne; auto using String.eqb_eq.
Qed.

Lemma simulations_loop_spec (simulations : list (dict Z StepRecord)) :
  forall (successful_escapes : list Q) (unsuccessful_count : Z),
  Statistics.simulations_loop simulations successful_escapes unsuccessful_count
  = (successful_escapes ++
       map (fun run => Statistics.int_average (run_escape_times run))
           (filter has_escape_time simulations),
     (unsuccessful_count +
        Z.of_nat (List.length (filter (fun run => negb (has_escape_time run))
                                      simulations)))%Z).
Proof.
  induction simulations as [|run rest IH]; intros succ cnt;
    cbn [Statistics.simulations_loop filter map List.length].
  - now rewrite app_nil_r, Z.add_0_r.
  - change (Statistics.collect_escape_times (dict_values run))
      with (run_escape_times run).
    destruct (has_escape_time run) eqn:Hh; cbn [negb];
      unfold has_escape_time in Hh;
      destruct (run_escape_times run) as [|t ts] eqn:E; try discriminate.
    + rewrite IH, <- app_assoc. cbn [map app]. now rewrite E.
    + rewrite IH. cbn [List.length]. f_equal. lia.
Qed.

(** The pair [average_escape_time] gives for a walker type, for every
    accumulated data set *)
Lemma average_escape_time_get (stat : Statistics.Statistics) (walker_type : string)
  (simulations : dict Z (dict Z StepRecord)) :
  NoDup (dict_keys (Statistics.__total_dict stat)) ->
  dict_get String.eqb walker_type (Statistics.__total_dict stat) = Some simulations ->
  dict_get String.eqb walker_type (Statistics.average_escape_time stat)
  = Some (average_or_zero
            (map (fun run => Statistics.int_average (run_escape_times run))
                 (filter has_escape_time (dict_values simulations))),
          Z.of_nat (List.length (filter (fun run => negb (has_escape_time run))
                                        (dict_values simulations)))).
Proof.
  intros Hnd Hget. unfold Statistics.average_escape_time.
  rewrite (fold_dict_set_get
             (fun simulations =>
                let (successful_escapes, unsuccessful_count) :=
                  Statistics.simulations_loop (dict_values simulations) [] 0%Z in
                (match successful_escapes with
                 | [] => 0
                 | _ => Statistics.average successful_escapes
                 end, unsuccessful_count))); [| |assumption].
  - rewrite Hget, simulations_loop_spec. reflexivity.
  - intros acc item.
    destruct (Statistics.simulations_loop (dict_values (snd item)) [] 0%Z).
    reflexivity.
Qed.

Lemma collect_escape_times_fields (steps : list StepRecord) :
  Statistics.collect_escape_times steps
  = flat_map (fun o => match o with Some t => [t] | None => [] end)
             (map escape_time steps).
Proof.
  induction steps as [|s rest IH]; simpl; [reflexivity|].
  destruct (escape_time s); simpl; now rewrite IH.
Qed.

Lemma fold_add_repeat (t : Z) (m : nat) (a : Z) :
  fold_left Z.add (repeat t m) a = (a + t * Z.of_nat m)%Z.
Proof.
  revert a. induction m as [|m IH]; intros a.
  - simpl. lia.
  - cbn [repeat fold_left]. rewrite IH. lia.
Qed.

(** The average of [m] copies of an integer is that integer. *)
Lemma int_average_repeat (t : Z) (m : nat) :
  (0 < m)%nat -> Statistics.int_average (repeat t m) == inject_Z t.
Proof.
  intros Hm. unfold Statistics.int_average.
  rewrite fold_add_repeat, repeat_length, Z.add_0_l, inject_Z_mult.
  field. intros H. unfold Qeq in H. simpl in H. lia.
Qed.

Lemma sum_from (l : list Q) (a : Q) : fold_left Qplus l a == a + sum l.
Proof.
  unfold sum. revert a. induction l as [|x l IH]; intros a; simpl.
  - ring.
  - rewrite IH, (IH (0 + x)). ring.
Qed.

Lemma sum_Qeq (l l' : list Q) : Forall2 Qeq l l' -> sum l == sum l'.
Proof.
  induction 1 as [|x y l l' Hxy _ IH]; [reflexivity|].
  unfold sum. simpl. rewrite !sum_from, IH, Hxy. reflexivity.
Qed.

Lemma average_or_zero_Qeq (l l' : list Q) :
  Forall2 Qeq l l' -> average_or_zero l == average_or_zero l'.
Proof.
  intros H. pose proof (Forall2_length H) as Hlen. pose proof (sum_Qeq _ _ H) as Hsum.
  destruct H; [reflexivity|].
  unfold average_or_zero, Statistics.average. now rewrite Hsum, Hlen.
Qed.

(** ** Whole runs *)

Lemma dict_get_set_present {V : Type} (k k' : string) (v : V) (d : dict string V) :
  dict_get String.eqb k d <> None ->
  dict_get String.eqb k (dict_set String.eqb k' v d) <> None.
Proof.
  intros H. destruct (String.eqb_spec k' k) as [->|Hne].
  - rewrite dict_get_set_eq by apply String.eqb_eq. discriminate.
  - rewrite dict_get_set_ne by auto using String.eqb_eq. assumption.
Qed.

Section RunFacts.
Context {math : MathLib} {shapely : Shapely}.




Lemma turns_app (done rest : list (Z * string)) :
  forall (sim sim1 : Simulation) (r r1 : Rng),
  turns done sim r = Ok ((true, sim1), r1) ->
  turns (done ++ rest) sim r = turns rest sim1 r1.
Proof.
  induction done as [|[i name] done IH]; intros sim sim1 r r1 H.
  - apply ret_Ok in H as [H <-]. now injection H as <-.
  - cbn [turns app] in *.
    apply bind_Ok in H as ([ok sim2] & r2 & Hturn & H).
    rewrite (bind_ret_l _ _ _ _ _ Hturn).
    destruct ok; [now apply IH|].
    apply ret_Ok in H as [H _]. discriminate.
Qed.

Lemma turns_app_stop (done rest : list (Z * string)) :
  forall (sim : Simulation) (r : Rng),
  (forall sim1 r1, turns done sim r <> Ok ((true, sim1), r1)) ->
  turns (done ++ rest) sim r = turns done sim r.
Proof.
  induction done as [|[i name] done IH]; intros sim r H.
  - exfalso. apply (H sim r). reflexivity.
  - cbn [turns app] in *. unfold bind in *.
    destruct (walker_turn i sim name r) as [[[ok sim2] r2]|e]; [|reflexivity].
    destruct ok; [|reflexivity]. now apply IH.
Qed.


Lemma bookkeeping_frame (i : Z) (sim sim' : Simulation) (walker_name : string)
  (w w' : Walker) (r r' : Rng) :
  bookkeeping i sim walker_name w r = Ok ((sim', w'), r') ->
  __walkers sim' = __walkers sim /\
  exists table record,
    dict_get String.eqb walker_name (__total_dict sim) = Some table /\
    __total_dict sim' = dict_set String.eqb walker_name
                                 (dict_set Z.eqb i record table) (__total_dict sim).
Proof.
  unfold bookkeeping, Simulation_escape_check. intros H.
  destruct (escape_check w) as [esc w1].
  assert (Hgen : forall sim1,
    __total_dict sim1 = __total_dict sim -> __walkers sim1 = __walkers sim ->
    (sim2 <- cross_y_check sim1 walker_name w1 ;;
     simulation_results_update sim2 walker_name w1 i) r = Ok ((sim', w'), r') ->
    __walkers sim' = __walkers sim /\
    exists table record,
      dict_get String.eqb walker_name (__total_dict sim) = Some table /\
      __total_dict sim' = dict_set String.eqb walker_name
                                   (dict_set Z.eqb i record table) (__total_dict sim)).
  { intros sim1 Ht1 Hw1 H1.
    apply bind_Ok in H1 as (sim2 & r2 & Hcross & H1).
    apply cross_y_check_frame in Hcross as (_ & Ht2 & Hw2).
    unfold simulation_results_update in H1.
    destruct (escape_check w1) as [esc1 w2].
    apply bind_Ok in H1 as (et1 & r3 & _ & H1).
    apply bind_Ok in H1 as (c & r4 & _ & H1).
    apply bind_Ok in H1 as (table1 & r5 & Htable1 & H1).
    apply ret_Ok in H1 as [H1 _]. injection H1 as <- <-.
    apply subscript_Ok in Htable1 as [Htable1 _].
    simpl. split; [congruence|].
    eexists. eexists. split; [rewrite <- Ht1, <- Ht2; exact Htable1|].
    now rewrite Ht2, Ht1. }
  destruct (negb esc); apply Hgen in H; auto.
Qed.

Lemma step_recorded_kept (sim sim' : Simulation) (i j : Z) (name walker_name : string)
  (table : dict Z StepRecord) (record : StepRecord) :
  dict_get String.eqb name (__total_dict sim) = Some table ->
  __total_dict sim' = dict_set String.eqb name (dict_set Z.eqb i record table)
                               (__total_dict sim) ->
  step_recorded sim' i name /\
  (step_recorded sim j walker_name -> step_recorded sim' j walker_name).
Proof.
  intros Htable Htotal. unfold step_recorded. rewrite Htotal. split.
  - exists (dict_set Z.eqb i record table), record.
    split; [apply dict_get_set_eq, String.eqb_eq | apply dict_get_set_eq, Z.eqb_eq].
  - intros (t & rec & Ht & Hrec).
    destruct (String.eqb_spec name walker_name) as [<-|Hne].
    + assert (t = table) by congruence. subst t.
      destruct (Z.eq_dec i j) as [<-|Hij].
      * exists (dict_set Z.eqb i record table), record.
        split; [apply dict_get_set_eq, String.eqb_eq | apply dict_get_set_eq, Z.eqb_eq].
      * exists (dict_set Z.eqb i record table), rec.
        split; [apply dict_get_set_eq, String.eqb_eq|].
        rewrite dict_get_set_ne; auto using Z.eqb_eq.
    + exists t, rec. split; [|assumption].
      rewrite dict_get_set_ne; auto using String.eqb_eq.
Qed.

(** A turn keeps the names of the walkers and the records that are there,
    and a turn that goes through adds the record of its step. *)
Lemma walker_turn_frame (i : Z) (sim sim' : Simulation) (walker_name : string)
  (ok : bool) (r r' : Rng) :
  walker_turn i sim walker_name r = Ok ((ok, sim'), r') ->
  dict_keys (__walkers sim') = dict_keys (__walkers sim) /\
  (forall j name, step_recorded sim j name -> step_recorded sim' j name) /\
  (ok = true -> step_recorded sim' i walker_name).
Proof.
  intros H.
  apply walker_turn_Ok in H as (w1 & r1 & w2 & r2 & Hfirst & Hrest).
  apply first_move_Ok in Hfirst as (w0 & wm & Hget & _ & _).
  assert (Hpresent : dict_get String.eqb walker_name (__walkers sim) <> None)
    by congruence.
  destruct Hrest as [(_ & -> & -> & _)|(_ & -> & sim3 & w3 & Hbook & ->)].
  - unfold store_walker. simpl. split; [now apply dict_set_keys_present|].
    split; [auto | discriminate].
  - apply bookkeeping_frame in Hbook as (Hw & table & record & Htable & Htotal).
    unfold store_walker. simpl. rewrite Hw.
    split; [now apply dict_set_keys_present|].
    split.
    + intros j name Hrec.
      destruct (step_recorded_kept sim sim3 i j walker_name name table record Htable Htotal)
        as [_ Hkeep].
      apply Hkeep in Hrec. exact Hrec.
    + intros _.
      destruct (step_recorded_kept sim sim3 i i walker_name walker_name table record
                  Htable Htotal) as [Hnew _].
      exact Hnew.
Qed.

Lemma turns_frame (sched : list (Z * string)) :
  forall (sim sim' : Simulation) (ok : bool) (r r' : Rng),
  turns sched sim r = Ok ((ok, sim'), r') ->
  dict_keys (__walkers sim') = dict_keys (__walkers sim) /\
  (forall j name, step_recorded sim j name -> step_recorded sim' j name) /\
  (ok = true -> forall j name, In (j, name) sched -> step_recorded sim' j name).
Proof.
  induction sched as [|[i name] sched IH]; intros sim sim' ok r r' H.
  - apply ret_Ok in H as [H _]. injection H as <- <-.
    split; [reflexivity|]. split; [auto | intros _ j name []].
  - cbn [turns] in H.
    apply bind_Ok in H as ([ok1 sim1] & r1 & Hturn & H).
    apply walker_turn_frame in Hturn as (Hk1 & Hkeep1 & Hnew1).
    destruct ok1.
    + apply IH in H as (Hk & Hkeep & Hnew).
      split; [congruence|]. split; [auto|].
      intros Hok j name' [Hin|Hin].
      * injection Hin as <- <-. auto.
      * auto.
    + apply ret_Ok in H as [H _]. injection H as <- <-.
      split; [assumption|]. split; [assumption | discriminate].
Qed.

Lemma walkers_loop_turns (i : Z) (names : list string) :
  forall (sim : Simulation) (r : Rng),
  walkers_loop i names sim r = turns (map (pair i) names) sim r.
Proof.
  induction names as [|name names IH]; intros sim r; [reflexivity|].
  cbn [walkers_loop turns map]. unfold bind.
  destruct (walker_turn i sim name r) as [[[ok sim1] r1]|e]; [|reflexivity].
  destruct ok; [apply IH | reflexivity].
Qed.

Lemma moves_loop_turns (steps : list Z) :
  forall (sim : Simulation) (r : Rng),
  moves_loop steps sim r
  = turns (flat_map (fun i => map (pair i) (dict_keys (__walkers sim))) steps) sim r.
Proof.
  induction steps as [|i steps IH]; intros sim r; [reflexivity|].
  cbn [moves_loop flat_map]. unfold bind at 1. rewrite walkers_loop_turns.
  destruct (turns (map (pair i) (dict_keys (__walkers sim))) sim r)
    as [[[ok sim1] r1]|e] eqn:E.
  - destruct ok.
    + rewrite (turns_app _ _ _ _ _ _ E).
      apply turns_frame in E as (Hk & _). rewrite <- Hk. apply IH.
    + rewrite turns_app_stop; [now rewrite E|].
      intros sim2 r2. rewrite E. discriminate.
  - rewrite turns_app_stop; [now rewrite E|].
    intros sim2 r2. rewrite E. discriminate.
Qed.

(** The two loops of [run_simulation] make the turns of the schedule. *)
Lemma run_simulation_turns (sim : Simulation) (r : Rng) :
  run_simulation sim r = turns (schedule sim) sim r.
Proof. apply moves_loop_turns. Qed.








Lemma gate_loop_type (gates : list EnchantedGate) (walker : Walker) :
  type_ (gate_loop gates walker) = type_ walker.
Proof.
  revert walker. induction gates as [|g gates IH]; intros walker;
    cbn [gate_loop]; [reflexivity|].
  destruct (line_intersects _ _ _); rewrite IH; [|reflexivity].
  cbv zeta. now rewrite refresh_type.
Qed.





End RunFacts.

(** A simulation built by [add_walker] alone is ready, unless it holds a
    DirectionalBiasWalker. *)
Lemma ready_init (num_moves : Z) : ready (Simulation_init num_moves).
Proof. split; [reflexivity | intros name w H; discriminate]. Qed.

Lemma ready_add_walker (sim : Simulation) (walker : Walker) :
  ready sim -> type_ walker <> DirectionalBiasWalker -> ready (add_walker sim walker).
Proof.
  intros [Hnone Hall] Hbias. split; [exact Hnone|].
  intros name w. unfold add_walker.
  cbn [__walkers __crosses_y __escape_times __total_dict].
  set (walker_name := (type_name (type_ walker) ++
         str (next_index (List.length (__walkers sim)) (type_name (type_ walker))
                         (__walkers sim) 1))%string).
  destruct (String.eqb_spec walker_name name) as [<-|Hne].
  - rewrite !dict_get_set_eq by apply String.eqb_eq.
    intros H. injection H as <-. repeat split; (assumption || discriminate).
  - rewrite dict_get_set_ne by auto using String.eqb_eq. intros H.
    destruct (Hall name w H) as (H1 & H2 & H3 & H4).
    repeat split; auto using dict_get_set_present.
Qed.


(** ** The escape flag between two bookkeepings *)

Lemma update_memory_escaped (w : Walker) : escaped (update_memory w) = escaped w.
Proof. unfold update_memory. now destruct (Nat.ltb _ _). Qed.

Lemma refresh_escaped (w : Walker) :
  escaped (if isinstance w MemoryWalker then update_memory w else w) = escaped w.
Proof. destruct (isinstance w MemoryWalker); auto using update_memory_escaped. Qed.

Section EscapeFlag.
Context {math : MathLib} {shapely : Shapely}.

Lemma move_escaped (w w' : Walker) (r r' : Rng) :
  move w r = Ok (w', r') -> escaped w' = escaped w.
Proof.
  intros H. unfold move in H.
  destruct (type_ w).
  - apply ret_Ok in H as [<- _]. reflexivity.
  - unfold UnitWalker_move, uniform in H. inv_rand H. now subst.
  - unfold RandomDistanceWalker_move, uniform in H. inv_rand H. now subst.
  - unfold StraightWalker_move, choice in H. inv_rand H. now subst.
  - unfold DirectionalBiasWalker_move in H. inv_rand H. now subst.
  - unfold MemoryWalker_move in H.
    destruct (possible_moves w); unfold choice in H; inv_rand H; now subst.
Qed.

Lemma interaction_move_escaped (interaction : string) (w nearest : Walker) (d : Q) :
  escaped (interaction_move interaction w nearest d) = escaped w.
Proof.
  unfold interaction_move. cbv zeta.
  destruct (String.eqb interaction "attract"); [now rewrite refresh_escaped|].
  destruct (String.eqb interaction "repel"); [now rewrite refresh_escaped|].
  reflexivity.
Qed.

Lemma choose_move_escaped (sim : Simulation) (walker_name : string)
  (w w' : Walker) (r r' : Rng) :
  choose_move sim walker_name w r = Ok (w', r') -> escaped w' = escaped w.
Proof.
  unfold choose_move. intros H.
  destruct (__walkers_interaction sim) as [interaction|]; [|now apply move_escaped in H].
  apply bind_Ok in H as (nearest & r1 & _ & H).
  apply bind_Ok in H as (prob & r2 & _ & H).
  apply bind_Ok in H as (distance & r3 & _ & H).
  destruct (Qle_bool prob (2 # 10)).
  - apply ret_Ok in H as [<- _]. apply interaction_move_escaped.
  - now apply move_escaped in H.
Qed.

Lemma handle_terrain_escaped (w : Walker) (terrain : option Terrain) :
  escaped (handle_terrain w terrain) = escaped w.
Proof.
  unfold handle_terrain.
  destruct terrain as [[]|]; cbv zeta; now rewrite refresh_escaped.
Qed.

Lemma retry_move_escaped (sim : Simulation) (walker_name : string)
  (w w' : Walker) (r r' : Rng) :
  retry_move sim walker_name w r = Ok (w', r') -> escaped w' = escaped w.
Proof.
  unfold retry_move. intros H.
  apply bind_Ok in H as (wm & rm & Hmove & H).
  apply choose_move_escaped in Hmove.
  destruct (terrain_check sim wm); apply ret_Ok in H as [<- _].
  - now rewrite handle_terrain_escaped.
  - assumption.
Qed.

Lemma collision_loop_escaped (n : nat) (sim : Simulation) (walker_name : string) :
  forall (w w' : Walker) (ok : bool) (r r' : Rng),
  collision_loop n sim walker_name w r = Ok ((ok, w'), r') -> escaped w' = escaped w.
Proof.
  induction n as [|n IH]; intros w w' ok r r' H;
    cbn [collision_loop] in H; destruct (check_collision sim w).
  - apply ret_Ok in H as [H _]. now injection H as _ <-.
  - apply ret_Ok in H as [H _]. now injection H as _ <-.
  - apply bind_Ok in H as (w1 & r1 & Hretry & H).
    apply retry_move_escaped in Hretry. apply IH in H. congruence.
  - apply ret_Ok in H as [H _]. now injection H as _ <-.
Qed.

Lemma gate_loop_escaped (gates : list EnchantedGate) (w : Walker) :
  escaped (gate_loop gates w) = escaped w.
Proof.
  revert w. induction gates as [|g gates IH]; intros w; cbn [gate_loop]; [reflexivity|].
  destruct (line_intersects _ _ _); rewrite IH; [|reflexivity].
  cbv zeta. now rewrite refresh_escaped.
Qed.

Lemma first_move_escaped (sim : Simulation) (walker_name : string)
  (w0 w1 : Walker) (r r1 : Rng) :
  dict_get String.eqb walker_name (__walkers sim) = Some w0 ->
  first_move sim walker_name r = Ok (w1, r1) -> escaped w1 = escaped w0.
Proof.
  intros Hget H.
  apply first_move_Ok in H as (w0' & wm & Hget' & Hmove & ->).
  assert (w0' = w0) by congruence. subst w0'.
  apply choose_move_escaped in Hmove. now rewrite handle_terrain_escaped.
Qed.
End EscapeFlag.

(** ** The records of a run *)

Lemma steps_from_snoc (m : nat) : forall i : Z,
  steps_from i (S m) = steps_from i m ++ [(i + Z.of_nat m)%Z].
Proof.
  induction m as [|m IH]; intros i.
  - simpl. now rewrite Z.add_0_r.
  - change (steps_from i (S (S m))) with (i :: steps_from (i + 1) (S m)).
    rewrite IH. cbn [steps_from app]. do 3 f_equal. lia.
Qed.

Lemma steps_from_lt (m : nat) : forall i : Z,
  Forall (fun k => (k < i + Z.of_nat m)%Z) (steps_from i m).
Proof.
  induction m as [|m IH]; intros i; cbn [steps_from]; constructor.
  - lia.
  - eapply Forall_impl; [|apply IH]. simpl. intros; lia.
Qed.

Lemma steps_from_length (m : nat) : forall i : Z, List.length (steps_from i m) = m.
Proof. induction m as [|m IH]; intros i; simpl; auto. Qed.

Section RunRecords.
Context {math : MathLib} {shapely : Shapely}.

Lemma escape_check_inside (w : Walker) :
  fst (escape_check w) = negb (inside (get_location w) && negb (escaped w)).
Proof.
  unfold escape_check, inside.
  destruct (Qle_bool _ 10 && negb (escaped w)); reflexivity.
Qed.

Lemma escape_fields_snoc (positions : list Point) (p : Point) :
  forall (e : bool) (et : option Z) (i : Z),
  escape_fields e et i (positions ++ [p])
  = escape_fields e et i positions ++
    [if inside p && negb (fst (escape_state e et i positions)) then None
     else snd (escape_state e et i positions)].
Proof.
  induction positions as [|q rest IH]; intros e et i;
    cbn [escape_fields escape_state app].
  - simpl. destruct (inside p && negb e); reflexivity.
  - destruct (inside q && negb e); cbn [app]; now rewrite IH.
Qed.

Lemma escape_state_snoc (positions : list Point) (p : Point) :
  forall (e : bool) (et : option Z) (i : Z),
  escape_state e et i (positions ++ [p])
  = if inside p && negb (fst (escape_state e et i positions))
    then (false, Some (i + Z.of_nat (List.length positions))%Z)
    else (true, snd (escape_state e et i positions)).
Proof.
  induction positions as [|q rest IH]; intros e et i;
    cbn [escape_state app List.length].
  - simpl. now rewrite Z.add_0_r.
  - destruct (inside q && negb e); rewrite IH;
      replace (i + 1 + Z.of_nat (List.length rest))%Z
        with (i + Z.of_nat (S (List.length rest)))%Z by lia; reflexivity.
Qed.

(** What a turn leaves of the entries of the other walkers *)
Lemma bookkeeping_others (i : Z) (sim sim' : Simulation) (walker_name : string)
  (w w' : Walker) (r r' : Rng) :
  bookkeeping i sim walker_name w r = Ok ((sim', w'), r') ->
  forall name, name <> walker_name ->
    dict_get String.eqb name (__escape_times sim')
      = dict_get String.eqb name (__escape_times sim) /\
    dict_get String.eqb name (__total_dict sim')
      = dict_get String.eqb name (__total_dict sim).
Proof.
  intros H name Hne.
  pose proof (bookkeeping_frame _ _ _ _ _ _ _ _ H) as (_ & table & record & _ & Htotal).
  split; [|rewrite Htotal; apply dict_get_set_ne; auto using String.eqb_eq].
  unfold bookkeeping, Simulation_escape_check in H.
  destruct (escape_check w) as [esc w1].
  destruct (negb esc);
    apply bind_Ok in H as (sim2 & r2 & Hcross & H);
    apply cross_y_check_frame in Hcross as (He2 & _ & _);
    unfold simulation_results_update in H;
    destruct (escape_check w1) as [esc1 w2];
    apply bind_Ok in H as (et1 & r3 & _ & H);
    apply bind_Ok in H as (c & r4 & _ & H);
    apply bind_Ok in H as (table1 & r5 & _ & H);
    apply ret_Ok in H as [H _]; injection H as <- <-; simpl; rewrite He2.
  - simpl. apply dict_get_set_ne; auto using String.eqb_eq.
  - reflexivity.
Qed.

Lemma walker_turn_others (i : Z) (sim sim' : Simulation) (walker_name : string)
  (ok : bool) (r r' : Rng) (name : string) (m : nat) :
  walker_turn i sim walker_name r = Ok ((ok, sim'), r') ->
  name <> walker_name ->
  walker_state_ok sim name m -> walker_state_ok sim' name m.
Proof.
  intros H Hne (w & et & table & Hw & Het & Ht & Hrest).
  apply walker_turn_Ok in H as (w1 & r1 & w2 & r2 & _ & Hcases).
  exists w, et, table.
  destruct Hcases as [(_ & _ & -> & _)|(_ & _ & sim3 & w3 & Hbook & ->)];
    unfold store_walker; simpl.
  - rewrite dict_get_set_ne by auto using String.eqb_eq. auto.
  - pose proof (bookkeeping_frame _ _ _ _ _ _ _ _ Hbook) as (Hwalkers & _).
    destruct (bookkeeping_others _ _ _ _ _ _ _ _ Hbook name Hne) as [He Htot].
    rewrite dict_get_set_ne by auto using String.eqb_eq.
    rewrite Hwalkers, He, Htot. auto.
Qed.

(** The turn of a walker that goes through adds the record of the step to
    its table and keeps the table, the flag and the escape time in line
    with the recorded positions. *)
Lemma walker_turn_own (m : nat) (sim sim' : Simulation) (walker_name : string)
  (r r' : Rng) :
  walker_turn (1 + Z.of_nat m) sim walker_name r = Ok ((true, sim'), r') ->
  walker_state_ok sim walker_name m -> walker_state_ok sim' walker_name (S m).
Proof.
  intros H (w & et & table & Hw & Het & Ht & Hkeys & Hfields & Hstate).
  apply walker_turn_Ok in H as (w1 & r1 & w2 & r2 & Hfirst & Hcases).
  destruct Hcases as [(_ & Hok & _)|(Hloop & _ & sim3 & w3 & Hbook & ->)];
    [discriminate|].
  pose proof (first_move_escaped _ _ _ _ _ _ Hw Hfirst) as He1.
  apply collision_loop_escaped in Hloop.
  set (wg := gate_check sim (if isinstance w2 MemoryWalker then update_memory w2 else w2))
    in *.
  assert (Heg : escaped wg = escaped w).
  { unfold wg, gate_check. rewrite gate_loop_escaped, refresh_escaped. congruence. }
  destruct (bookkeeping_escape _ _ _ _ _ _ _ _ _ _ Hbook Ht Het)
    as (Hflag & Het3 & record & Htable3 & Hfield & Hloc).
  rewrite escape_check_inside, Heg in *.
  assert (Hlt : Forall (fun k => (k < 1 + Z.of_nat m)%Z) (dict_keys table)).
  { rewrite Hkeys. apply steps_from_lt. }
  rewrite (dict_set_append _ _ _ Hlt) in Htable3.
  assert (Hlen : List.length (trace table) = m).
  { unfold trace, dict_values. rewrite !length_map.
    rewrite <- (length_map fst). fold (dict_keys table).
    rewrite Hkeys. apply steps_from_length. }
  exists w3, (if negb (inside (get_location wg) && negb (escaped w)) then et
              else Some (1 + Z.of_nat m)%Z), (table ++ [(1 + Z.of_nat m, record)])%Z.
  unfold store_walker. cbn [__walkers __escape_times __total_dict set_walkers].
  split; [apply dict_get_set_eq, String.eqb_eq|].
  split; [exact Het3|]. split; [exact Htable3|].
  assert (Htrace : trace (table ++ [((1 + Z.of_nat m)%Z, record)])
                   = trace table ++ [get_location wg]).
  { unfold trace, dict_values. rewrite !map_app. simpl. now rewrite Hloc. }
  rewrite Htrace, escape_fields_snoc, escape_state_snoc, <- Hstate, Hlen.
  cbn [fst snd].
  split; [|split].
  - unfold dict_keys. rewrite map_app. fold (dict_keys table).
    rewrite Hkeys, steps_from_snoc. reflexivity.
  - unfold dict_values. rewrite !map_app. fold (dict_values table).
    rewrite Hfields. simpl. rewrite Hfield.
    destruct (inside (get_location wg) && negb (escaped w)); reflexivity.
  - rewrite Hflag.
    destruct (inside (get_location wg) && negb (escaped w)); reflexivity.
Qed.

(** The turns of one step, for walkers with distinct names *)
Lemma step_turns_states (m : nat) (todo : list string) :
  forall (sim sim' : Simulation) (r r' : Rng),
  NoDup todo ->
  turns (map (pair (1 + Z.of_nat m)%Z) todo) sim r = Ok ((true, sim'), r') ->
  (forall name, In name todo -> walker_state_ok sim name m) ->
  (forall name, In name todo -> walker_state_ok sim' name (S m)) /\
  (forall name k, ~ In name todo ->
     walker_state_ok sim name k -> walker_state_ok sim' name k).
Proof.
  induction todo as [|name todo IH]; intros sim sim' r r' Hnd H Hpre.
  - apply ret_Ok in H as [H _]. injection H as <-.
    split; [intros name [] | auto].
  - inversion Hnd as [|? ? Hnotin Hnd']; subst.
    cbn [map turns] in H.
    apply bind_Ok in H as ([ok sim1] & r1 & Hturn & H).
    destruct ok; [|apply ret_Ok in H as [H _]; discriminate].
    pose proof (walker_turn_own _ _ _ _ _ _ Hturn (Hpre name (or_introl eq_refl))) as Hown.
    destruct (IH sim1 sim' r1 r' Hnd' H) as [Hdone Hframe].
    { intros n Hn. apply (walker_turn_others _ _ _ _ _ _ _ n m Hturn).
      - intros ->. contradiction.
      - apply Hpre. now right. }
    split.
    + intros n [<-|Hn]; [apply Hframe; assumption | apply Hdone, Hn].
    + intros n k Hn Hk. apply Hframe; [intros Hin; apply Hn; now right|].
      apply (walker_turn_others _ _ _ _ _ _ _ n k Hturn); [|assumption].
      intros ->. apply Hn. now left.
Qed.

Lemma moves_loop_states (n : nat) :
  forall (m : nat) (sim sim' : Simulation) (r r' : Rng),
  NoDup (dict_keys (__walkers sim)) ->
  moves_loop (steps_from (1 + Z.of_nat m) n) sim r = Ok ((true, sim'), r') ->
  (forall name, In name (dict_keys (__walkers sim)) -> walker_state_ok sim name m) ->
  forall name, In name (dict_keys (__walkers sim)) ->
    walker_state_ok sim' name (m + n).
Proof.
  induction n as [|n IH]; intros m sim sim' r r' Hnd H Hpre name Hname.
  - apply ret_Ok in H as [H _]. injection H as <-.
    rewrite Nat.add_0_r. auto.
  - cbn [steps_from moves_loop] in H.
    apply bind_Ok in H as ([ok sim1] & r1 & Hstep & H).
    destruct ok; [|apply ret_Ok in H as [H _]; discriminate].
    rewrite walkers_loop_turns in Hstep.
    pose proof (turns_frame _ _ _ _ _ _ Hstep) as (Hkeys & _).
    destruct (step_turns_states m _ _ _ _ _ Hnd Hstep Hpre) as [Hdone _].
    replace (1 + Z.of_nat m + 1)%Z with (1 + Z.of_nat (S m))%Z in H by lia.
    replace (m + S n)%nat with (S m + n)%nat by lia.
    apply (IH (S m) sim1 sim' r1 r'); rewrite ?Hkeys; auto.
Qed.

(** The tables of a run that went through *)
Lemma run_simulation_states (sim sim' : Simulation) (r r' : Rng) :
  before_run sim ->
  run_simulation sim r = Ok ((true, sim'), r') ->
  forall name, In name (dict_keys (__walkers sim)) ->
    walker_state_ok sim' name (Z.to_nat (__num_moves sim)).
Proof.
  intros [Hnd Hfresh] H name Hname.
  unfold run_simulation, range1 in H.
  rewrite <- (steps_from_seq 1) in H.
  apply (moves_loop_states _ 0 sim sim' r r' Hnd H); [|assumption].
  intros n Hn.
  apply (dict_get_In_keys String.eqb String.eqb_eq) in Hn.
  destruct (dict_get String.eqb n (__walkers sim)) as [w|] eqn:Hw; [|congruence].
  destruct (Hfresh n w Hw) as (He & Het & Ht).
  exists w, None, []. rewrite He. repeat split; auto.
Qed.
End RunRecords.

(** ** Simulations before a run *)

Lemma before_run_init (num_moves : Z) : before_run (Simulation_init num_moves).
Proof. split; [constructor | intros name w H; discriminate]. Qed.

Lemma before_run_add_walker (sim : Simulation) (walker : Walker) :
  before_run sim -> escaped walker = false -> before_run (add_walker sim walker).
Proof.
  intros [Hnd Hfresh] Hesc.
  destruct (next_index_fresh (type_name (type_ walker)) (__walkers sim)) as (Hnew & _).
  set (walker_name := (type_name (type_ walker) ++
         str (next_index (List.length (__walkers sim)) (type_name (type_ walker))
                         (__walkers sim) 1))%string) in *.
  split.
  - unfold add_walker. cbn [__walkers]. fold walker_name.
    rewrite (dict_set_keys_fresh String.eqb walker_name walker _ Hnew).
    apply NoDup_app; [assumption | repeat constructor; intros [] |].
    intros k Hk [<-|[]].
    apply (dict_mem_In_keys String.eqb String.eqb_eq) in Hk. congruence.
  - intros name w. unfold add_walker.
    cbn [__walkers __escape_times __total_dict]. fold walker_name.
    destruct (String.eqb_spec walker_name name) as [<-|Hne].
    + rewrite !dict_get_set_eq by apply String.eqb_eq.
      intros H. injection H as <-. auto.
    + rewrite !dict_get_set_ne by auto using String.eqb_eq. apply Hfresh.
Qed.

Lemma dict_get_map_values {V W : Type} (f : V -> W) (k : string) (d : dict string V) :
  dict_get String.eqb k (map (fun kv => (fst kv, f (snd kv))) d)
  = option_map f (dict_get String.eqb k d).
Proof.
  induction d as [|[k' v] d IH]; simpl; [reflexivity|].
  destruct (String.eqb k k'); [reflexivity | exact IH].
Qed.

Lemma before_run_reset (sim : Simulation) :
  NoDup (dict_keys (__walkers sim)) -> before_run (reset sim).
Proof.
  intros Hnd. split.
  - unfold reset, dict_keys. cbn [__walkers]. rewrite map_map. exact Hnd.
  - intros name w. unfold reset. cbn [__walkers __escape_times __total_dict].
    rewrite (dict_get_map_values reset_walker),
      (dict_get_map_values (fun _ : Walker => @None Z)),
      (dict_get_map_values (fun _ : Walker => @nil (Z * StepRecord))).
    destruct (dict_get String.eqb name (__walkers sim)) as [w0|]; [|discriminate].
    simpl. intros H. injection H as <-. repeat split.
    unfold reset_walker. destruct (isinstance w0 MemoryWalker); reflexivity.
Qed.

Section RunEscapeRecords.
Context {math : MathLib} {shapely : Shapely}.

Lemma trace_length (table : dict Z StepRecord) :
  List.length (trace table) = List.length table.
Proof. unfold trace, dict_values. now rewrite !length_map. Qed.

(** C2, as the code has it.  In a run that went through, the table of
    every walker holds the records of the steps 1 .. N in order; the
    'escape time' field is None in the records of the steps at which the
    walker has not escaped yet (the recorded positions are within the
    radius up to that step), and in every later record it is the escape
    time of the walker: the index of the last step at which it had not
    escaped (None when it was outside the radius from the first step
    on). *)
Theorem escape_time_field_of_records (sim sim' : Simulation) (r r' : Rng)
  (walker_name : string) :
  before_run sim ->
  run_simulation sim r = Ok ((true, sim'), r') ->
  In walker_name (dict_keys (__walkers sim)) ->
  exists records,
    dict_get String.eqb walker_name (__total_dict sim') = Some records /\
    dict_keys records = range1 (__num_moves sim) /\
    map escape_time (dict_values records)
    = repeat None (pre_escape_steps (trace records)) ++
      repeat (if Nat.eqb (pre_escape_steps (trace records)) 0 then None
              else Some (Z.of_nat (pre_escape_steps (trace records))))
             (List.length records - pre_escape_steps (trace records)).
Proof.
  intros Hbefore Hrun Hname.
  destruct (run_simulation_states sim sim' r r' Hbefore Hrun walker_name Hname)
    as (w & et & table & _ & _ & Htable & Hkeys & Hfields & _).
  exists table. split; [exact Htable|]. split.
  - rewrite Hkeys. unfold range1. apply (steps_from_seq 1).
  - rewrite Hfields, escape_fields_closed, trace_length.
    destruct (pre_escape_steps (trace table)) as [|k]; [reflexivity|].
    cbn [Nat.eqb]. do 3 f_equal. lia.
Qed.
End RunEscapeRecords.

Lemma before_run_straight_sim : before_run straight_sim.
Proof. apply before_run_add_walker; [apply before_run_init | reflexivity]. Qed.

Lemma before_run_short_sim : before_run short_sim.
Proof. apply before_run_add_walker; [apply before_run_init | reflexivity]. Qed.

(** The run of twelve steps of a StraightWalker that walks straight down:
    the fields are None for the steps 1 .. 10 and 10 for the steps 11 and
    12. *)
Lemma escape_time_field_of_records_witness :
  exists sim' r' records,
    @run_simulation rational_math box_shapely straight_sim (constant_rng 0)
      = Ok ((true, sim'), r') /\
    dict_get String.eqb "StraightWalker1"%string (__total_dict sim') = Some records /\
    dict_keys records = [1; 2; 3; 4; 5; 6; 7; 8; 9; 10; 11; 12]%Z /\
    map escape_time (dict_values records)
    = [None; None; None; None; None; None; None; None; None; None;
       Some 10%Z; Some 10%Z].
Proof.
  let v := eval vm_compute in
    (@run_simulation rational_math box_shapely straight_sim (constant_rng 0)) in
  match v with
  | Ok ((true, ?s), ?r) =>
      assert (E : @run_simulation rational_math box_shapely straight_sim (constant_rng 0)
                  = Ok ((true, s), r)) by (vm_compute; reflexivity);
      destruct (@escape_time_field_of_records rational_math box_shapely
                  straight_sim s (constant_rng 0) r "StraightWalker1"
                  before_run_straight_sim E (or_introl eq_refl))
        as (records & H1 & H2 & H3);
      exists s, r, records;
      split; [exact E|]; split; [exact H1|];
      vm_compute in H1; injection H1 as <-;
      split; [exact H2 | exact H3]
  end.
Defined.

(** C2, as the specification words it, fails at both ends of a run of
    twelve steps of a StraightWalker that walks straight down.  After the
    first turn the walker has not escaped and its escape time is 1, and
    the field of record 1 is None.  After the run the walker has escaped,
    its escape time is 10, and the field of record 12 is 10. *)
Lemma escape_time_field_is_not_as_specified :
  match @walker_turn rational_math box_shapely 1 straight_sim "StraightWalker1"
          (constant_rng 0) with
  | Ok ((_, sim'), _) =>
      match dict_get String.eqb "StraightWalker1"%string (__walkers sim'),
            dict_get String.eqb "StraightWalker1"%string (__escape_times sim'),
            dict_get String.eqb "StraightWalker1"%string (__total_dict sim') with
      | Some w, Some current, Some table =>
          match dict_get Z.eqb 1%Z table with
          | Some record =>
              escaped w = false /\ current = Some 1%Z /\
              escape_time record <> spec_escape_field (escaped w) current
          | None => False
          end
      | _, _, _ => False
      end
  | Err _ => False
  end /\
  match @run_simulation rational_math box_shapely straight_sim (constant_rng 0) with
  | Ok ((_, sim'), _) =>
      match dict_get String.eqb "StraightWalker1"%string (__walkers sim'),
            dict_get String.eqb "StraightWalker1"%string (__escape_times sim'),
            dict_get String.eqb "StraightWalker1"%string (__total_dict sim') with
      | Some w, Some current, Some table =>
          match dict_get Z.eqb 12%Z table with
          | Some record =>
              escaped w = true /\ current = Some 10%Z /\
              escape_time record <> spec_escape_field (escaped w) current
          | None => False
          end
      | _, _, _ => False
      end
  | Err _ => False
  end.
Proof. vm_compute. repeat split; discriminate. Qed.

(** ** The average escape time of recorded runs *)

Section RecordedRunFacts.
Context {math : MathLib} {shapely : Shapely}.

(** The escape times a recorded run holds: one copy of the index of the
    last pre-escape step for every step after it. *)
Lemma recorded_escape_times (run : dict Z StepRecord) :
  recorded run ->
  starts_inside (trace run) ->
  run_escape_times run
  = repeat (Z.of_nat (pre_escape_steps (trace run)))
           (List.length (trace run) - pre_escape_steps (trace run)).
Proof.
  intros (sim & sim' & r & r' & name & Hbefore & Hrun & Hname & Htable) Hin.
  destruct (run_simulation_states sim sim' r r' Hbefore Hrun name Hname)
    as (w & et & table & _ & _ & Htable' & _ & Hfields & _).
  assert (table = run) by congruence. subst table.
  unfold run_escape_times.
  rewrite collect_escape_times_fields, Hfields, escape_fields_closed.
  destruct (trace run) as [|p rest]; [reflexivity|].
  simpl in Hin. cbn [pre_escape_steps]. rewrite Hin.
  rewrite flat_map_app.
  replace (flat_map _ (repeat None _)) with (@nil Z).
  - cbn [app]. generalize (List.length (p :: rest) - S (pre_escape_steps rest))%nat.
    intros m. induction m as [|m IH]; [reflexivity|].
    cbn [repeat flat_map app]. rewrite IH. do 2 f_equal. lia.
  - generalize (S (pre_escape_steps rest)). intros m.
    induction m as [|m IH]; [reflexivity | exact IH].
Qed.

Lemma recorded_has_escape_time (run : dict Z StepRecord) :
  recorded run ->
  starts_inside (trace run) ->
  has_escape_time run = escapes (trace run).
Proof.
  intros Hrec Hin. unfold has_escape_time, escapes.
  rewrite (recorded_escape_times _ Hrec Hin).
  pose proof (pre_escape_steps_le (trace run)) as Hle.
  destruct (Nat.ltb_spec (pre_escape_steps (trace run)) (List.length (trace run)))
    as [Hlt|Hge].
  - destruct (List.length (trace run) - pre_escape_steps (trace run))%nat eqn:E;
      [lia | reflexivity].
  - replace (List.length (trace run) - pre_escape_steps (trace run))%nat with O by lia.
    reflexivity.
Qed.

Lemma recorded_contribution (run : dict Z StepRecord) :
  recorded run ->
  starts_inside (trace run) ->
  escapes (trace run) = true ->
  Statistics.int_average (run_escape_times run)
  == inject_Z (Z.of_nat (pre_escape_steps (trace run))).
Proof.
  intros Hrec Hin Hesc. rewrite (recorded_escape_times _ Hrec Hin).
  apply int_average_repeat. unfold escapes in Hesc.
  apply Nat.ltb_lt in Hesc. lia.
Qed.

(** C3, as the code has it.  For a walker type whose accumulated runs are
    tables of runs that went through, of walkers that are within the
    radius after their first step, [average_escape_time] gives the pair
    of (a) the average, over the runs in which the walker escaped, of the
    escape time of the run, the index of its last pre-escape step (0 when
    the walker escaped in no run), and (b) the count of the runs in which
    it never escaped. *)
Theorem average_escape_time_of_recorded_runs (stat : Statistics.Statistics)
  (walker_type : string) (simulations : dict Z (dict Z StepRecord)) :
  NoDup (dict_keys (Statistics.__total_dict stat)) ->
  dict_get String.eqb walker_type (Statistics.__total_dict stat) = Some simulations ->
  Forall recorded (dict_values simulations) ->
  Forall (fun run => starts_inside (trace run)) (dict_values simulations) ->
  exists (a : Q) (c : Z),
    dict_get String.eqb walker_type (Statistics.average_escape_time stat) = Some (a, c) /\
    a == average_or_zero
           (map (fun run => inject_Z (Z.of_nat (pre_escape_steps (trace run))))
                (filter (fun run => escapes (trace run)) (dict_values simulations))) /\
    c = Z.of_nat (List.length (filter (fun run => negb (escapes (trace run)))
                                      (dict_values simulations))).
Proof.
  intros Hnd Hget Hrec Hin.
  eexists. eexists. split; [apply average_escape_time_get; eassumption|].
  generalize dependent (dict_values simulations). clear Hget simulations.
  intros runs Hrec Hin.
  assert (H : Forall2 Qeq
                (map (fun run => Statistics.int_average (run_escape_times run))
                     (filter has_escape_time runs))
                (map (fun run => inject_Z (Z.of_nat (pre_escape_steps (trace run))))
                     (filter (fun run => escapes (trace run)) runs)) /\
              List.length (filter (fun run => negb (has_escape_time run)) runs)
              = List.length (filter (fun run => negb (escapes (trace run))) runs)).
  { induction runs as [|run runs IH]; [split; constructor|].
    inversion Hrec as [|? ? Hr Hrec']; subst.
    inversion Hin as [|? ? Hp Hin']; subst.
    destruct (IH Hrec' Hin') as [IH1 IH2].
    cbn [filter]. rewrite (recorded_has_escape_time _ Hr Hp).
    destruct (escapes (trace run)) eqn:E; cbn [negb map List.length].
    - split; [|assumption]. constructor; [|assumption].
      now apply recorded_contribution.
    - split; [assumption|]. now rewrite IH2. }
  destruct H as [H1 H2]. split.
  - now apply average_or_zero_Qeq.
  - now rewrite H2.
Qed.
End RecordedRunFacts.

(** The table of a walker in a concrete run that went through is a
    recorded run. *)
Lemma completed_recorded (sim : Simulation) (walker_name : string)
  (run : dict Z StepRecord) :
  before_run sim ->
  (exists sim' r', @run_simulation rational_math box_shapely sim (constant_rng 0)
                   = Ok ((true, sim'), r')) ->
  In walker_name (dict_keys (__walkers sim)) ->
  dict_get String.eqb walker_name (__total_dict (completed sim)) = Some run ->
  @recorded rational_math box_shapely run.
Proof.
  intros Hbefore (sim' & r' & Hrun) Hname Htable.
  unfold completed in Htable. rewrite Hrun in Htable.
  exists sim, sim', (constant_rng 0), r', walker_name. auto.
Qed.

(** Two accumulated runs, one with the escape time 10 and one without
    escape: the pair is the average 10 and the count 1. *)
Lemma average_escape_time_of_recorded_runs_witness :
  exists (a : Q) (c : Z),
    dict_get String.eqb "StraightWalker1"%string
             (Statistics.average_escape_time two_runs_stat) = Some (a, c) /\
    a == 10 /\ c = 1%Z.
Proof.
  assert (E12 : exists sim' r',
             @run_simulation rational_math box_shapely straight_sim (constant_rng 0)
             = Ok ((true, sim'), r')).
  { let v := eval vm_compute in
      (@run_simulation rational_math box_shapely straight_sim (constant_rng 0)) in
    match v with
    | Ok ((true, ?s), ?r) => exists s, r; vm_compute; reflexivity
    end. }
  assert (E5 : exists sim' r',
             @run_simulation rational_math box_shapely short_sim (constant_rng 0)
             = Ok ((true, sim'), r')).
  { let v := eval vm_compute in
      (@run_simulation rational_math box_shapely short_sim (constant_rng 0)) in
    match v with
    | Ok ((true, ?s), ?r) => exists s, r; vm_compute; reflexivity
    end. }
  let runs := eval vm_compute in
    (dict_get String.eqb "StraightWalker1"%string (Statistics.__total_dict two_runs_stat)) in
  match runs with
  | Some ?simulations =>
      destruct (@average_escape_time_of_recorded_runs rational_math box_shapely
                  two_runs_stat "StraightWalker1" simulations)
        as (a & c & H1 & H2 & H3);
      [ vm_compute; repeat constructor; intros []
      | vm_compute; reflexivity
      | repeat constructor;
        [ apply (completed_recorded straight_sim "StraightWalker1");
          [apply before_run_straight_sim | exact E12 | left; reflexivity
          | vm_compute; reflexivity]
        | apply (completed_recorded short_sim "StraightWalker1");
          [apply before_run_short_sim | exact E5 | left; reflexivity
          | vm_compute; reflexivity] ]
      | repeat constructor; vm_compute; reflexivity
      | exists a, c; split; [exact H1|]; split; [|exact H3];
        rewrite H2; vm_compute; reflexivity ]
  end.
Defined.

(** C3, as the specification words it, fails on the run of twelve steps
    of a StraightWalker that walks straight down and leaves the radius at
    step 11: the pre-escape steps are 1 .. 10, their average is 11/2, and
    [average_escape_time] gives 10. *)
Lemma average_escape_time_is_not_as_specified :
  match @run_simulation rational_math box_shapely straight_sim (constant_rng 0) with
  | Ok ((true, sim'), _) =>
      let stat := export_to_statistics sim' Statistics.init 1 in
      match dict_get String.eqb "StraightWalker1"%string
                     (Statistics.average_escape_time stat),
            dict_get String.eqb "StraightWalker1"%string
                     (Statistics.__total_dict stat) with
      | Some (a, c), Some simulations =>
          a == 10 /\
          fst (spec_average_escape_time (dict_values simulations)) == 11 # 2 /\
          ~ a == fst (spec_average_escape_time (dict_values simulations))
      | _, _ => False
      end
  | _ => False
  end.
Proof. vm_compute. repeat split; discriminate. Qed.

(** * Further properties of the code *)

(** ** The weights of a DirectionalBiasWalker *)

Lemma sum_map_div (total : Q) (l : list Q) :
  sum (map (fun w => w / total) l) == sum l / total.
Proof.
  unfold sum. assert (H : forall a b, a == b / total ->
    fold_left Qplus (map (fun w => w / total) l) a == fold_left Qplus l b / total).
  { induction l as [|x l IH]; intros a b Hab; simpl; [exact Hab|].
    apply IH. rewrite Hab. unfold Qdiv. ring. }
  apply H. unfold Qdiv. ring.
Qed.

Lemma Forall2_map_div (total : Q) (l : list Q) :
  Forall2 (fun w q => q == w / total) l (map (fun w => w / total) l).
Proof. induction l as [|w l IH]; constructor; [reflexivity | exact IH]. Qed.

(** X1. [normalize_weights] returns the empty list as it is, raises
    ZeroDivisionError on weights that are there and sum to zero, and
    otherwise returns as many weights, each the given one divided by the
    total, which sum to one. *)
Theorem normalize_weights_sums_to_one (weights : list Q) :
  normalize_weights [] = Some [] /\
  (weights <> [] -> sum weights == 0 -> normalize_weights weights = None) /\
  (~ sum weights == 0 ->
   exists p, normalize_weights weights = Some p /\
             List.length p = List.length weights /\
             Forall2 (fun w q => q == w / sum weights) weights p /\
             sum p == 1).
Proof.
  split; [reflexivity|]. split.
  - intros Hne Hzero. unfold normalize_weights.
    destruct (Qeq_bool (sum weights) 1) eqn:Hone.
    + apply Qeq_bool_eq in Hone. rewrite Hzero in Hone. discriminate.
    + cbn [negb]. destruct weights as [|w ws]; [congruence|].
      apply Qeq_eq_bool in Hzero. now rewrite Hzero.
  - intros Hnz. unfold normalize_weights.
    destruct (Qeq_bool (sum weights) 1) eqn:Hone; cbn [negb].
    + apply Qeq_bool_eq in Hone. exists weights.
      split; [reflexivity|]. split; [reflexivity|]. split; [|exact Hone].
      clear Hnz. revert Hone. generalize (sum weights). intros t Ht.
      induction weights as [|w ws IH]; [constructor|].
      constructor; [|exact IH]. rewrite Ht. field.
    + destruct weights as [|w ws]; [exfalso; apply Hnz; reflexivity|].
      destruct (Qeq_bool (sum (w :: ws)) 0) eqn:Hz.
      * apply Qeq_bool_eq in Hz. contradiction.
      * eexists. split; [reflexivity|]. split; [apply length_map|]. split.
        -- apply Forall2_map_div.
        -- rewrite sum_map_div. field. exact Hnz.
Qed.





Section BiasFacts.
Context {math : MathLib}.


End BiasFacts.

(** ** The moves of a MemoryWalker *)

Lemma choice_In {A} (dflt : A) (seq : list A) (r : Rng) :
  seq <> [] ->
  exists a r', choice dflt seq r = Ok (a, r') /\ In a seq.
Proof.
  intros Hne. unfold choice, bind, random, ret.
  eexists. eexists. split; [reflexivity|].
  apply nth_In. destruct seq; [congruence|]. simpl. lia.
Qed.

(** X3. [MemoryWalker.move] always returns, with the position it left as
    the previous one.  While a neighbouring cell is not in the memory the
    walker steps onto such a cell, one of [possible_moves], and appends it
    to the memory; when the four neighbours are all remembered it steps in
    one of the four directions and the memory stays as it is. *)
Theorem MemoryWalker_move_avoids_memory (w : Walker) (r : Rng) :
  exists w' r',
    MemoryWalker_move w r = Ok (w', r') /\
    get_prev_location w' = get_location w /\
    (possible_moves w <> [] ->
     In (get_location w') (possible_moves w) /\
     in_memory (get_location w') (__memory w) = false /\
     __memory w' = __memory w ++ [get_location w']) /\
    (possible_moves w = [] ->
     __memory w' = __memory w /\
     exists d, In d directions /\
               get_location w' = (_x w + fst d, _y w + snd d)).
Proof.
  unfold MemoryWalker_move.
  destruct (possible_moves w) as [|p ps] eqn:Hp.
  - destruct (choice_In (0, 0) directions r) as (d & r' & Hc & Hd); [discriminate|].
    unfold bind. rewrite Hc. eexists. eexists.
    split; [reflexivity|]. split; [reflexivity|].
    split; [congruence|]. intros _. split; [reflexivity|].
    exists d. split; [exact Hd | reflexivity].
  - rewrite <- Hp.
    destruct (choice_In (0, 0) (possible_moves w) r) as (d & r' & Hc & Hd);
      [congruence|].
    unfold bind. rewrite Hc. eexists. eexists.
    split; [reflexivity|]. split; [reflexivity|].
    split; [|congruence]. intros _.
    unfold get_location, set_memory, set_position.
    cbn [_x _y __memory]. rewrite <- surjective_pairing.
    split; [exact Hd|]. split; [|reflexivity].
    unfold possible_moves in Hd. apply filter_In in Hd as [_ Hd].
    now apply negb_true_iff in Hd.
Qed.

(** ** A move and its retreat *)

Section RetreatFacts.
Context {math : MathLib}.

(** X4. [move_back] after a [move] of one of the five variants puts the
    walker back where the move started, the previous position being that
    place too; the memory of a MemoryWalker that had a free neighbour is
    not taken back: it keeps the cell the walker retreated from. *)
Theorem move_back_undoes_move (w w' : Walker) (r r' : Rng) :
  type_ w <> BaseWalker ->
  move w r = Ok (w', r') ->
  get_location (move_back w') = get_location w /\
  get_prev_location (move_back w') = get_location w /\
  (type_ w = MemoryWalker -> possible_moves w <> [] ->
   __memory (move_back w') = __memory w ++ [get_location w']).
Proof.
  intros Hbase H.
  destruct (move_snapshots w w' r r' Hbase H) as [Hprev _].
  unfold move_back, get_location, get_prev_location, set_position in *.
  cbn [_x _y _prev_x _prev_y __memory fst snd].
  injection Hprev as Hx Hy.
  rewrite Hx, Hy. split; [reflexivity|]. split; [reflexivity|].
  intros Ht Hfree. unfold move in H. rewrite Ht in H.
  unfold MemoryWalker_move in H.
  destruct (possible_moves w) as [|p ps]; [congruence|].
  apply bind_Ok in H as (d & r1 & _ & H).
  apply ret_Ok in H as [<- _]. reflexivity.
Qed.
End RetreatFacts.

(** ** The nearest walker *)

Section NearestFacts.
Context {math : MathLib} {shapely : Shapely}.




(** X6. With an interaction set and a single walker, [run_simulation]
    raises ValueError in the first turn of a budget of at least one
    step. *)
Theorem lone_walker_cannot_interact (sim : Simulation) (walker_name : string)
  (walker : Walker) (interaction : string) (r : Rng) :
  __walkers sim = [(walker_name, walker)] ->
  __walkers_interaction sim = Some interaction ->
  (1 <= __num_moves sim)%Z ->
  run_simulation sim r = Err ValueError.
Proof.
  intros Hws Hint Hn. unfold run_simulation, range1.
  destruct (Z.to_nat (__num_moves sim)) as [|n] eqn:E; [lia|].
  cbn [seq map moves_loop]. rewrite Hws. cbn [dict_keys map fst walkers_loop].
  unfold walker_turn, first_move, bind. rewrite Hws. cbn [dict_get].
  rewrite String.eqb_refl. cbn [subscript ret].
  unfold choose_move, bind. rewrite Hint.
  unfold locate_nearest_walker. rewrite Hws. cbn [nearest_loop].
  rewrite String.eqb_refl. reflexivity.
Qed.
End NearestFacts.

Lemma lone_walker_cannot_interact_witness :
  @run_simulation rational_math box_shapely lone_attract_sim (constant_rng 0)
  = Err ValueError.
Proof.
  apply (@lone_walker_cannot_interact rational_math box_shapely lone_attract_sim
           "StraightWalker1" (Walker_init StraightWalker) "attract").
  - vm_compute. reflexivity.
  - reflexivity.
  - vm_compute. discriminate.
Defined.

(** ** The end of the collision loop *)

Section CollisionFacts.
Context {math : MathLib} {shapely : Shapely}.

(** X7. When the collision loop returns, its flag tells whether the last
    segment of the walker is clear of the obstacles: the loop ends with
    True on a segment that meets no obstacle, and gives up with False on
    one that meets an obstacle.  Without obstacles it returns at once,
    with the walker and the random source as they were. *)
Theorem collision_loop_ends_clear (n : nat) (sim : Simulation) (walker_name : string)
  (w w' : Walker) (ok : bool) (r r' : Rng) :
  collision_loop n sim walker_name w r = Ok ((ok, w'), r') ->
  check_collision sim w' = negb ok /\
  (__obstacles sim = [] -> ok = true /\ w' = w /\ r' = r).
Proof.
  revert w r. induction n as [|n IH]; intros w r H; cbn [collision_loop] in H.
  - destruct (check_collision sim w) eqn:Hc;
      apply ret_Ok in H as [H <-]; injection H as <- <-.
    + split; [exact Hc|]. intros Hno. unfold check_collision in Hc.
      rewrite Hno in Hc. discriminate.
    + split; [exact Hc | auto].
  - destruct (check_collision sim w) eqn:Hc.
    + apply bind_Ok in H as (w1 & r1 & _ & H).
      apply IH in H as [Hend _]. split; [exact Hend|].
      intros Hno. unfold check_collision in Hc. rewrite Hno in Hc. discriminate.
    + apply ret_Ok in H as [H <-]. injection H as <- <-.
      split; [exact Hc | auto].
Qed.
End CollisionFacts.

Lemma collision_loop_ends_clear_witness :
  @check_collision box_shapely straight_sim (Walker_init StraightWalker) = negb true /\
  (__obstacles straight_sim = [] ->
   true = true /\ Walker_init StraightWalker = Walker_init StraightWalker /\
   constant_rng 0 = constant_rng 0).
Proof.
  apply (@collision_loop_ends_clear rational_math box_shapely max_collision_attempts
           straight_sim "StraightWalker1" (Walker_init StraightWalker)
           (Walker_init StraightWalker) true (constant_rng 0) (constant_rng 0)).
  reflexivity.
Defined.

(** ** Gates *)

Section GateFacts.
Context {math : MathLib} {shapely : Shapely}.

Lemma crosses_entrance_refresh (w : Walker) (gate : EnchantedGate) :
  crosses_entrance (if isinstance w MemoryWalker then update_memory w else w) gate
  = crosses_entrance w gate.
Proof. unfold crosses_entrance. now rewrite refresh_prev, refresh_location. Qed.

Lemma gate_loop_none (gates : list EnchantedGate) (w : Walker) :
  first_gate_crossed gates w = None -> gate_loop gates w = w.
Proof.
  unfold first_gate_crossed.
  induction gates as [|g gates IH]; intros H; cbn [gate_loop find] in *;
    [reflexivity|].
  fold (crosses_entrance w g).
  destruct (crosses_entrance w g); [discriminate | auto].
Qed.

Lemma gate_loop_somewhere (gates : list EnchantedGate) :
  forall w,
  get_location (gate_loop gates w) = get_location w \/
  exists gate, In gate gates /\ get_location (gate_loop gates w) = exit_location gate.
Proof.
  induction gates as [|g gates IH]; intros w; cbn [gate_loop]; [now left|].
  destruct (line_intersects _ _ _).
  - right. cbv zeta.
    destruct (IH (if isinstance (set_position w (exit_location g)) MemoryWalker
                  then update_memory (set_position w (exit_location g))
                  else set_position w (exit_location g)))
      as [Hsame|(gate & Hin & Hexit)].
    + exists g. split; [now left|]. rewrite Hsame, refresh_location.
      unfold get_location, set_position. cbn [_x _y].
      now rewrite <- surjective_pairing.
    + exists gate. split; [now right | exact Hexit].
  - destruct (IH w) as [Hsame|(gate & Hin & Hexit)]; [now left|].
    right. exists gate. split; [now right | exact Hexit].
Qed.

Lemma first_gate_crossed_ext (gates : list EnchantedGate) (w w' : Walker) :
  get_location w' = get_location w -> get_prev_location w' = get_prev_location w ->
  first_gate_crossed gates w' = first_gate_crossed gates w.
Proof.
  intros Hl Hp. unfold first_gate_crossed.
  induction gates as [|g gates IH]; [reflexivity|]. cbn [find].
  unfold crosses_entrance at 1 3. rewrite Hl, Hp.
  destruct (line_intersects _ _ _); [reflexivity | exact IH].
Qed.

(** X8. [gate_check] keeps the previous position, and leaves the walker
    where it is or at the exit of one of the gates.  A walker whose
    segment meets no entrance is returned as it is.  When the segment
    meets the entrance of a gate and of none before it, and the segment
    from the previous position to the exit of that gate meets the
    entrance of no later gate, the walker ends at the exit of that
    gate. *)
Theorem gate_check_outcome (sim : Simulation) (walker : Walker) :
  get_prev_location (gate_check sim walker) = get_prev_location walker /\
  (get_location (gate_check sim walker) = get_location walker \/
   exists gate, In gate (__enchanted_gates sim) /\
                get_location (gate_check sim walker) = exit_location gate) /\
  (first_gate_crossed (__enchanted_gates sim) walker = None ->
   gate_check sim walker = walker) /\
  (forall before gate after,
     __enchanted_gates sim = before ++ gate :: after ->
     first_gate_crossed before walker = None ->
     crosses_entrance walker gate = true ->
     first_gate_crossed after (set_position walker (exit_location gate)) = None ->
     get_location (gate_check sim walker) = exit_location gate).
Proof.
  unfold gate_check. split; [apply gate_loop_prev|].
  split; [apply gate_loop_somewhere|]. split; [apply gate_loop_none|].
  intros before gate after -> Hbefore Hgate Hafter.
  revert Hbefore. unfold first_gate_crossed.
  induction before as [|g before IH]; intros Hbefore; cbn [app gate_loop find] in *.
  - unfold crosses_entrance in Hgate. rewrite Hgate. cbv zeta.
    rewrite gate_loop_none.
    + rewrite refresh_location. unfold get_location, set_position. cbn [_x _y].
      now rewrite <- surjective_pairing.
    + rewrite <- Hafter. apply first_gate_crossed_ext;
        [apply refresh_location | apply refresh_prev].
  - fold (crosses_entrance walker g) in *.
    destruct (crosses_entrance walker g); [discriminate | auto].
Qed.
End GateFacts.

(** ** What a run leaves as it is *)

Lemma same_layout_refl (sim : Simulation) : same_layout sim sim.
Proof. repeat split. Qed.

Lemma same_layout_trans (a b c : Simulation) :
  same_layout a b -> same_layout b c -> same_layout a c.
Proof.
  unfold same_layout.
  intros (H1 & H2 & H3 & H4 & H5 & H6 & H7) (G1 & G2 & G3 & G4 & G5 & G6 & G7).
  repeat split; congruence.
Qed.

Lemma same_cast_refl (sim : Simulation) : same_cast sim sim.
Proof. split; [reflexivity|]. intros name w H. exists w. auto. Qed.

Lemma same_cast_trans (a b c : Simulation) :
  same_cast a b -> same_cast b c -> same_cast a c.
Proof.
  intros [Hk1 H1] [Hk2 H2]. split; [congruence|].
  intros name w'' Hc. destruct (H2 name w'' Hc) as (w' & Hb & Ht & Hb').
  destruct (H1 name w' Hb) as (w & Ha & Ht' & Hb''). exists w.
  repeat split; congruence.
Qed.

Lemma update_memory_bias (w : Walker) :
  _bias_probabilities (update_memory w) = _bias_probabilities w.
Proof. unfold update_memory. now destruct (Nat.ltb _ _). Qed.

Lemma refresh_bias (w : Walker) :
  _bias_probabilities (if isinstance w MemoryWalker then update_memory w else w)
  = _bias_probabilities w.
Proof. destruct (isinstance w MemoryWalker); auto using update_memory_bias. Qed.

Section LayoutFacts.
Context {math : MathLib} {shapely : Shapely}.

Lemma move_class (w w' : Walker) (r r' : Rng) :
  move w r = Ok (w', r') ->
  type_ w' = type_ w /\ _bias_probabilities w' = _bias_probabilities w.
Proof.
  unfold move. intros H. destruct (type_ w) eqn:Ht.
  - apply ret_Ok in H as [<- _]. auto.
  - unfold UnitWalker_move, uniform in H. inv_rand H. subst. auto.
  - unfold RandomDistanceWalker_move, uniform in H. inv_rand H. subst. auto.
  - unfold StraightWalker_move, choice in H. inv_rand H. subst. auto.
  - unfold DirectionalBiasWalker_move in H. inv_rand H. subst. auto.
  - unfold MemoryWalker_move in H.
    destruct (possible_moves w); unfold choice in H; inv_rand H; subst; auto.
Qed.

Lemma interaction_move_class (interaction : string) (w nearest : Walker) (d : Q) :
  type_ (interaction_move interaction w nearest d) = type_ w /\
  _bias_probabilities (interaction_move interaction w nearest d)
  = _bias_probabilities w.
Proof.
  unfold interaction_move.
  destruct (String.eqb interaction "attract");
    [|destruct (String.eqb interaction "repel")]; cbv zeta;
    rewrite ?refresh_type, ?refresh_bias; auto.
Qed.

Lemma choose_move_class (sim : Simulation) (walker_name : string)
  (w w' : Walker) (r r' : Rng) :
  choose_move sim walker_name w r = Ok (w', r') ->
  type_ w' = type_ w /\ _bias_probabilities w' = _bias_probabilities w.
Proof.
  unfold choose_move. destruct (__walkers_interaction sim) as [interaction|];
    [|apply move_class].
  intros H.
  apply bind_Ok in H as (nearest & r1 & _ & H).
  apply bind_Ok in H as (prob & r2 & _ & H).
  apply bind_Ok in H as (d & r3 & _ & H).
  destruct (Qle_bool prob (2 # 10)); [|now apply move_class in H].
  apply ret_Ok in H as [<- _]. apply interaction_move_class.
Qed.

Lemma handle_terrain_bias (w : Walker) (terrain : option Terrain) :
  _bias_probabilities (handle_terrain w terrain) = _bias_probabilities w.
Proof.
  unfold handle_terrain. destruct terrain as [[]|]; cbv zeta; now rewrite refresh_bias.
Qed.

Lemma retry_move_class (sim : Simulation) (walker_name : string)
  (w w' : Walker) (r r' : Rng) :
  retry_move sim walker_name w r = Ok (w', r') ->
  type_ w' = type_ w /\ _bias_probabilities w' = _bias_probabilities w.
Proof.
  unfold retry_move. intros H.
  apply bind_Ok in H as (wm & rm & Hmove & H).
  apply choose_move_class in Hmove as [Ht Hb].
  destruct (terrain_check sim wm); apply ret_Ok in H as [<- _];
    rewrite ?handle_terrain_type, ?handle_terrain_bias; auto.
Qed.

Lemma collision_loop_class (n : nat) (sim : Simulation) (walker_name : string) :
  forall (w w' : Walker) (ok : bool) (r r' : Rng),
  collision_loop n sim walker_name w r = Ok ((ok, w'), r') ->
  type_ w' = type_ w /\ _bias_probabilities w' = _bias_probabilities w.
Proof.
  induction n as [|n IH]; intros w w' ok r r' H; cbn [collision_loop] in H;
    destruct (check_collision sim w);
    try (apply ret_Ok in H as [H _]; injection H as _ <-; now auto).
  apply bind_Ok in H as (w1 & r1 & Hretry & H).
  apply retry_move_class in Hretry as [Ht Hb].
  apply IH in H as [Ht' Hb']. split; congruence.
Qed.

Lemma gate_loop_bias (gates : list EnchantedGate) :
  forall w, _bias_probabilities (gate_loop gates w) = _bias_probabilities w.
Proof.
  induction gates as [|g gates IH]; intros w; cbn [gate_loop]; [reflexivity|].
  destruct (line_intersects _ _ _); rewrite IH; [|reflexivity].
  cbv zeta. now rewrite refresh_bias.
Qed.

Lemma escape_check_class (w : Walker) :
  type_ (snd (escape_check w)) = type_ w /\
  _bias_probabilities (snd (escape_check w)) = _bias_probabilities w.
Proof. unfold escape_check. destruct (_ && _); simpl; auto. Qed.

Lemma cross_y_check_layout (sim sim' : Simulation) (walker_name : string)
  (w : Walker) (r r' : Rng) :
  cross_y_check sim walker_name w r = Ok (sim', r') -> same_layout sim sim'.
Proof.
  unfold cross_y_check. destruct (crosses_y_axis w); intros H.
  - apply bind_Ok in H as (c & r1 & _ & H). apply ret_Ok in H as [<- _].
    repeat split.
  - apply ret_Ok in H as [<- _]. apply same_layout_refl.
Qed.

Lemma bookkeeping_layout (i : Z) (sim sim' : Simulation) (walker_name : string)
  (w w' : Walker) (r r' : Rng) :
  bookkeeping i sim walker_name w r = Ok ((sim', w'), r') ->
  same_layout sim sim' /\
  type_ w' = type_ w /\ _bias_probabilities w' = _bias_probabilities w.
Proof.
  unfold bookkeeping, Simulation_escape_check. intros H.
  destruct (escape_check_class w) as [Ht Hb].
  destruct (escape_check w) as [esc w1]. cbn [snd] in Ht, Hb.
  assert (Hgen : forall sim1, same_layout sim sim1 ->
    (sim2 <- cross_y_check sim1 walker_name w1 ;;
     simulation_results_update sim2 walker_name w1 i) r = Ok ((sim', w'), r') ->
    same_layout sim sim' /\
    type_ w' = type_ w /\ _bias_probabilities w' = _bias_probabilities w).
  { intros sim1 H1 H2.
    apply bind_Ok in H2 as (sim2 & r2 & Hcross & H2).
    apply cross_y_check_layout in Hcross.
    pose proof (simulation_results_update_walker _ _ _ _ _ _ _ _ H2) as [-> _].
    destruct (escape_check_class w1) as [Ht1 Hb1].
    split; [|split; congruence].
    apply (same_layout_trans _ _ _ H1), (same_layout_trans _ _ _ Hcross).
    unfold simulation_results_update in H2.
    destruct (escape_check w1) as [esc1 w2].
    apply bind_Ok in H2 as (et1 & r3 & _ & H2).
    apply bind_Ok in H2 as (c & r4 & _ & H2).
    apply bind_Ok in H2 as (table1 & r5 & _ & H2).
    apply ret_Ok in H2 as [H2 _]. injection H2 as <-. repeat split. }
  destruct (negb esc); apply Hgen in H; auto using same_layout_refl.
  repeat split.
Qed.

Lemma store_walker_cast (sim sim1 : Simulation) (walker_name : string) (w w' : Walker) :
  dict_get String.eqb walker_name (__walkers sim) = Some w ->
  __walkers sim1 = __walkers sim ->
  type_ w' = type_ w -> _bias_probabilities w' = _bias_probabilities w ->
  same_cast sim (store_walker sim1 walker_name w').
Proof.
  intros Hw Hws Ht Hb. unfold store_walker, same_cast. cbn [__walkers set_walkers].
  rewrite Hws. split.
  - apply dict_set_keys_present. congruence.
  - intros name v. destruct (String.eqb_spec walker_name name) as [<-|Hne].
    + rewrite dict_get_set_eq by apply String.eqb_eq. intros H. injection H as <-.
      exists w. auto.
    + rewrite dict_get_set_ne by auto using String.eqb_eq. intros H.
      exists v. auto.
Qed.

Lemma walker_turn_keeps (i : Z) (sim sim' : Simulation) (walker_name : string)
  (ok : bool) (r r' : Rng) :
  walker_turn i sim walker_name r = Ok ((ok, sim'), r') ->
  same_layout sim sim' /\ same_cast sim sim'.
Proof.
  intros H.
  apply walker_turn_Ok in H as (w1 & r1 & w2 & r2 & Hfirst & Hrest).
  apply first_move_Ok in Hfirst as (w0 & wm & Hget & Hmove & ->).
  apply choose_move_class in Hmove as [Htm Hbm].
  destruct Hrest as [(Hloop & _ & -> & _)|(Hloop & _ & sim3 & w3 & Hbook & ->)];
    apply collision_loop_class in Hloop as [Ht2 Hb2];
    rewrite handle_terrain_type in Ht2; rewrite handle_terrain_bias in Hb2.
  - split; [repeat split|].
    apply (store_walker_cast sim sim walker_name w0 w2); congruence.
  - pose proof (bookkeeping_frame _ _ _ _ _ _ _ _ Hbook) as (Hws & _).
    apply bookkeeping_layout in Hbook as (Hlay & Ht3 & Hb3).
    unfold gate_check in Ht3, Hb3.
    rewrite gate_loop_type, refresh_type in Ht3.
    rewrite gate_loop_bias, refresh_bias in Hb3.
    split.
    + apply (same_layout_trans _ _ _ Hlay). repeat split.
    + apply (store_walker_cast sim sim3 walker_name w0 w3); congruence.
Qed.

Lemma turns_keep (sched : list (Z * string)) :
  forall (sim sim' : Simulation) (ok : bool) (r r' : Rng),
  turns sched sim r = Ok ((ok, sim'), r') ->
  same_layout sim sim' /\ same_cast sim sim'.
Proof.
  induction sched as [|[i name] sched IH]; intros sim sim' ok r r' H.
  - apply ret_Ok in H as [H _]. injection H as <- <-.
    split; [apply same_layout_refl | apply same_cast_refl].
  - cbn [turns] in H.
    apply bind_Ok in H as ([ok1 sim1] & r1 & Hturn & H).
    apply walker_turn_keeps in Hturn as [Hl1 Hc1].
    destruct ok1.
    + apply IH in H as [Hl Hc].
      split; [eapply same_layout_trans | eapply same_cast_trans]; eauto.
    + apply ret_Ok in H as [H _]. injection H as <- <-. auto.
Qed.

(** X9. Whatever [run_simulation] returns, the simulation it leaves has
    the budget, the obstacles, the gates, the terrains and the
    interaction it had, and the same walkers: the same names in the same
    order, each of the class and with the weights it had. *)
Theorem run_simulation_keeps_layout (sim sim' : Simulation) (ok : bool) (r r' : Rng) :
  run_simulation sim r = Ok ((ok, sim'), r') ->
  same_layout sim sim' /\ same_cast sim sim'.
Proof. rewrite run_simulation_turns. apply turns_keep. Qed.


(** X11. A run without turns, because the budget is zero or negative or
    because the simulation has no walker, returns True at once: the
    simulation and the random source are as they were. *)
Theorem run_simulation_without_turns (sim : Simulation) (r : Rng) :
  ((__num_moves sim <= 0)%Z -> run_simulation sim r = Ok ((true, sim), r)) /\
  (__walkers sim = [] -> run_simulation sim r = Ok ((true, sim), r)).
Proof.
  unfold run_simulation, range1. split.
  - intros Hn. replace (Z.to_nat (__num_moves sim)) with O by lia. reflexivity.
  - intros Hws. generalize (map Z.of_nat (seq 1 (Z.to_nat (__num_moves sim)))).
    intros steps. induction steps as [|i steps IH]; [reflexivity|].
    cbn [moves_loop]. rewrite Hws. cbn [dict_keys map walkers_loop].
    unfold bind, ret. exact IH.
Qed.
End LayoutFacts.

Lemma run_simulation_keeps_layout_witness :
  exists sim' r',
    @run_simulation rational_math box_shapely short_sim (constant_rng 0)
    = Ok ((true, sim'), r') /\
    same_layout short_sim sim' /\ same_cast short_sim sim'.
Proof.
  let v := eval vm_compute in
    (@run_simulation rational_math box_shapely short_sim (constant_rng 0)) in
  match v with
  | Ok ((true, ?s), ?r) =>
      assert (E : @run_simulation rational_math box_shapely short_sim (constant_rng 0)
                  = Ok ((true, s), r)) by (vm_compute; reflexivity);
      exists s, r; split; [exact E|];
      exact (@run_simulation_keeps_layout rational_math box_shapely _ _ _ _ _ E)
  end.
Defined.


(** ** The reset between two runs *)

Lemma dict_keys_map_values {V W : Type} (f : V -> W) (d : dict string V) :
  dict_keys (map (fun kv => (fst kv, f (snd kv))) d) = dict_keys d.
Proof. unfold dict_keys. rewrite map_map. reflexivity. Qed.

Lemma reset_get (sim : Simulation) (name : string) :
  dict_get String.eqb name (__walkers (reset sim))
    = option_map reset_walker (dict_get String.eqb name (__walkers sim)) /\
  dict_get String.eqb name (__escape_times (reset sim))
    = option_map (fun _ => None) (dict_get String.eqb name (__walkers sim)) /\
  dict_get String.eqb name (__crosses_y (reset sim))
    = option_map (fun _ => (-1)%Z) (dict_get String.eqb name (__walkers sim)) /\
  dict_get String.eqb name (__total_dict (reset sim))
    = option_map (fun _ => []) (dict_get String.eqb name (__walkers sim)).
Proof.
  unfold reset. cbn [__walkers __escape_times __crosses_y __total_dict].
  rewrite (dict_get_map_values reset_walker),
    (dict_get_map_values (fun _ : Walker => @None Z)),
    (dict_get_map_values (fun _ : Walker => (-1)%Z)),
    (dict_get_map_values (fun _ : Walker => @nil (Z * StepRecord))).
  auto.
Qed.

Lemma ready_reset (sim : Simulation) : ready sim -> ready (reset sim).
Proof.
  intros [Hnone Hall]. split; [exact Hnone|].
  intros name w' Hw'. destruct (reset_get sim name) as (H1 & H2 & H3 & H4).
  rewrite H2, H3, H4.
  destruct (dict_get String.eqb name (__walkers sim)) as [w|] eqn:Hw;
    [|rewrite H1 in Hw'; discriminate].
  rewrite H1 in Hw'. injection Hw' as <-.
  destruct (Hall name w Hw) as (Hbias & _).
  split; [|repeat split; discriminate].
  unfold reset_walker. now destruct (isinstance w MemoryWalker).
Qed.

Lemma tables_match_reset (sim : Simulation) : tables_match_walkers (reset sim).
Proof.
  unfold tables_match_walkers, reset, dict_keys. cbn [__walkers __total_dict].
  now rewrite !map_map.
Qed.

(** X12. [reset] keeps the layout and the names of the walkers.  Every
    walker is put back at the origin as not escaped, a MemoryWalker with
    an empty memory, with its class and its weights; its escape time is
    None again, its crossing counter -1 and its table of records empty.
    The previous position of a walker is not reset: it stays what the
    last run left.  A simulation whose walkers have distinct names is
    after [reset] as it has to be before a run, and a ready simulation
    stays ready. *)
Theorem reset_prepares_next_run (sim : Simulation) :
  same_layout sim (reset sim) /\
  dict_keys (__walkers (reset sim)) = dict_keys (__walkers sim) /\
  (forall name w,
     dict_get String.eqb name (__walkers sim) = Some w ->
     exists w',
       dict_get String.eqb name (__walkers (reset sim)) = Some w' /\
       get_location w' = (0, 0) /\
       escaped w' = false /\
       get_prev_location w' = get_prev_location w /\
       type_ w' = type_ w /\
       _bias_probabilities w' = _bias_probabilities w /\
       __memory w' = (if isinstance w MemoryWalker then [] else __memory w) /\
       dict_get String.eqb name (__escape_times (reset sim)) = Some None /\
       dict_get String.eqb name (__crosses_y (reset sim)) = Some (-1)%Z /\
       dict_get String.eqb name (__total_dict (reset sim)) = Some []) /\
  (NoDup (dict_keys (__walkers sim)) -> before_run (reset sim)) /\
  (ready sim -> ready (reset sim)).
Proof.
  split; [repeat split|]. split; [apply dict_keys_map_values|].
  split; [|split; [apply before_run_reset | apply ready_reset]].
  intros name w Hw. destruct (reset_get sim name) as (H1 & H2 & H3 & H4).
  rewrite Hw in *. exists (reset_walker w).
  simpl in H1, H2, H3, H4. split; [exact H1|].
  unfold reset_walker. destruct (isinstance w MemoryWalker); repeat split; assumption.
Qed.

(** ** Loading a run into the statistics *)

Lemma load_to_dict_get (dicti : dict string (dict Z StepRecord)) (i : Z) :
  forall (total : dict string (dict Z (dict Z StepRecord))) (walker_name : string),
  NoDup (dict_keys dicti) ->
  dict_get String.eqb walker_name
    (Statistics.__total_dict
       (Statistics.load_to_dict {| Statistics.__total_dict := total |} dicti i))
  = match dict_get String.eqb walker_name dicti with
    | Some walker_data =>
        Some (dict_set Z.eqb i walker_data
                (match dict_get String.eqb walker_name total with
                 | Some runs => runs
                 | None => []
                 end))
    | None => dict_get String.eqb walker_name total
    end.
Proof.
  unfold Statistics.load_to_dict. cbn [Statistics.__total_dict].
  induction dicti as [|[k v] dicti IH]; intros total walker_name Hnd;
    [reflexivity|].
  inversion Hnd as [|? ? Hnotin Hnd']; subst.
  cbn [fold_left dict_get fst snd]. rewrite IH by assumption.
  destruct (String.eqb_spec walker_name k) as [->|Hne].
  - destruct (dict_get String.eqb k dicti) eqn:E.
    + exfalso. apply Hnotin.
      apply (dict_get_In_keys String.eqb String.eqb_eq). congruence.
    + destruct (dict_get String.eqb k total);
        rewrite dict_get_set_eq by apply String.eqb_eq; reflexivity.
  - assert (Hkeep : forall runs',
              dict_get String.eqb walker_name (dict_set String.eqb k runs' total)
              = dict_get String.eqb walker_name total).
    { intros runs'. apply dict_get_set_ne; auto using String.eqb_eq. }
    destruct (dict_get String.eqb k total); rewrite Hkeep; reflexivity.
Qed.

(** X13. [load_to_dict] files the table of every walker of a run under
    the index of the run: after the call the statistics hold that table
    at that index for the walker, the runs the walker had under other
    indices are kept, and walkers that are not in the run keep what they
    had. *)
Theorem load_to_dict_stores (stat : Statistics.Statistics)
  (dicti : dict string (dict Z StepRecord)) (i : Z) (walker_name : string) :
  NoDup (dict_keys dicti) ->
  let before := dict_get String.eqb walker_name (Statistics.__total_dict stat) in
  let after :=
    dict_get String.eqb walker_name
             (Statistics.__total_dict (Statistics.load_to_dict stat dicti i)) in
  (forall walker_data,
     dict_get String.eqb walker_name dicti = Some walker_data ->
     exists runs,
       after = Some runs /\
       dict_get Z.eqb i runs = Some walker_data /\
       forall j, j <> i ->
         dict_get Z.eqb j runs
         = match before with Some old => dict_get Z.eqb j old | None => None end) /\
  (dict_get String.eqb walker_name dicti = None -> after = before).
Proof.
  intros Hnd. cbv zeta. destruct stat as [total].
  rewrite load_to_dict_get by assumption. cbn [Statistics.__total_dict]. split.
  - intros walker_data ->. eexists. split; [reflexivity|].
    split; [apply dict_get_set_eq, Z.eqb_eq|].
    intros j Hj. rewrite dict_get_set_ne by auto using Z.eqb_eq.
    now destruct (dict_get String.eqb walker_name total).
  - now intros ->.
Qed.

Lemma load_to_dict_stores_witness :
  exists runs,
    dict_get String.eqb "StraightWalker1"%string
      (Statistics.__total_dict
         (Statistics.load_to_dict Statistics.init (__total_dict straight_sim) 1))
    = Some runs /\
    dict_get Z.eqb 1%Z runs = Some [].
Proof.
  assert (Hnd : NoDup (dict_keys (__total_dict straight_sim))).
  { vm_compute. repeat constructor. intros []. }
  destruct (load_to_dict_stores Statistics.init (__total_dict straight_sim) 1
              "StraightWalker1" Hnd) as [H _].
  destruct (H [] eq_refl) as (runs & H1 & H2 & _).
  exists runs. split; assumption.
Defined.

(** ** The averages per step *)

Lemma array_set_app (done todo : list Q) (t v : Q) :
  Statistics.array_set (done ++ t :: todo) (List.length done) v = done ++ v :: todo.
Proof. induction done as [|d done IH]; simpl; [reflexivity | now rewrite IH]. Qed.

Lemma array_iadd_next (done todo : list Q) (t q : Q) :
  Statistics.array_iadd (done ++ t :: todo) (Z.of_nat (List.length done))
                        (Statistics.Number q)
  = Statistics.Returns (done ++ (t + q) :: todo).
Proof.
  unfold Statistics.array_iadd. rewrite length_app. cbn [List.length].
  destruct (Z.ltb_spec (Z.of_nat (List.length done)) 0) as [H|_]; [lia|].
  destruct (Z.ltb_spec (Z.of_nat (List.length done)) 0) as [H|_]; [lia|].
  destruct (Z.leb_spec (Z.of_nat (List.length done + S (List.length todo)))
                       (Z.of_nat (List.length done))) as [H|_]; [lia|].
  cbn [orb]. rewrite Nat2Z.id, array_set_app, app_nth2, Nat.sub_diag by lia.
  reflexivity.
Qed.

Section AverageFacts.
Variable key : string.
Variable field : StepRecord -> Q.
Hypothesis key_field :
  forall step_data,
    Statistics.getitem step_data key = Some (Statistics.Number (field step_data)).

(** One run adds the field of its records to the counts, step by step. *)
Lemma steps_loop_adds (items : list (Z * StepRecord)) :
  forall done todo : list Q,
  List.length todo = List.length items ->
  dict_keys items = steps_from (1 + Z.of_nat (List.length done)) (List.length items) ->
  Statistics.steps_loop key items (done ++ todo)
  = Statistics.Returns (done ++ add_arrays todo (map field (dict_values items))).
Proof.
  induction items as [|[step step_data] items IH]; intros done todo Hlen Hkeys.
  - destruct todo; [reflexivity | discriminate].
  - destruct todo as [|t todo]; [discriminate|].
    remember (1 + Z.of_nat (List.length done))%Z as i eqn:Hi.
    cbn [dict_keys map fst List.length steps_from] in Hkeys.
    injection Hkeys as Hstep Hkeys. subst step.
    cbn [Statistics.steps_loop]. rewrite key_field.
    replace (i - 1)%Z with (Z.of_nat (List.length done)) by lia.
    rewrite array_iadd_next.
    replace (done ++ (t + field step_data) :: todo)
      with ((done ++ [t + field step_data]) ++ todo) by now rewrite <- app_assoc.
    rewrite IH.
    + rewrite <- app_assoc. reflexivity.
    + simpl in Hlen. lia.
    + unfold dict_keys. rewrite Hkeys, length_app. cbn [List.length]. f_equal. lia.
Qed.

Lemma steps_loop_run (n : nat) (run : dict Z StepRecord) (counts : list Q) :
  List.length counts = n ->
  dict_keys run = steps_from 1 n ->
  Statistics.steps_loop key run counts
  = Statistics.Returns (add_arrays counts (map field (dict_values run))).
Proof.
  intros Hlen Hkeys.
  assert (Hn : List.length run = n).
  { rewrite <- (length_map fst). fold (dict_keys run). rewrite Hkeys.
    apply steps_from_length. }
  apply (steps_loop_adds run [] counts); [congruence|].
  rewrite Hn. exact Hkeys.
Qed.

Lemma add_arrays_length (counts values : list Q) :
  List.length values = List.length counts ->
  List.length (add_arrays counts values) = List.length counts.
Proof.
  intros H. unfold add_arrays. rewrite length_map, length_combine. lia.
Qed.

Lemma add_arrays_nth (counts values : list Q) (j : nat) :
  List.length values = List.length counts ->
  nth j (add_arrays counts values) 0 = nth j counts 0 + nth j values 0.
Proof.
  revert values j. induction counts as [|c counts IH]; intros [|v values] [|j] H;
    try discriminate; try reflexivity.
  simpl in H. cbn [add_arrays combine map nth]. apply (IH values j). lia.
Qed.

Lemma run_values_length (n : nat) (run : dict Z StepRecord) :
  dict_keys run = steps_from 1 n ->
  List.length (map field (dict_values run)) = n.
Proof.
  intros Hkeys. unfold dict_values. rewrite !length_map.
  rewrite <- (length_map fst). fold (dict_keys run). rewrite Hkeys.
  apply steps_from_length.
Qed.

(** The runs of a walker type add up in the counts. *)
Lemma sims_loop_adds (n : nat) (runs : list (dict Z StepRecord)) :
  forall counts : list Q,
  List.length counts = n ->
  Forall (fun run => dict_keys run = steps_from 1 n) runs ->
  exists total : list Q,
    Statistics.sims_loop key runs counts = Statistics.Returns total /\
    List.length total = n /\
    forall j,
      nth j total 0
      = fold_left Qplus (map (fun run => nth j (map field (dict_values run)) 0) runs)
                  (nth j counts 0).
Proof.
  induction runs as [|run runs IH]; intros counts Hlen Hall.
  - exists counts. auto.
  - inversion Hall as [|? ? Hrun Hrest]; subst.
    cbn [Statistics.sims_loop]. rewrite (steps_loop_run _ _ _ eq_refl Hrun).
    pose proof (run_values_length _ _ Hrun) as Hvals.
    destruct (IH (add_arrays counts (map field (dict_values run))))
      as (total & Hloop & Htotal & Hnth);
      [now rewrite add_arrays_length | assumption|].
    exists total. split; [exact Hloop|]. split; [exact Htotal|].
    intros j. rewrite Hnth. cbn [map fold_left].
    now rewrite add_arrays_nth.
Qed.

(** The record of a step of a run is the entry of the step among the
    values. *)
Lemma run_get_nth (run : dict Z StepRecord) :
  forall (i : Z) (j : nat),
  dict_keys run = steps_from i (List.length run) ->
  (j < List.length run)%nat ->
  field_at field (i + Z.of_nat j) run = nth j (map field (dict_values run)) 0.
Proof.
  unfold field_at.
  induction run as [|[k step_data] run IH]; intros i j Hkeys Hj; [simpl in Hj; lia|].
  cbn [dict_keys map fst List.length steps_from] in Hkeys.
  injection Hkeys as -> Hkeys.
  cbn [dict_get dict_values map snd]. destruct j as [|j].
  - rewrite Z.add_0_r, Z.eqb_refl. reflexivity.
  - destruct (Z.eqb_spec (i + Z.of_nat (S j)) i) as [E|_]; [lia|].
    replace (i + Z.of_nat (S j))%Z with (i + 1 + Z.of_nat j)%Z by lia.
    cbn [nth]. apply IH; [exact Hkeys | simpl in Hj; lia].
Qed.

Lemma sum_field_at (n k : nat) (runs : list (dict Z StepRecord)) :
  Forall (fun run => dict_keys run = steps_from 1 n) runs ->
  (1 <= k <= n)%nat ->
  map (fun run => nth (k - 1) (map field (dict_values run)) 0) runs
  = map (field_at field (Z.of_nat k)) runs.
Proof.
  intros Hall Hk. apply map_ext_in. intros run Hin.
  rewrite Forall_forall in Hall. specialize (Hall run Hin).
  assert (Hn : List.length run = n).
  { rewrite <- (length_map fst). fold (dict_keys run). rewrite Hall.
    apply steps_from_length. }
  replace (Z.of_nat k) with (1 + Z.of_nat (k - 1))%Z by lia.
  symmetry. apply run_get_nth; [now rewrite Hn | lia].
Qed.
End AverageFacts.

Lemma str_of_nat_inj (a b : nat) :
  (1 <= a)%nat -> (1 <= b)%nat ->
  str (Pos.of_nat a) = str (Pos.of_nat b) -> a = b.
Proof. intros Ha Hb H. apply str_inj in H. apply Nat2Pos.inj; lia. Qed.

(** The dictionary of the averages of a walker type, key by key *)
Lemma per_step_get (total_simulations : nat) (counts : list Q) :
  dict_keys (Statistics.per_step counts total_simulations)
  = map (fun k => str (Pos.of_nat k)) (seq 1 (List.length counts)) /\
  forall k, (1 <= k <= List.length counts)%nat ->
    dict_get String.eqb (str (Pos.of_nat k))
             (Statistics.per_step counts total_simulations)
    = Some (nth (k - 1) counts 0 / inject_Z (Z.of_nat total_simulations)).
Proof.
  unfold Statistics.per_step.
  generalize (List.length counts). intros n.
  assert (H : forall m a,
    dict_keys (map (fun i_step : nat * nat =>
                      (str (Pos.of_nat (snd i_step)),
                       nth (fst i_step) counts 0 / inject_Z (Z.of_nat total_simulations)))
                   (combine (seq a m) (seq (S a) m)))
    = map (fun k => str (Pos.of_nat k)) (seq (S a) m) /\
    forall k, (S a <= k <= a + m)%nat ->
      dict_get String.eqb (str (Pos.of_nat k))
        (map (fun i_step : nat * nat =>
                (str (Pos.of_nat (snd i_step)),
                 nth (fst i_step) counts 0 / inject_Z (Z.of_nat total_simulations)))
             (combine (seq a m) (seq (S a) m)))
      = Some (nth (k - 1) counts 0 / inject_Z (Z.of_nat total_simulations))).
  { induction m as [|m IH]; intros a.
    - split; [reflexivity | intros k Hk; lia].
    - destruct (IH (S a)) as [Hkeys Hget]. split.
      + cbn [seq combine map dict_keys fst snd]. f_equal. exact Hkeys.
      + intros k Hk. cbn [seq combine map dict_get fst snd].
        destruct (String.eqb_spec (str (Pos.of_nat k)) (str (Pos.of_nat (S a))))
          as [E|E].
        * apply str_of_nat_inj in E; [|lia|lia]. subst k.
          replace (S a - 1)%nat with a by lia. reflexivity.
        * apply Hget. assert (k <> S a) by congruence. lia. }
  destruct (H n O) as [Hkeys Hget]. split; [exact Hkeys|].
  intros k Hk. apply Hget. lia.
Qed.

Section MeanFacts.
Variable key : string.
Variable field : StepRecord -> Q.
Hypothesis key_field :
  forall step_data,
    Statistics.getitem step_data key = Some (Statistics.Number (field step_data)).

Lemma runs_first_length (n : nat) (simulations : dict Z (dict Z StepRecord)) :
  runs_of_length n simulations ->
  exists first rest, dict_values simulations = first :: rest /\ List.length first = n.
Proof.
  intros [Hne Hall]. destruct simulations as [|[i first] rest]; [congruence|].
  exists first, (dict_values rest). split; [reflexivity|].
  inversion Hall as [|? ? Hfirst _]; subst.
  rewrite <- (length_map fst). fold (dict_keys first). rewrite Hfirst.
  apply steps_from_length.
Qed.

Lemma walker_averages_mean (n : nat) (simulations : dict Z (dict Z StepRecord)) :
  runs_of_length n simulations ->
  exists counts,
    Statistics.sims_loop key (dict_values simulations)
      (repeat 0 (List.length (hd [] (dict_values simulations))))
    = Statistics.Returns counts /\
    mean_table field n (Statistics.per_step counts (List.length simulations))
               (dict_values simulations).
Proof.
  intros Hruns. pose proof Hruns as [Hne Hall].
  destruct (runs_first_length n simulations Hruns) as (first & rest & Hvals & Hfirst).
  assert (Hhd : List.length (hd [] (dict_values simulations)) = n)
    by (rewrite Hvals; exact Hfirst).
  rewrite Hhd.
  destruct (sims_loop_adds key field key_field n (dict_values simulations)
              (repeat 0 n) (repeat_length _ _) Hall) as (counts & Hloop & Hlen & Hnth).
  exists counts. split; [exact Hloop|].
  destruct (per_step_get (List.length simulations) counts) as [Hkeys Hget].
  rewrite Hlen in Hkeys, Hget. split; [exact Hkeys|].
  intros k Hk. rewrite (Hget k Hk), Hnth, nth_repeat.
  rewrite (sum_field_at field n k _ Hall Hk).
  unfold field_mean, sum, dict_values. now rewrite length_map.
Qed.

Lemma averages_loop_fold (items : list (string * dict Z (dict Z StepRecord))) :
  forall averages : dict string (dict string Q),
  (forall walker simulations, In (walker, simulations) items ->
     exists n, runs_of_length n simulations) ->
  Statistics.averages_loop key items averages
  = Statistics.Returns
      (fold_left (fun acc item =>
                    dict_set String.eqb (fst item) (walker_averages key (snd item)) acc)
                 items averages).
Proof.
  induction items as [|[walker simulations] items IH]; intros averages Hall;
    [reflexivity|].
  destruct (Hall walker simulations (or_introl eq_refl)) as (n & Hruns).
  destruct (runs_first_length n simulations Hruns) as (first & rest & Hvals & Hfirst).
  destruct (walker_averages_mean n simulations Hruns) as (counts & Hloop & _).
  cbn [Statistics.averages_loop fold_left fst snd].
  unfold walker_averages. rewrite Hvals in Hloop |- *.
  cbn [hd] in Hloop |- *. rewrite Hloop.
  apply IH. intros w s Hin. apply (Hall w s). now right.
Qed.

Lemma fold_dict_set_keys {V W : Type} (g : V -> W) (items : dict string V) :
  forall acc : dict string W,
  NoDup (dict_keys acc ++ dict_keys items) ->
  dict_keys (fold_left (fun acc item => dict_set String.eqb (fst item) (g (snd item)) acc)
                       items acc)
  = dict_keys acc ++ dict_keys items.
Proof.
  induction items as [|[k v] items IH]; intros acc Hnd; cbn [fold_left fst snd].
  - now rewrite app_nil_r.
  - cbn [dict_keys map fst] in Hnd |- *.
    assert (Hfresh : dict_mem String.eqb k acc = false).
    { destruct (dict_mem String.eqb k acc) eqn:E; [|reflexivity].
      apply (dict_mem_In_keys String.eqb String.eqb_eq) in E.
      apply NoDup_remove_2 in Hnd. exfalso. apply Hnd, in_or_app. now left. }
    rewrite IH.
    + rewrite (dict_set_keys_fresh String.eqb k _ acc Hfresh), <- app_assoc.
      reflexivity.
    + rewrite (dict_set_keys_fresh String.eqb k _ acc Hfresh), <- app_assoc.
      exact Hnd.
Qed.

(** The averages of a field, for statistics with runs of one length per
    walker type *)
Lemma averages_loop_means (stat : Statistics.Statistics) :
  NoDup (dict_keys (Statistics.__total_dict stat)) ->
  uniform_statistics stat ->
  averages_are_means stat field
    (Statistics.averages_loop key (Statistics.__total_dict stat) []).
Proof.
  intros Hnd Huni. unfold averages_are_means.
  rewrite averages_loop_fold by exact Huni.
  eexists. split; [reflexivity|]. split.
  - now rewrite (fold_dict_set_keys (walker_averages key)).
  - intros walker simulations n Hget Hruns.
    rewrite (fold_dict_set_get (walker_averages key)) by (auto; reflexivity).
    rewrite Hget. eexists. split; [reflexivity|].
    destruct (walker_averages_mean n simulations Hruns) as (counts & Hloop & Hmean).
    unfold walker_averages. rewrite Hloop. exact Hmean.
Qed.
End MeanFacts.

(** X14. For statistics whose walker types have runs of one length each,
    the three averages of distances return, for every walker type and
    under the key of every step, the mean over the runs of the type of
    the field of that step: the distance from the origin, the one the
    records hold as 'distance from x' and the one they hold as
    'distance from y'. *)
Theorem average_walker_distance_is_mean (stat : Statistics.Statistics) :
  NoDup (dict_keys (Statistics.__total_dict stat)) ->
  uniform_statistics stat ->
  averages_are_means stat distance_from_origin
    (Statistics.average_walker_distance_origin stat) /\
  averages_are_means stat distance_from_x (Statistics.average_walker_distance_x stat) /\
  averages_are_means stat distance_from_y (Statistics.average_walker_distance_y stat).
Proof.
  intros Hnd Huni. repeat split;
    now apply averages_loop_means; [intros step_data; reflexivity | |].
Qed.

(** X15. For statistics whose walker types have runs of one length each,
    [avg_cross_y_axis] returns, for every walker type and under the key
    of every step, the mean over the runs of the type of the crossing
    count recorded at that step. *)
Theorem avg_cross_y_axis_is_mean (stat : Statistics.Statistics) :
  NoDup (dict_keys (Statistics.__total_dict stat)) ->
  uniform_statistics stat ->
  averages_are_means stat (fun step_data => inject_Z (y_crosses step_data))
    (Statistics.avg_cross_y_axis stat).
Proof.
  intros Hnd Huni.
  now apply averages_loop_means; [intros step_data; reflexivity | |].
Qed.

Lemma one_run_stat_uniform :
  NoDup (dict_keys (Statistics.__total_dict one_run_stat)) /\
  uniform_statistics one_run_stat.
Proof.
  split.
  - vm_compute. repeat constructor. intros [].
  - intros walker simulations Hin. exists 5%nat.
    vm_compute in Hin. destruct Hin as [Hin|[]]. injection Hin as <- <-.
    split; [discriminate|]. repeat constructor.
Qed.

Lemma average_walker_distance_is_mean_witness :
  averages_are_means one_run_stat distance_from_origin
    (Statistics.average_walker_distance_origin one_run_stat) /\
  averages_are_means one_run_stat distance_from_x
    (Statistics.average_walker_distance_x one_run_stat) /\
  averages_are_means one_run_stat distance_from_y
    (Statistics.average_walker_distance_y one_run_stat).
Proof.
  apply average_walker_distance_is_mean; apply one_run_stat_uniform.
Defined.

Lemma avg_cross_y_axis_is_mean_witness :
  averages_are_means one_run_stat (fun step_data => inject_Z (y_crosses step_data))
    (Statistics.avg_cross_y_axis one_run_stat).
Proof.
  apply avg_cross_y_axis_is_mean; apply one_run_stat_uniform.
Defined.

(** ** The check of the layout *)

Lemma combine_seq_In {A} (l : list A) :
  forall (a i : nat) (x : A),
  In (i, x) (combine (seq a (List.length l)) l) <->
  (a <= i)%nat /\ nth_error l (i - a) = Some x.
Proof.
  induction l as [|y l IH]; intros a i x; cbn [List.length seq combine In].
  - split; [intros [] | intros [_ H]; destruct (i - a)%nat; discriminate].
  - rewrite IH. split.
    + intros [H|[Hle Hnth]].
      * injection H as <- <-. rewrite Nat.sub_diag. auto.
      * split; [lia|]. replace (i - a)%nat with (S (i - S a)) by lia. exact Hnth.
    + intros [Hle Hnth]. destruct (Nat.eq_dec a i) as [<-|Hne].
      * rewrite Nat.sub_diag in Hnth. injection Hnth as <-. now left.
      * right. split; [lia|].
        replace (i - a)%nat with (S (i - S a)) in Hnth by lia. exact Hnth.
Qed.

Lemma enumerate_In {A} (l : list A) (i : nat) (x : A) :
  In (i, x) (enumerate l) <-> nth_error l i = Some x.
Proof.
  unfold enumerate. rewrite combine_seq_In, Nat.sub_0_r.
  split; [now intros [_ H] | intros H; split; [lia | exact H]].
Qed.

Section LayoutCheck.
Context {polygons : ShapelyPolygons}.

Lemma no_overlap_pairs (ps : list Polygon) :
  no_overlap ps = true <->
  ForallOrdPairs (fun p q => polygon_intersects p q = false) ps.
Proof.
  induction ps as [|p ps IH]; cbn [no_overlap].
  - split; [constructor | reflexivity].
  - rewrite andb_true_iff, forallb_forall, IH. split.
    + intros [Hp Hps]. constructor; [|exact Hps].
      apply Forall_forall. intros q Hq. apply negb_true_iff. auto.
    + intros H. inversion H as [|? ? Hp Hps]; subst. split; [|exact Hps].
      intros q Hq. apply negb_true_iff. rewrite Forall_forall in Hp. auto.
Qed.

Lemma exit_is_free_iff (gates : list EnchantedGate) (obstacles : list Obstacle)
  (index : nat) (gate : EnchantedGate) :
  nth_error gates index = Some gate ->
  exit_is_free gates obstacles index gate = true <->
  (forall obstacle, In obstacle obstacles ->
     polygon_intersects_point (get_boundary obstacle) (exit_location gate) = false) /\
  polygon_intersects_point (gate_get_boundary gate) (exit_location gate) = false.
Proof.
  intros Hnth. unfold exit_is_free.
  rewrite andb_true_iff, !forallb_forall. split.
  - intros [Hobs Hself]. split.
    + intros obstacle Hin. apply negb_true_iff. auto.
    + specialize (Hself (index, gate) (proj2 (enumerate_In gates index gate) Hnth)).
      cbn [fst snd] in Hself. rewrite Nat.eqb_refl in Hself.
      now apply negb_true_iff in Hself.
  - intros [Hobs Hself]. split.
    + intros obstacle Hin. apply negb_true_iff. auto.
    + intros [j other] Hin. cbn [fst snd].
      destruct (Nat.eqb_spec j index) as [->|_]; [|reflexivity].
      apply enumerate_In in Hin. assert (other = gate) by congruence. subst other.
      cbn [andb]. now apply negb_true_iff.
Qed.

(** X16. [occupied_locations_check] returns, rather than ending the
    program, exactly when no two of the entrances of the gates and of
    the obstacles intersect, no two of the water, sand and grass tiles
    intersect, and the exit of every gate is in no obstacle and not in
    the entrance of that gate.  The exit of a gate may be in the
    entrance of another gate, and a terrain may overlap an obstacle or an
    entrance. *)
Theorem occupied_locations_check_accepts (gates : list EnchantedGate)
  (obstacles : list Obstacle) (waters : list Water) (sands : list Sand)
  (grasses : list Grass) :
  occupied_locations_check gates obstacles waters sands grasses = true <->
  ForallOrdPairs (fun p q => polygon_intersects p q = false)
                 (map gate_get_boundary gates ++ map get_boundary obstacles) /\
  ForallOrdPairs (fun p q => polygon_intersects p q = false)
                 (map get_boundary waters ++ map get_boundary sands ++
                  map get_boundary grasses) /\
  (forall gate, In gate gates ->
     (forall obstacle, In obstacle obstacles ->
        polygon_intersects_point (get_boundary obstacle) (exit_location gate) = false) /\
     polygon_intersects_point (gate_get_boundary gate) (exit_location gate) = false).
Proof.
  unfold occupied_locations_check. cbv zeta.
  rewrite !andb_true_iff, !no_overlap_pairs, forallb_forall.
  assert (Hgates :
    (forall x : nat * EnchantedGate, In x (enumerate gates) ->
       exit_is_free gates obstacles (fst x) (snd x) = true) <->
    (forall gate, In gate gates ->
       (forall obstacle, In obstacle obstacles ->
          polygon_intersects_point (get_boundary obstacle) (exit_location gate) = false) /\
       polygon_intersects_point (gate_get_boundary gate) (exit_location gate) = false)).
  { split.
    - intros H gate Hin. apply In_nth_error in Hin as [i Hi].
      apply (exit_is_free_iff gates obstacles i gate Hi).
      apply (H (i, gate)). now apply enumerate_In.
    - intros H [i gate] Hin. cbn [fst snd]. apply enumerate_In in Hin.
      apply (exit_is_free_iff gates obstacles i gate Hin).
      apply H. eapply nth_error_In. exact Hin. }
  rewrite Hgates. tauto.
Qed.
End LayoutCheck.

(** ** The loading of the objects *)

Lemma WalkerType_eqb_eq (a b : WalkerType) : WalkerType_eqb a b = true <-> a = b.
Proof. destruct a, b; simpl; split; congruence. Qed.

Lemma type_name_inj (a b : WalkerType) (i j : positive) :
  (type_name a ++ str i)%string = (type_name b ++ str j)%string -> a = b /\ i = j.
Proof.
  intros H.
  assert (Hab : a = b) by (destruct a, b; simpl in H; congruence).
  subst b. split; [reflexivity|]. now apply append_inj_r, str_inj in H.
Qed.

Lemma dict_set_fresh_app {V : Type} (k : string) (v : V) (d : dict string V) :
  dict_mem String.eqb k d = false -> dict_set String.eqb k v d = d ++ [(k, v)].
Proof.
  unfold dict_mem. induction d as [|[k' v'] d IH]; simpl; [reflexivity|].
  destruct (String.eqb k k'); [discriminate|]. intros H. now rewrite IH.
Qed.

Lemma dict_mem_app {V : Type} (k : string) (d d' : dict string V) :
  dict_mem String.eqb k (d ++ d') = dict_mem String.eqb k d || dict_mem String.eqb k d'.
Proof.
  unfold dict_mem. induction d as [|[k' v'] d IH]; simpl; [reflexivity|].
  destruct (String.eqb k k'); [reflexivity | exact IH].
Qed.

Lemma add_walker_name (seen : list WalkerType) (sim : Simulation) (walker : Walker) :
  names_taken seen (__walkers sim) ->
  let walker_name :=
    (type_name (type_ walker) ++
     str (Pos.of_nat (S (count_type (type_ walker) seen))))%string in
  dict_mem String.eqb walker_name (__walkers sim) = false /\
  __walkers (add_walker sim walker) = __walkers sim ++ [(walker_name, walker)] /\
  __escape_times (add_walker sim walker)
  = dict_set String.eqb walker_name None (__escape_times sim) /\
  __crosses_y (add_walker sim walker)
  = dict_set String.eqb walker_name (-1)%Z (__crosses_y sim) /\
  __total_dict (add_walker sim walker)
  = dict_set String.eqb walker_name [] (__total_dict sim) /\
  names_taken (type_ walker :: seen) (__walkers (add_walker sim walker)).
Proof.
  intros Htaken. cbv zeta. unfold names_taken in *.
  destruct (next_index_fresh (type_name (type_ walker)) (__walkers sim))
    as (Hfresh & Hsmall).
  set (index := next_index (List.length (__walkers sim))
                           (type_name (type_ walker)) (__walkers sim) 1) in *.
  assert (Hindex : index = Pos.of_nat (S (count_type (type_ walker) seen))).
  { assert (H1 : ~ (Pos.to_nat index <= count_type (type_ walker) seen)%nat).
    { intros H. apply Htaken in H. congruence. }
    destruct (Pos.ltb_spec (Pos.of_nat (S (count_type (type_ walker) seen))) index)
      as [Hlt|Hge].
    - apply Hsmall, Htaken in Hlt. rewrite Nat2Pos.id in Hlt by lia. lia.
    - apply Pos2Nat.inj. rewrite Nat2Pos.id by lia.
      apply Pos2Nat.inj_le in Hge. rewrite Nat2Pos.id in Hge by lia. lia. }
  unfold add_walker. cbn [__walkers __escape_times __crosses_y __total_dict].
  fold index. rewrite <- Hindex.
  split; [exact Hfresh|].
  split; [now apply dict_set_fresh_app|]. repeat (split; [reflexivity|]).
  rewrite (dict_set_fresh_app _ _ _ Hfresh).
  intros t j. rewrite dict_mem_app, orb_true_iff, Htaken. cbn [count_type].
  unfold dict_mem at 1. cbn [dict_get].
  destruct (String.eqb_spec (type_name t ++ str j) (type_name (type_ walker) ++ str index))
    as [E|E].
  - apply type_name_inj in E as [-> ->].
    rewrite (proj2 (WalkerType_eqb_eq _ _) eq_refl), Hindex, Nat2Pos.id by lia.
    split; [lia | now right].
  - destruct (WalkerType_eqb (type_ walker) t) eqn:Ht.
    + apply WalkerType_eqb_eq in Ht. subst t.
      assert (j <> index) by congruence.
      assert (Pos.to_nat j <> Pos.to_nat index) by (intros Hj; apply Pos2Nat.inj in Hj; congruence).
      rewrite Hindex, Nat2Pos.id in H0 by lia.
      split; [intros [Hj|Hj]; [lia | discriminate] | intros Hj; left; lia].
    + split; [intros [Hj|Hj]; [exact Hj | discriminate] | intros Hj; now left].
Qed.

Lemma tables_match_add_walker (sim : Simulation) (walker : Walker) :
  tables_match_walkers sim -> tables_match_walkers (add_walker sim walker).
Proof.
  unfold tables_match_walkers. intros Hkeys.
  destruct (next_index_fresh (type_name (type_ walker)) (__walkers sim)) as (Hfresh & _).
  unfold add_walker. cbn [__walkers __total_dict].
  rewrite (dict_set_keys_fresh String.eqb _ walker _ Hfresh).
  rewrite dict_set_keys_fresh; [now rewrite Hkeys|].
  destruct (dict_mem String.eqb _ (__total_dict sim)) eqn:E; [|reflexivity].
  apply (dict_mem_In_keys String.eqb String.eqb_eq) in E. rewrite Hkeys in E.
  apply (dict_mem_In_keys String.eqb String.eqb_eq) in E. congruence.
Qed.

Lemma add_walkers_loaded (walkers : list Walker) :
  forall (seen : list WalkerType) (sim : Simulation),
  names_taken seen (__walkers sim) ->
  let sim' := fold_left add_walker walkers sim in
  dict_keys (__walkers sim') = dict_keys (__walkers sim) ++ names_from seen walkers /\
  dict_values (__walkers sim') = dict_values (__walkers sim) ++ walkers /\
  same_layout sim sim' /\
  (tables_match_walkers sim -> tables_match_walkers sim') /\
  (before_run sim -> Forall (fun w => escaped w = false) walkers -> before_run sim') /\
  (ready sim -> Forall (fun w => type_ w <> DirectionalBiasWalker) walkers -> ready sim').
Proof.
  induction walkers as [|w walkers IH]; intros seen sim Htaken; cbv zeta.
  - cbn [fold_left names_from]. rewrite !app_nil_r.
    split; [reflexivity|]. split; [reflexivity|].
    split; [apply same_layout_refl | auto].
  - cbn [fold_left names_from].
    destruct (add_walker_name seen sim w Htaken) as (_ & Hws & _ & _ & _ & Htaken').
    destruct (IH (type_ w :: seen) (add_walker sim w) Htaken')
      as (Hkeys & Hvals & Hlay & Hmatch & Hbefore & Hready).
    rewrite Hkeys, Hvals, Hws. unfold dict_keys, dict_values.
    rewrite !map_app, <- !app_assoc. cbn [map fst snd app].
    split; [reflexivity|]. split; [reflexivity|].
    split; [exact Hlay|].
    split; [intros H; now apply Hmatch, tables_match_add_walker|].
    split.
    + intros Hb Hall. inversion Hall; subst.
      apply Hbefore; [now apply before_run_add_walker | assumption].
    + intros Hr Hall. inversion Hall; subst.
      apply Hready; [now apply ready_add_walker | assumption].
Qed.

Lemma fold_add_obstacle (l : list Obstacle) :
  forall sim, fold_left add_obstacle l sim
  = {| __num_moves := __num_moves sim; __walkers := __walkers sim;
       __obstacles := __obstacles sim ++ l;
       __enchanted_gates := __enchanted_gates sim;
       __escape_times := __escape_times sim; __crosses_y := __crosses_y sim;
       __total_dict := __total_dict sim; __sands := __sands sim;
       __waters := __waters sim; __grasses := __grasses sim;
       __walkers_interaction := __walkers_interaction sim |}.
Proof.
  induction l as [|x l IH]; intros sim; cbn [fold_left].
  - rewrite app_nil_r. now destruct sim.
  - rewrite IH. unfold add_obstacle. cbn. now rewrite <- app_assoc.
Qed.

Lemma fold_add_enchanted_gate (l : list EnchantedGate) :
  forall sim, fold_left add_enchanted_gate l sim
  = {| __num_moves := __num_moves sim; __walkers := __walkers sim;
       __obstacles := __obstacles sim;
       __enchanted_gates := __enchanted_gates sim ++ l;
       __escape_times := __escape_times sim; __crosses_y := __crosses_y sim;
       __total_dict := __total_dict sim; __sands := __sands sim;
       __waters := __waters sim; __grasses := __grasses sim;
       __walkers_interaction := __walkers_interaction sim |}.
Proof.
  induction l as [|x l IH]; intros sim; cbn [fold_left].
  - rewrite app_nil_r. now destruct sim.
  - rewrite IH. unfold add_enchanted_gate. cbn. now rewrite <- app_assoc.
Qed.

Lemma fold_add_water (l : list Water) :
  forall sim, fold_left add_water l sim
  = {| __num_moves := __num_moves sim; __walkers := __walkers sim;
       __obstacles := __obstacles sim;
       __enchanted_gates := __enchanted_gates sim;
       __escape_times := __escape_times sim; __crosses_y := __crosses_y sim;
       __total_dict := __total_dict sim; __sands := __sands sim;
       __waters := __waters sim ++ l; __grasses := __grasses sim;
       __walkers_interaction := __walkers_interaction sim |}.
Proof.
  induction l as [|x l IH]; intros sim; cbn [fold_left].
  - rewrite app_nil_r. now destruct sim.
  - rewrite IH. unfold add_water. cbn. now rewrite <- app_assoc.
Qed.

Lemma fold_add_sand (l : list Sand) :
  forall sim, fold_left add_sand l sim
  = {| __num_moves := __num_moves sim; __walkers := __walkers sim;
       __obstacles := __obstacles sim;
       __enchanted_gates := __enchanted_gates sim;
       __escape_times := __escape_times sim; __crosses_y := __crosses_y sim;
       __total_dict := __total_dict sim; __sands := __sands sim ++ l;
       __waters := __waters sim; __grasses := __grasses sim;
       __walkers_interaction := __walkers_interaction sim |}.
Proof.
  induction l as [|x l IH]; intros sim; cbn [fold_left].
  - rewrite app_nil_r. now destruct sim.
  - rewrite IH. unfold add_sand. cbn. now rewrite <- app_assoc.
Qed.

Lemma fold_add_grass (l : list Grass) :
  forall sim, fold_left add_grass l sim
  = {| __num_moves := __num_moves sim; __walkers := __walkers sim;
       __obstacles := __obstacles sim;
       __enchanted_gates := __enchanted_gates sim;
       __escape_times := __escape_times sim; __crosses_y := __crosses_y sim;
       __total_dict := __total_dict sim; __sands := __sands sim;
       __waters := __waters sim; __grasses := __grasses sim ++ l;
       __walkers_interaction := __walkers_interaction sim |}.
Proof.
  induction l as [|x l IH]; intros sim; cbn [fold_left].
  - rewrite app_nil_r. now destruct sim.
  - rewrite IH. unfold add_grass. cbn. now rewrite <- app_assoc.
Qed.

Section Loading.
Context {polygons : ShapelyPolygons}.

(** X17. When [load_sim_objects] returns on a new simulation, the
    walkers are stored in the order given, each under the name of its
    class followed by its rank among the walkers of its class; the
    obstacles, the gates and the terrains are the lists given, which
    passed [occupied_locations_check]; the budget is the one of the new
    simulation and no interaction is set.  The tables of records are
    those of the walkers; when no walker given has escaped the
    simulation is as it has to be before a run, and without a
    DirectionalBiasWalker it is ready. *)
Theorem load_sim_objects_loads (num_moves : Z) (walkers : list Walker)
  (obstacles : list Obstacle) (gates : list EnchantedGate) (waters : list Water)
  (sands : list Sand) (grasses : list Grass) (sim : Simulation) :
  load_sim_objects walkers obstacles gates waters sands grasses
                   (Simulation_init num_moves) = Some sim ->
  dict_keys (__walkers sim) = names_from [] walkers /\
  dict_values (__walkers sim) = walkers /\
  __num_moves sim = num_moves /\
  __obstacles sim = obstacles /\
  __enchanted_gates sim = gates /\
  __waters sim = waters /\
  __sands sim = sands /\
  __grasses sim = grasses /\
  __walkers_interaction sim = None /\
  occupied_locations_check gates obstacles waters sands grasses = true /\
  tables_match_walkers sim /\
  (Forall (fun w => escaped w = false) walkers -> before_run sim) /\
  (Forall (fun w => type_ w <> DirectionalBiasWalker) walkers -> ready sim).
Proof.
  unfold load_sim_objects. cbv zeta.
  rewrite fold_add_obstacle, fold_add_enchanted_gate, fold_add_water,
    fold_add_sand, fold_add_grass.
  cbn [__num_moves __walkers __obstacles __enchanted_gates __escape_times
       __crosses_y __total_dict __sands __waters __grasses __walkers_interaction].
  assert (Hinit : names_taken [] (__walkers (Simulation_init num_moves))).
  { intros t j. cbn. split; [discriminate | lia]. }
  destruct (add_walkers_loaded walkers [] (Simulation_init num_moves) Hinit)
    as (Hkeys & Hvals & Hlay & Hmatch & Hbefore & Hready).
  destruct Hlay as (H1 & H2 & H3 & H4 & H5 & H6 & H7).
  rewrite H2, H3, H4, H5, H6. cbn [Simulation_init __obstacles __enchanted_gates
    __sands __waters __grasses app].
  destruct (occupied_locations_check gates obstacles waters sands grasses) eqn:Hcheck;
    [|discriminate].
  intros H. injection H as <-.
  cbn [__num_moves __walkers __obstacles __enchanted_gates __escape_times
       __crosses_y __total_dict __sands __waters __grasses __walkers_interaction].
  split; [exact Hkeys|]. split; [exact Hvals|]. split; [exact H1|].
  repeat (split; [reflexivity|]). split; [exact H7|]. split; [reflexivity|].
  split; [apply Hmatch; reflexivity|]. split.
  - intros Hall. apply (Hbefore (before_run_init num_moves)) in Hall.
    exact Hall.
  - intros Hall. apply (Hready (ready_init num_moves)) in Hall.
    destruct Hall as [Hnone Hall]. split; [exact H7 | exact Hall].
Qed.
End Loading.

Lemma load_sim_objects_loads_witness :
  exists sim,
    @load_sim_objects box_polygons
      [Walker_init StraightWalker; Walker_init MemoryWalker; Walker_init StraightWalker]
      [] [] [] [] [] (Simulation_init 3) = Some sim /\
    dict_keys (__walkers sim)
    = ["StraightWalker1"; "MemoryWalker1"; "StraightWalker2"]%string.
Proof.
  eexists. split; [vm_compute; reflexivity|].
  apply (@load_sim_objects_loads box_polygons 3
           [Walker_init StraightWalker; Walker_init MemoryWalker;
            Walker_init StraightWalker] [] [] [] [] []).
  vm_compute. reflexivity.
Defined.

(** ** The loop of main.py over the simulations *)

Section MainLoop.
Context {math : MathLib} {shapely : Shapely}.



End MainLoop.


(** ** The statistics the loop of main.py accumulates *)

Lemma NoDup_get_In {V : Type} (k : string) (v : V) (d : dict string V) :
  NoDup (dict_keys d) ->
  In (k, v) d <-> dict_get String.eqb k d = Some v.
Proof.
  induction d as [|[k' v'] d IH]; intros Hnd; cbn [In dict_get].
  - split; [intros [] | discriminate].
  - inversion Hnd as [|? ? Hnotin Hnd']; subst.
    destruct (String.eqb_spec k k') as [->|Hne].
    + split.
      * intros [H|H]; [congruence|].
        exfalso. apply Hnotin. apply (in_map fst) in H. exact H.
      * intros H. left. congruence.
    + rewrite <- (IH Hnd'). split; [intros [H|H]; [congruence | exact H] | auto].
Qed.

Lemma dict_set_keys_NoDup {V : Type} (k : string) (v : V) (d : dict string V) :
  NoDup (dict_keys d) -> NoDup (dict_keys (dict_set String.eqb k v d)).
Proof.
  intros Hnd. destruct (dict_mem String.eqb k d) eqn:E.
  - rewrite dict_set_keys_present; [exact Hnd|].
    unfold dict_mem in E. destruct (dict_get String.eqb k d); congruence.
  - rewrite dict_set_keys_fresh by exact E.
    apply NoDup_app; [exact Hnd | repeat constructor; intros [] |].
    intros x Hx [<-|[]].
    apply (dict_mem_In_keys String.eqb String.eqb_eq) in Hx. congruence.
Qed.

Lemma load_to_dict_keys_NoDup (dicti : dict string (dict Z StepRecord)) (i : Z) :
  forall total : dict string (dict Z (dict Z StepRecord)),
  NoDup (dict_keys total) ->
  NoDup (dict_keys (Statistics.__total_dict
           (Statistics.load_to_dict {| Statistics.__total_dict := total |} dicti i))).
Proof.
  unfold Statistics.load_to_dict. cbn [Statistics.__total_dict].
  induction dicti as [|[k v] dicti IH]; intros total Hnd; [exact Hnd|].
  cbn [fold_left fst snd]. apply IH.
  destruct (dict_get String.eqb k total); now apply dict_set_keys_NoDup.
Qed.

Lemma Forall_dict_set {V : Type} (P : Z * V -> Prop) (k : Z) (v : V) (d : dict Z V) :
  Forall P d -> P (k, v) -> Forall P (dict_set Z.eqb k v d).
Proof.
  intros Hall Hnew. induction d as [|[k' v'] d IH]; cbn [dict_set].
  - now constructor.
  - inversion Hall; subst. destruct (Z.eqb_spec k k') as [->|Hne].
    + now constructor.
    + constructor; auto.
Qed.

Lemma dict_set_not_nil {V : Type} (k : Z) (v : V) (d : dict Z V) :
  dict_set Z.eqb k v d <> [].
Proof. destruct d as [|[k' v'] d]; simpl; [|destruct (Z.eqb k k')]; discriminate. Qed.

Section MainStatistics.
Context {math : MathLib} {shapely : Shapely}.

Lemma walker_turn_table_keys (i : Z) (sim sim' : Simulation) (walker_name : string)
  (ok : bool) (r r' : Rng) :
  walker_turn i sim walker_name r = Ok ((ok, sim'), r') ->
  dict_keys (__total_dict sim') = dict_keys (__total_dict sim).
Proof.
  intros H.
  apply walker_turn_Ok in H as (w1 & r1 & w2 & r2 & _ & Hrest).
  destruct Hrest as [(_ & _ & -> & _)|(_ & _ & sim3 & w3 & Hbook & ->)];
    [reflexivity|].
  apply bookkeeping_frame in Hbook as (_ & table & record & Htable & Htotal).
  unfold store_walker. cbn [__total_dict set_walkers]. rewrite Htotal.
  apply dict_set_keys_present. congruence.
Qed.

Lemma turns_table_keys (sched : list (Z * string)) :
  forall (sim sim' : Simulation) (ok : bool) (r r' : Rng),
  turns sched sim r = Ok ((ok, sim'), r') ->
  dict_keys (__total_dict sim') = dict_keys (__total_dict sim).
Proof.
  induction sched as [|[i name] sched IH]; intros sim sim' ok r r' H.
  - apply ret_Ok in H as [H _]. now injection H as _ <-.
  - cbn [turns] in H.
    apply bind_Ok in H as ([ok1 sim1] & r1 & Hturn & H).
    apply walker_turn_table_keys in Hturn.
    destruct ok1.
    + apply IH in H. congruence.
    + apply ret_Ok in H as [H _]. injection H as _ <-. exact Hturn.
Qed.

(** One pass of the loop keeps the statistics in line. *)
Lemma export_keeps_statistics (sim sim1 : Simulation) (r r1 : Rng)
  (stats : Statistics.Statistics) (i : Z) (P : Z -> Prop) :
  before_run sim ->
  tables_match_walkers sim ->
  run_simulation sim r = Ok ((true, sim1), r1) ->
  P i ->
  statistics_of_runs (dict_keys (__walkers sim)) (Z.to_nat (__num_moves sim)) P stats ->
  statistics_of_runs (dict_keys (__walkers sim)) (Z.to_nat (__num_moves sim)) P
                     (export_to_statistics sim1 stats i).
Proof.
  intros Hbefore Hmatch Hrun Hi [Hnd Hall].
  pose proof Hrun as Hturns. rewrite run_simulation_turns in Hturns.
  pose proof (turns_table_keys _ _ _ _ _ _ Hturns) as Htk.
  pose proof (turns_frame _ _ _ _ _ _ Hturns) as (Hwk & _).
  assert (Hdnd : NoDup (dict_keys (__total_dict sim1))).
  { rewrite Htk, Hmatch. apply Hbefore. }
  unfold export_to_statistics. destruct stats as [total].
  cbn [Statistics.__total_dict] in *. split.
  - now apply load_to_dict_keys_NoDup.
  - intros walker runs. rewrite load_to_dict_get by exact Hdnd.
    destruct (dict_get String.eqb walker (__total_dict sim1)) as [data|] eqn:Hdata;
      [|apply Hall].
    intros H. injection H as <-.
    assert (Hname : In walker (dict_keys (__walkers sim))).
    { rewrite <- Hmatch, <- Htk.
      apply (dict_get_In_keys String.eqb String.eqb_eq). congruence. }
    split; [exact Hname|]. split; [apply dict_set_not_nil|].
    apply Forall_dict_set.
    + destruct (dict_get String.eqb walker total) as [old|] eqn:Hold;
        [|constructor]. now apply (Hall walker old).
    + cbn [fst snd]. split; [exact Hi|]. split.
      * exists sim, sim1, r, r1, walker. auto.
      * destruct (run_simulation_states sim sim1 r r1 Hbefore Hrun walker Hname)
          as (w & et & table & _ & _ & Htable & Hkeys & _).
        congruence.
Qed.

Lemma main_loop_statistics_of_runs (P : Z -> Prop) (indices : list Z) :
  forall (sim sim' : Simulation) (stats stats' : Statistics.Statistics) (r r' : Rng),
  before_run sim ->
  tables_match_walkers sim ->
  (forall i, In i indices -> P i) ->
  statistics_of_runs (dict_keys (__walkers sim)) (Z.to_nat (__num_moves sim)) P stats ->
  main_loop indices sim stats r = Ok ((sim', stats'), r') ->
  statistics_of_runs (dict_keys (__walkers sim)) (Z.to_nat (__num_moves sim)) P stats'.
Proof.
  induction indices as [|i indices IH];
    intros sim sim' stats stats' r r' Hbefore Hmatch HP Hstats H.
  - apply ret_Ok in H as [H _]. now injection H as _ <-.
  - cbn [main_loop] in H.
    apply bind_Ok in H as ([ok sim1] & r1 & Hrun & H).
    pose proof Hrun as Hturns. rewrite run_simulation_turns in Hturns.
    pose proof (turns_frame _ _ _ _ _ _ Hturns) as (Hwk & _).
    pose proof (turns_keep _ _ _ _ _ _ Hturns) as [(Hmoves & _) _].
    assert (Hkeys : dict_keys (__walkers (reset sim1)) = dict_keys (__walkers sim)).
    { rewrite <- Hwk. apply dict_keys_map_values. }
    assert (Hn : __num_moves (reset sim1) = __num_moves sim) by exact Hmoves.
    rewrite <- Hkeys, <- Hn.
    apply (IH (reset sim1) sim'
             (if ok then export_to_statistics sim1 stats i else stats) stats' r1 r');
      [| | | |exact H].
    + apply before_run_reset. rewrite Hwk. apply Hbefore.
    + apply tables_match_reset.
    + intros j Hj. apply HP. now right.
    + rewrite Hkeys, Hn. destruct ok; [|exact Hstats].
      apply (export_keeps_statistics sim sim1 r r1); auto.
      apply HP. now left.
Qed.

(** X19. In the loop of main over the simulations, started with empty
    statistics on a simulation that is as it has to be before a run, the
    statistics hold tables for walkers of the simulation only, under
    distinct names; every table they hold for a walker is filed under one
    of the indices of the loop and is the table of records of a run that
    returned True, with the records of the steps 1 .. N of the budget in
    order. *)
Theorem main_loop_statistics (indices : list Z) (sim sim' : Simulation)
  (stats : Statistics.Statistics) (r r' : Rng) :
  before_run sim ->
  tables_match_walkers sim ->
  main_loop indices sim Statistics.init r = Ok ((sim', stats), r') ->
  NoDup (dict_keys (Statistics.__total_dict stats)) /\
  forall walker runs,
    In (walker, runs) (Statistics.__total_dict stats) ->
    In walker (dict_keys (__walkers sim)) /\
    runs_of_length (Z.to_nat (__num_moves sim)) runs /\
    Forall recorded (dict_values runs) /\
    Forall (fun i => In i indices) (dict_keys runs).
Proof.
  intros Hbefore Hmatch H.
  assert (Hinit : statistics_of_runs (dict_keys (__walkers sim))
                    (Z.to_nat (__num_moves sim)) (fun i => In i indices)
                    Statistics.init).
  { split; [constructor | intros walker runs Hget; discriminate]. }
  destruct (main_loop_statistics_of_runs (fun i => In i indices) indices
              sim sim' Statistics.init stats r r' Hbefore Hmatch
              (fun i Hi => Hi) Hinit H) as [Hnd Hall].
  split; [exact Hnd|].
  intros walker runs Hin. apply (NoDup_get_In _ _ _ Hnd) in Hin.
  destruct (Hall walker runs Hin) as (Hname & Hne & Hruns).
  split; [exact Hname|]. unfold runs_of_length, dict_values, dict_keys.
  rewrite !Forall_map. split; [split; [exact Hne|]|split];
    (eapply Forall_impl; [|exact Hruns]); cbn beta; intros item (H1 & H2 & H3);
    assumption.
Qed.
End MainStatistics.

Lemma short_sim_matches : tables_match_walkers short_sim.
Proof. vm_compute. reflexivity. Qed.

Lemma main_loop_statistics_witness :
  exists sim' stats r',
    @main_loop rational_math box_shapely [1; 2]%Z short_sim Statistics.init
               (constant_rng 0)
    = Ok ((sim', stats), r') /\
    NoDup (dict_keys (Statistics.__total_dict stats)).
Proof.
  let v := eval vm_compute in
    (@main_loop rational_math box_shapely [1; 2]%Z short_sim Statistics.init
                (constant_rng 0)) in
  match v with
  | Ok ((?s, ?st), ?r) =>
      assert (E : @main_loop rational_math box_shapely [1; 2]%Z short_sim
                    Statistics.init (constant_rng 0) = Ok ((s, st), r))
        by (vm_compute; reflexivity);
      exists s, st, r; split; [exact E|];
      exact (proj1 (@main_loop_statistics rational_math box_shapely _ _ _ _ _ _
                      before_run_short_sim short_sim_matches E))
  end.
Defined.

(** ** Invariants of a run, walker by walker *)

Section RunInvariant.
Context {math : MathLib} {shapely : Shapely}.
Variable P : Simulation -> string -> nat -> Prop.
Hypothesis P_others :
  forall i sim sim' walker_name ok r r' other m,
    walker_turn i sim walker_name r = Ok ((ok, sim'), r') ->
    other <> walker_name -> P sim other m -> P sim' other m.
Hypothesis P_own :
  forall m sim sim' walker_name r r',
    walker_turn (1 + Z.of_nat m) sim walker_name r = Ok ((true, sim'), r') ->
    P sim walker_name m -> P sim' walker_name (S m).

Lemma step_turns_invariant (m : nat) (todo : list string) :
  forall (sim sim' : Simulation) (r r' : Rng),
  NoDup todo ->
  turns (map (pair (1 + Z.of_nat m)%Z) todo) sim r = Ok ((true, sim'), r') ->
  (forall name, In name todo -> P sim name m) ->
  (forall name, In name todo -> P sim' name (S m)) /\
  (forall name k, ~ In name todo -> P sim name k -> P sim' name k).
Proof.
  induction todo as [|name todo IH]; intros sim sim' r r' Hnd H Hpre.
  - apply ret_Ok in H as [H _]. injection H as <-.
    split; [intros name [] | auto].
  - inversion Hnd as [|? ? Hnotin Hnd']; subst.
    cbn [map turns] in H.
    apply bind_Ok in H as ([ok sim1] & r1 & Hturn & H).
    destruct ok; [|apply ret_Ok in H as [H _]; discriminate].
    pose proof (P_own _ _ _ _ _ _ Hturn (Hpre name (or_introl eq_refl))) as Hown.
    destruct (IH sim1 sim' r1 r' Hnd' H) as [Hdone Hframe].
    { intros n Hn. apply (P_others _ _ _ _ _ _ _ n m Hturn).
      - intros ->. contradiction.
      - apply Hpre. now right. }
    split.
    + intros n [<-|Hn]; [apply Hframe; assumption | apply Hdone, Hn].
    + intros n k Hn Hk. apply Hframe; [intros Hin; apply Hn; now right|].
      apply (P_others _ _ _ _ _ _ _ n k Hturn); [|assumption].
      intros ->. apply Hn. now left.
Qed.

Lemma moves_loop_invariant (n : nat) :
  forall (m : nat) (sim sim' : Simulation) (r r' : Rng),
  NoDup (dict_keys (__walkers sim)) ->
  moves_loop (steps_from (1 + Z.of_nat m) n) sim r = Ok ((true, sim'), r') ->
  (forall name, In name (dict_keys (__walkers sim)) -> P sim name m) ->
  forall name, In name (dict_keys (__walkers sim)) -> P sim' name (m + n).
Proof.
  induction n as [|n IH]; intros m sim sim' r r' Hnd H Hpre name Hname.
  - apply ret_Ok in H as [H _]. injection H as <-.
    rewrite Nat.add_0_r. auto.
  - cbn [steps_from moves_loop] in H.
    apply bind_Ok in H as ([ok sim1] & r1 & Hstep & H).
    destruct ok; [|apply ret_Ok in H as [H _]; discriminate].
    rewrite walkers_loop_turns in Hstep.
    pose proof (turns_frame _ _ _ _ _ _ Hstep) as (Hkeys & _).
    destruct (step_turns_invariant m _ _ _ _ _ Hnd Hstep Hpre) as [Hdone _].
    replace (1 + Z.of_nat m + 1)%Z with (1 + Z.of_nat (S m))%Z in H by lia.
    replace (m + S n)%nat with (S m + n)%nat by lia.
    apply (IH (S m) sim1 sim' r1 r'); rewrite ?Hkeys; auto.
Qed.

Lemma run_simulation_invariant (sim sim' : Simulation) (r r' : Rng) :
  NoDup (dict_keys (__walkers sim)) ->
  run_simulation sim r = Ok ((true, sim'), r') ->
  (forall name, In name (dict_keys (__walkers sim)) -> P sim name 0) ->
  forall name, In name (dict_keys (__walkers sim)) ->
    P sim' name (Z.to_nat (__num_moves sim)).
Proof.
  intros Hnd H Hpre name Hname.
  unfold run_simulation, range1 in H.
  rewrite <- (steps_from_seq 1) in H.
  exact (moves_loop_invariant _ 0 sim sim' r r' Hnd H Hpre name Hname).
Qed.
End RunInvariant.

(** ** The bookkeeping of a step, in full *)

Section BookkeepingFacts.
Context {math : MathLib} {shapely : Shapely}.

Lemma crosses_y_axis_test (w : Walker) :
  crosses_y_axis w
  = crossing_test (fst (get_prev_location w)) (fst (get_location w)).
Proof. reflexivity. Qed.

(** What the three calls at the end of a turn do to the crossing counter
    and to the table of the walker *)
Lemma bookkeeping_record (i : Z) (sim sim' : Simulation) (walker_name : string)
  (w w' : Walker) (r r' : Rng) :
  bookkeeping i sim walker_name w r = Ok ((sim', w'), r') ->
  exists c table record,
    dict_get String.eqb walker_name (__crosses_y sim) = Some c /\
    dict_get String.eqb walker_name (__total_dict sim) = Some table /\
    dict_get String.eqb walker_name (__crosses_y sim')
    = Some (if crosses_y_axis w then c + 1 else c)%Z /\
    (forall k, k <> walker_name ->
       dict_get String.eqb k (__crosses_y sim') = dict_get String.eqb k (__crosses_y sim)) /\
    dict_get String.eqb walker_name (__total_dict sim')
    = Some (dict_set Z.eqb i record table) /\
    locations record = get_location w /\
    y_crosses record = Z.max 0 (if crosses_y_axis w then c + 1 else c) /\
    distance_from_origin record
    = sqrt (fst (get_location w) ^ 2 + snd (get_location w) ^ 2) /\
    distance_from_x record = Qabs (snd (get_location w)) /\
    distance_from_y record = Qabs (fst (get_location w)).
Proof.
  unfold bookkeeping, Simulation_escape_check. intros H.
  destruct (escape_check_walker w) as (Hp & Hl & _).
  destruct (escape_check w) as [esc w1]. cbn [snd] in Hp, Hl.
  assert (Hcross : crosses_y_axis w1 = crosses_y_axis w).
  { rewrite !crosses_y_axis_test. now rewrite Hp, Hl. }
  assert (Hgen : forall sim1,
    __crosses_y sim1 = __crosses_y sim -> __total_dict sim1 = __total_dict sim ->
    (sim2 <- cross_y_check sim1 walker_name w1 ;;
     simulation_results_update sim2 walker_name w1 i) r = Ok ((sim', w'), r') ->
    exists c table record,
      dict_get String.eqb walker_name (__crosses_y sim) = Some c /\
      dict_get String.eqb walker_name (__total_dict sim) = Some table /\
      dict_get String.eqb walker_name (__crosses_y sim')
      = Some (if crosses_y_axis w then c + 1 else c)%Z /\
      (forall k, k <> walker_name ->
         dict_get String.eqb k (__crosses_y sim')
         = dict_get String.eqb k (__crosses_y sim)) /\
      dict_get String.eqb walker_name (__total_dict sim')
      = Some (dict_set Z.eqb i record table) /\
      locations record = get_location w /\
      y_crosses record = Z.max 0 (if crosses_y_axis w then c + 1 else c) /\
      distance_from_origin record
      = sqrt (fst (get_location w) ^ 2 + snd (get_location w) ^ 2) /\
      distance_from_x record = Qabs (snd (get_location w)) /\
      distance_from_y record = Qabs (fst (get_location w))).
  { intros sim1 Hc1 Ht1 H1.
    apply bind_Ok in H1 as (sim2 & r2 & Hcy & H1).
    assert (Hsome : exists c, dict_get String.eqb walker_name (__crosses_y sim1) = Some c).
    { unfold cross_y_check in Hcy. destruct (crosses_y_axis w1).
      - apply bind_Ok in Hcy as (c & r3 & Hc & _).
        apply subscript_Ok in Hc as [Hc _]. eauto.
      - apply ret_Ok in Hcy as [<- _].
        unfold simulation_results_update in H1.
        destruct (escape_check w1) as [esc1 w2].
        apply bind_Ok in H1 as (et1 & r3 & _ & H1).
        apply bind_Ok in H1 as (c & r4 & Hc & _).
        apply subscript_Ok in Hc as [Hc _]. eauto. }
    destruct Hsome as [c Hc].
    destruct (cross_y_check_counter sim1 walker_name w1 c r Hc)
      as (sim2' & Hcy' & Hc2 & _ & _ & Ht2 & Hothers).
    rewrite Hcy' in Hcy. injection Hcy as <- <-.
    unfold simulation_results_update in H1.
    destruct (escape_check_walker w1) as (_ & Hl1 & _).
    destruct (escape_check w1) as [esc1 w2]. cbn [snd] in Hl1.
    apply bind_Ok in H1 as (et1 & r3 & _ & H1).
    apply bind_Ok in H1 as (c2 & r4 & Hc2' & H1).
    apply bind_Ok in H1 as (table & r5 & Htable & H1).
    apply ret_Ok in H1 as [H1 _]. injection H1 as <- <-.
    apply subscript_Ok in Hc2' as [Hc2' _].
    apply subscript_Ok in Htable as [Htable _].
    unfold get_crosses_y in Hc2'. rewrite Hc2 in Hc2'. injection Hc2' as <-.
    rewrite Hcross in *. rewrite Hc1 in *. rewrite Ht2, Ht1 in Htable.
    exists c, table. eexists.
    split; [exact Hc|]. split; [exact Htable|].
    cbn [__crosses_y __total_dict set_total_dict].
    split; [exact Hc2|]. split; [exact Hothers|].
    split; [rewrite Ht2, Ht1; apply dict_get_set_eq, String.eqb_eq|].
    cbn [locations y_crosses distance_from_origin distance_from_x distance_from_y].
    assert (Hxy : _x w2 = _x w /\ _y w2 = _y w)
      by (unfold get_location in Hl, Hl1; split; congruence).
    destruct Hxy as [-> ->]. rewrite Hl. repeat split; reflexivity. }
  destruct (negb esc); apply Hgen in H; auto.
Qed.

(** What the turn of a walker leaves of the entries of another walker *)
Lemma walker_turn_entries (i : Z) (sim sim' : Simulation) (walker_name : string)
  (ok : bool) (r r' : Rng) (other : string) :
  walker_turn i sim walker_name r = Ok ((ok, sim'), r') ->
  other <> walker_name ->
  dict_get String.eqb other (__walkers sim') = dict_get String.eqb other (__walkers sim) /\
  dict_get String.eqb other (__crosses_y sim') = dict_get String.eqb other (__crosses_y sim) /\
  dict_get String.eqb other (__total_dict sim')
  = dict_get String.eqb other (__total_dict sim).
Proof.
  intros H Hne.
  apply walker_turn_Ok in H as (w1 & r1 & w2 & r2 & _ & Hcases).
  destruct Hcases as [(_ & _ & -> & _)|(_ & _ & sim3 & w3 & Hbook & ->)];
    unfold store_walker; cbn [__walkers __crosses_y __total_dict set_walkers].
  - rewrite dict_get_set_ne by auto using String.eqb_eq. auto.
  - pose proof (bookkeeping_frame _ _ _ _ _ _ _ _ Hbook) as (Hws & _).
    destruct (bookkeeping_others _ _ _ _ _ _ _ _ Hbook other Hne) as [_ Htot].
    destruct (bookkeeping_record _ _ _ _ _ _ _ _ Hbook)
      as (c & table & record & _ & _ & _ & Hothers & _).
    rewrite dict_get_set_ne by auto using String.eqb_eq.
    rewrite Hws, Htot, (Hothers other Hne). auto.
Qed.

(** The walker that the bookkeeping of a turn sees, and what the turn
    stores *)
Lemma walker_turn_record (i : Z) (sim sim' : Simulation) (walker_name : string)
  (r r' : Rng) :
  walker_turn i sim walker_name r = Ok ((true, sim'), r') ->
  exists w0 wg w3 c table record,
    dict_get String.eqb walker_name (__walkers sim) = Some w0 /\
    dict_get String.eqb walker_name (__crosses_y sim) = Some c /\
    dict_get String.eqb walker_name (__total_dict sim) = Some table /\
    dict_get String.eqb walker_name (__walkers sim') = Some w3 /\
    get_location w3 = get_location wg /\
    type_ w3 = type_ w0 /\
    (__walkers_interaction sim = None -> type_ w0 <> BaseWalker ->
     get_prev_location wg = get_location w0) /\
    dict_get String.eqb walker_name (__crosses_y sim')
    = Some (if crosses_y_axis wg then c + 1 else c)%Z /\
    dict_get String.eqb walker_name (__total_dict sim')
    = Some (dict_set Z.eqb i record table) /\
    locations record = get_location wg /\
    y_crosses record = Z.max 0 (if crosses_y_axis wg then c + 1 else c) /\
    distance_from_origin record
    = sqrt (fst (get_location wg) ^ 2 + snd (get_location wg) ^ 2) /\
    distance_from_x record = Qabs (snd (get_location wg)) /\
    distance_from_y record = Qabs (fst (get_location wg)).
Proof.
  intros H.
  apply walker_turn_Ok in H as (w1 & r1 & w2 & r2 & Hfirst & Hcases).
  destruct Hcases as [(_ & Hok & _)|(Hloop & _ & sim3 & w3 & Hbook & ->)];
    [discriminate|].
  apply first_move_Ok in Hfirst as (w0 & wm & Hget & Hmove & ->).
  set (wg := gate_check sim (if isinstance w2 MemoryWalker then update_memory w2 else w2))
    in *.
  destruct (bookkeeping_record _ _ _ _ _ _ _ _ Hbook)
    as (c & table & record & Hc & Htable & Hc' & _ & Htable' & Hrec).
  pose proof (bookkeeping_walker _ _ _ _ _ _ _ _ Hbook) as (_ & Hloc3 & _).
  pose proof (bookkeeping_layout _ _ _ _ _ _ _ _ Hbook) as (_ & Ht3 & _).
  exists w0, wg, w3, c, table, record.
  unfold store_walker. cbn [__walkers __crosses_y __total_dict set_walkers].
  split; [exact Hget|]. split; [exact Hc|]. split; [exact Htable|].
  split; [apply dict_get_set_eq, String.eqb_eq|]. split; [exact Hloc3|].
  pose proof (choose_move_class _ _ _ _ _ _ Hmove) as [Htm _].
  pose proof (collision_loop_class _ _ _ _ _ _ _ _ Hloop) as [Ht2 _].
  rewrite handle_terrain_type in Ht2.
  assert (Htg : type_ wg = type_ w2).
  { unfold wg, gate_check. now rewrite gate_loop_type, refresh_type. }
  split; [congruence|]. split.
  - intros Hnone Hbase. unfold choose_move in Hmove. rewrite Hnone in Hmove.
    apply move_snapshots in Hmove as [Hpm _]; [|exact Hbase].
    apply collision_loop_prev in Hloop as [Hp2 _];
      [|exact Hnone|rewrite handle_terrain_type; congruence].
    rewrite handle_terrain_prev in Hp2.
    unfold wg, gate_check. rewrite gate_loop_prev, refresh_prev. congruence.
  - split; [exact Hc'|]. split; [exact Htable'|]. exact Hrec.
Qed.
End BookkeepingFacts.

(** ** The records of a run, field by field *)

Lemma table_snoc (m : nat) (table : dict Z StepRecord) (record : StepRecord) :
  dict_keys table = steps_from 1 m ->
  dict_set Z.eqb (1 + Z.of_nat m)%Z record table = table ++ [((1 + Z.of_nat m)%Z, record)] /\
  dict_keys (table ++ [((1 + Z.of_nat m)%Z, record)]) = steps_from 1 (S m) /\
  dict_values (table ++ [((1 + Z.of_nat m)%Z, record)]) = dict_values table ++ [record] /\
  trace (table ++ [((1 + Z.of_nat m)%Z, record)]) = trace table ++ [locations record].
Proof.
  intros Hkeys.
  assert (Hlt : Forall (fun k => (k < 1 + Z.of_nat m)%Z) (dict_keys table)).
  { rewrite Hkeys. apply steps_from_lt. }
  split; [apply (dict_set_append _ _ _ Hlt)|].
  unfold trace, dict_keys, dict_values. rewrite !map_app. cbn [map fst snd].
  fold (dict_keys table). rewrite Hkeys, steps_from_snoc. auto.
Qed.

Lemma last_cons {A} (a d : A) (l : list A) : last (a :: l) d = last l a.
Proof.
  revert a d. induction l as [|b l IH]; intros a d; [reflexivity|].
  change (last (a :: b :: l) d) with (last (b :: l) d).
  now rewrite (IH b d), (IH b a).
Qed.

Lemma last_snoc {A} (l : list A) (a d : A) : last (l ++ [a]) d = a.
Proof. apply last_last. Qed.

Lemma crossing_counter_snoc (xs : list Q) (x : Q) :
  forall (c : Z) (x_prev : Q),
  crossing_counter c x_prev (xs ++ [x])
  = (if crossing_test (last xs x_prev) x
     then crossing_counter c x_prev xs + 1
     else crossing_counter c x_prev xs)%Z.
Proof.
  induction xs as [|y xs IH]; intros c x_prev; [reflexivity|].
  cbn [app crossing_counter]. rewrite IH, last_cons. reflexivity.
Qed.

Lemma crossing_fields_snoc (xs : list Q) (x : Q) :
  forall (c : Z) (x_prev : Q),
  crossing_fields c x_prev (xs ++ [x])
  = crossing_fields c x_prev xs ++ [Z.max 0 (crossing_counter c x_prev (xs ++ [x]))].
Proof.
  induction xs as [|y xs IH]; intros c x_prev; [reflexivity|].
  cbn [app crossing_fields crossing_counter]. now rewrite IH.
Qed.

Section RecordFacts.
Context {math : MathLib} {shapely : Shapely}.

Lemma sound_after_others (i : Z) (sim sim' : Simulation) (walker_name : string)
  (ok : bool) (r r' : Rng) (other : string) (m : nat) :
  walker_turn i sim walker_name r = Ok ((ok, sim'), r') ->
  other <> walker_name -> sound_after sim other m -> sound_after sim' other m.
Proof.
  intros H Hne (w & table & Hw & Ht & Hrest).
  destruct (walker_turn_entries _ _ _ _ _ _ _ other H Hne) as (Hws & _ & Htot).
  exists w, table. rewrite Hws, Htot. auto.
Qed.

Lemma sound_after_own (m : nat) (sim sim' : Simulation) (walker_name : string)
  (r r' : Rng) :
  walker_turn (1 + Z.of_nat m) sim walker_name r = Ok ((true, sim'), r') ->
  sound_after sim walker_name m -> sound_after sim' walker_name (S m).
Proof.
  intros H (w & table & Hw & Ht & Hkeys & Hsound & _).
  destruct (walker_turn_record _ _ _ _ _ _ H)
    as (w0 & wg & w3 & c & table0 & record & _ & _ & Ht0 & Hw3 & Hloc3 & _ & _ & _
        & Ht' & Hl & Hy & Hd & Hdx & Hdy).
  assert (table0 = table) by congruence. subst table0.
  destruct (table_snoc m table record Hkeys) as (Hset & Hkeys' & Hvals & Htrace).
  rewrite Hset in Ht'.
  exists w3, (table ++ [((1 + Z.of_nat m)%Z, record)]).
  split; [exact Hw3|]. split; [exact Ht'|]. split; [exact Hkeys'|]. split.
  - rewrite Hvals. apply Forall_app. split; [exact Hsound|].
    constructor; [|constructor]. unfold record_is_sound.
    rewrite Hl, Hd, Hdx, Hdy, Hy. repeat split; try reflexivity. lia.
  - intros _. rewrite Htrace, last_snoc, Hl. exact Hloc3.
Qed.

(** X20. In a run that went through, every record of every walker is
    sound: its distance from the origin is the root of the sum of the
    squares of the coordinates of its location, its 'distance from x' is
    the absolute value of the ordinate, its 'distance from y' the
    absolute value of the abscissa, and its crossing count is not
    negative.  After a run of at least one step the walker is where its
    last record says. *)
Theorem records_are_sound (sim sim' : Simulation) (r r' : Rng) (walker_name : string) :
  before_run sim ->
  run_simulation sim r = Ok ((true, sim'), r') ->
  In walker_name (dict_keys (__walkers sim)) ->
  exists w records,
    dict_get String.eqb walker_name (__walkers sim') = Some w /\
    dict_get String.eqb walker_name (__total_dict sim') = Some records /\
    Forall record_is_sound (dict_values records) /\
    (records <> [] -> get_location w = last (trace records) (0, 0)).
Proof.
  intros [Hnd Hfresh] Hrun Hname.
  destruct (run_simulation_invariant sound_after sound_after_others sound_after_own
              sim sim' r r' Hnd Hrun) with (name := walker_name)
    as (w & table & Hw & Ht & Hkeys & Hsound & Hlast); [|exact Hname|].
  - intros n Hn. apply (dict_get_In_keys String.eqb String.eqb_eq) in Hn.
    destruct (dict_get String.eqb n (__walkers sim)) as [w|] eqn:Hw; [|congruence].
    destruct (Hfresh n w Hw) as (_ & _ & Ht).
    exists w, []. repeat split; auto. congruence.
  - exists w, table. repeat split; auto.
    intros Hne. apply Hlast. intros Hz. apply Hne.
    rewrite Hz in Hkeys. now destruct table.
Qed.

Lemma crossings_after_others (sim0 : Simulation) (i : Z) (sim sim' : Simulation)
  (walker_name : string) (ok : bool) (r r' : Rng) (other : string) (m : nat) :
  walker_turn i sim walker_name r = Ok ((ok, sim'), r') ->
  other <> walker_name ->
  crossings_after sim0 sim other m -> crossings_after sim0 sim' other m.
Proof.
  intros H Hne (Hnone & w0 & w & c & table & Hw0 & Hw & Hrest).
  destruct (walker_turn_entries _ _ _ _ _ _ _ other H Hne) as (Hws & Hcs & Htot).
  apply walker_turn_keeps in H as [(_ & _ & _ & _ & _ & _ & Hint) _].
  split; [congruence|].
  exists w0, w, c, table. rewrite Hws, Hcs, Htot. auto.
Qed.

Lemma crossings_after_own (sim0 : Simulation) (m : nat) (sim sim' : Simulation)
  (walker_name : string) (r r' : Rng) :
  walker_turn (1 + Z.of_nat m) sim walker_name r = Ok ((true, sim'), r') ->
  crossings_after sim0 sim walker_name m -> crossings_after sim0 sim' walker_name (S m).
Proof.
  intros H (Hnone & w0 & w & c & table & Hw0 & Hw & Hbase & Hc & Ht & Hkeys
            & Hx & Hcount & Hfields).
  destruct (walker_turn_record _ _ _ _ _ _ H)
    as (w1 & wg & w3 & c1 & table1 & record & Hw1 & Hc1 & Ht1 & Hw3 & Hloc3 & Ht3
        & Hprev & Hc' & Ht' & Hl & Hy & _).
  assert (w1 = w) by congruence. assert (c1 = c) by congruence.
  assert (table1 = table) by congruence. subst w1 c1 table1.
  specialize (Hprev Hnone Hbase).
  destruct (table_snoc m table record Hkeys) as (Hset & Hkeys' & Hvals & Htrace).
  rewrite Hset in Ht'.
  apply walker_turn_keeps in H as [(_ & _ & _ & _ & _ & _ & Hint) _].
  split; [congruence|].
  exists w0, w3, (if crosses_y_axis wg then c + 1 else c)%Z,
    (table ++ [((1 + Z.of_nat m)%Z, record)]).
  split; [exact Hw0|]. split; [exact Hw3|]. split; [congruence|].
  split; [exact Hc'|]. split; [exact Ht'|]. split; [exact Hkeys'|].
  rewrite Htrace, map_app, Hl. cbn [map].
  assert (Htest : crosses_y_axis wg
                  = crossing_test (last (map fst (trace table)) (fst (get_location w0)))
                                  (fst (get_location wg))).
  { rewrite crosses_y_axis_test, Hprev, Hx. reflexivity. }
  split; [now rewrite last_snoc, Hloc3|]. split.
  - rewrite crossing_counter_snoc, Htest, Hcount. reflexivity.
  - rewrite Hvals, map_app, Hfields, crossing_fields_snoc. cbn [map]. f_equal.
    rewrite Hy, crossing_counter_snoc, Htest, Hcount. reflexivity.
Qed.

(** X21. In a run without interaction that went through, started with
    the crossing counters at -1, the 'y crosses' field of the record of
    a step of a walker of one of the five variants is the counter after
    that step, clamped at 0: the counter grows by one at every step at
    which the abscissa recorded at the step before (for the first step,
    the abscissa the walker had before the run) and the one recorded at
    the step have a negative product, or the former is zero and the
    latter is not.  The counter of the walker is left at its last
    value. *)
Theorem crossing_fields_of_records (sim sim' : Simulation) (r r' : Rng)
  (walker_name : string) (w0 : Walker) :
  before_run sim ->
  __walkers_interaction sim = None ->
  (forall name w,
     dict_get String.eqb name (__walkers sim) = Some w ->
     type_ w <> BaseWalker /\
     dict_get String.eqb name (__crosses_y sim) = Some (-1)%Z) ->
  run_simulation sim r = Ok ((true, sim'), r') ->
  dict_get String.eqb walker_name (__walkers sim) = Some w0 ->
  exists records,
    dict_get String.eqb walker_name (__total_dict sim') = Some records /\
    map y_crosses (dict_values records)
    = crossing_fields (-1) (fst (get_location w0)) (map fst (trace records)) /\
    dict_get String.eqb walker_name (__crosses_y sim')
    = Some (crossing_counter (-1) (fst (get_location w0)) (map fst (trace records))).
Proof.
  intros [Hnd Hfresh] Hnone Hstart Hrun Hw0.
  destruct (run_simulation_invariant (crossings_after sim)
              (crossings_after_others sim) (crossings_after_own sim)
              sim sim' r r' Hnd Hrun) with (name := walker_name)
    as (_ & w0' & w & c & table & Hw0' & _ & _ & Hc & Ht & _ & _ & Hcount & Hfields).
  - intros n Hn. apply (dict_get_In_keys String.eqb String.eqb_eq) in Hn.
    destruct (dict_get String.eqb n (__walkers sim)) as [w|] eqn:Hw; [|congruence].
    destruct (Hfresh n w Hw) as (_ & _ & Ht).
    destruct (Hstart n w Hw) as (Hbase & Hc).
    split; [exact Hnone|]. exists w, w, (-1)%Z, [].
    repeat split; auto.
  - apply (dict_get_In_keys String.eqb String.eqb_eq). congruence.
  - assert (w0' = w0) by congruence. subst w0'.
    exists table. split; [exact Ht|]. split; [exact Hfields|]. congruence.
Qed.
End RecordFacts.

(** ** The averages of runs of different lengths *)

Section OverflowFacts.
Variable key : string.
Variable field : StepRecord -> Q.
Hypothesis key_field :
  forall step_data,
    Statistics.getitem step_data key = Some (Statistics.Number (field step_data)).

Lemma array_iadd_overflow (counts : list Q) (value : Statistics.Value) :
  Statistics.array_iadd counts (Z.of_nat (List.length counts)) value
  = Statistics.Raises Statistics.IndexError.
Proof.
  unfold Statistics.array_iadd.
  destruct (Z.ltb_spec (Z.of_nat (List.length counts)) 0) as [H|_]; [lia|].
  destruct (Z.ltb_spec (Z.of_nat (List.length counts)) 0) as [H|_]; [lia|].
  destruct (Z.leb_spec (Z.of_nat (List.length counts)) (Z.of_nat (List.length counts)))
    as [_|H]; [|lia].
  rewrite orb_true_r. reflexivity.
Qed.

(** A run with more steps than the array has entries runs over its
    end. *)
Lemma steps_loop_overflow (items : list (Z * StepRecord)) :
  forall done todo : list Q,
  (List.length todo < List.length items)%nat ->
  dict_keys items = steps_from (1 + Z.of_nat (List.length done)) (List.length items) ->
  Statistics.steps_loop key items (done ++ todo)
  = Statistics.Raises Statistics.IndexError.
Proof.
  induction items as [|[step step_data] items IH]; intros done todo Hlen Hkeys;
    [simpl in Hlen; lia|].
  remember (1 + Z.of_nat (List.length done))%Z as i eqn:Hi.
  cbn [dict_keys map fst List.length steps_from] in Hkeys.
  injection Hkeys as Hstep Hkeys. subst step.
  cbn [Statistics.steps_loop]. rewrite key_field.
  replace (i - 1)%Z with (Z.of_nat (List.length done)) by lia.
  destruct todo as [|t todo].
  - rewrite app_nil_r. now rewrite array_iadd_overflow.
  - rewrite array_iadd_next.
    replace (done ++ (t + field step_data) :: todo)
      with ((done ++ [t + field step_data]) ++ todo) by now rewrite <- app_assoc.
    apply IH.
    + simpl in Hlen. lia.
    + unfold dict_keys. rewrite Hkeys, length_app. cbn [List.length]. f_equal. lia.
Qed.

Lemma averages_loop_overflow (walker : string) (i j : Z)
  (first later : dict Z StepRecord) (n m : nat)
  (rest : list (string * dict Z (dict Z StepRecord))) :
  dict_keys first = steps_from 1 n ->
  dict_keys later = steps_from 1 m ->
  (n < m)%nat ->
  Statistics.averages_loop key ((walker, [(i, first); (j, later)]) :: rest) []
  = Statistics.Raises Statistics.IndexError.
Proof.
  intros Hfirst Hlater Hnm.
  assert (Hn : List.length first = n).
  { rewrite <- (length_map fst). fold (dict_keys first). rewrite Hfirst.
    apply steps_from_length. }
  assert (Hm : List.length later = m).
  { rewrite <- (length_map fst). fold (dict_keys later). rewrite Hlater.
    apply steps_from_length. }
  cbn [Statistics.averages_loop dict_values map snd]. rewrite Hn.
  cbn [Statistics.sims_loop].
  rewrite (steps_loop_run key field key_field n first (repeat 0 n)
             (repeat_length _ _) Hfirst).
  assert (Hover : Statistics.steps_loop key later
                    (add_arrays (repeat 0 n) (map field (dict_values first)))
                  = Statistics.Raises Statistics.IndexError).
  { apply (steps_loop_overflow later []
             (add_arrays (repeat 0 n) (map field (dict_values first)))).
    - rewrite add_arrays_length, repeat_length; [lia|].
      rewrite (run_values_length field n first Hfirst). now rewrite repeat_length.
    - now rewrite Hm. }
  now rewrite Hover.
Qed.
End OverflowFacts.

(** X22. The averages size their array by the first run of a walker
    type: when the second run accumulated for the first walker type holds
    more steps than the first one, the averages of the three distances
    and of the crossings raise IndexError. *)
Theorem averages_raise_on_longer_run (stat : Statistics.Statistics) (walker : string)
  (i j : Z) (first later : dict Z StepRecord) (n m : nat)
  (rest : list (string * dict Z (dict Z StepRecord))) :
  Statistics.__total_dict stat = (walker, [(i, first); (j, later)]) :: rest ->
  dict_keys first = steps_from 1 n ->
  dict_keys later = steps_from 1 m ->
  (n < m)%nat ->
  Statistics.average_walker_distance_origin stat
  = Statistics.Raises Statistics.IndexError /\
  Statistics.average_walker_distance_x stat
  = Statistics.Raises Statistics.IndexError /\
  Statistics.average_walker_distance_y stat
  = Statistics.Raises Statistics.IndexError /\
  Statistics.avg_cross_y_axis stat = Statistics.Raises Statistics.IndexError.
Proof.
  intros Htotal Hfirst Hlater Hnm.
  unfold Statistics.average_walker_distance_origin, Statistics.average_walker_distance_x,
    Statistics.average_walker_distance_y, Statistics.average_walker_distance,
    Statistics.avg_cross_y_axis.
  rewrite Htotal.
  repeat split;
    eapply averages_loop_overflow; eauto; intros step_data; reflexivity.
Qed.

Lemma averages_raise_on_longer_run_witness :
  Statistics.average_walker_distance_origin longer_later_stat
  = Statistics.Raises Statistics.IndexError /\
  Statistics.average_walker_distance_x longer_later_stat
  = Statistics.Raises Statistics.IndexError /\
  Statistics.average_walker_distance_y longer_later_stat
  = Statistics.Raises Statistics.IndexError /\
  Statistics.avg_cross_y_axis longer_later_stat
  = Statistics.Raises Statistics.IndexError.
Proof.
  let v := eval vm_compute in (Statistics.__total_dict longer_later_stat) in
  match v with
  | [(?w, [(?i, ?first); (?j, ?later)])] =>
      apply (averages_raise_on_longer_run longer_later_stat w i j first later 5 12 []);
      [vm_compute; reflexivity | vm_compute; reflexivity | vm_compute; reflexivity | lia]
  end.
Defined.

(** ** The interaction of a simulation *)

Section InteractionFacts.
Context {math : MathLib} {shapely : Shapely}.

End InteractionFacts.

(** ** Instances *)

Lemma move_back_undoes_move_witness :
  exists w' r',
    @move rational_math (Walker_init MemoryWalker) (constant_rng 0) = Ok (w', r') /\
    get_location (move_back w') = (0, 0) /\
    __memory (move_back w') = [get_location w'].
Proof.
  let v := eval vm_compute in
    (@move rational_math (Walker_init MemoryWalker) (constant_rng 0)) in
  match v with
  | Ok (?w', ?r') =>
      assert (E : @move rational_math (Walker_init MemoryWalker) (constant_rng 0)
                  = Ok (w', r')) by (vm_compute; reflexivity);
      destruct (@move_back_undoes_move rational_math (Walker_init MemoryWalker) w'
                  (constant_rng 0) r' ltac:(simpl; discriminate) E)
        as (H1 & _ & H3);
      exists w', r'; split; [exact E|]; split; [exact H1|];
      apply H3; [reflexivity | vm_compute; discriminate]
  end.
Defined.

Lemma short_sim_named :
  In "StraightWalker1"%string (dict_keys (__walkers short_sim)).
Proof. vm_compute. left. reflexivity. Qed.

Lemma records_are_sound_witness :
  exists sim' r' w records,
    @run_simulation rational_math box_shapely short_sim (constant_rng 0)
    = Ok ((true, sim'), r') /\
    dict_get String.eqb "StraightWalker1"%string (__walkers sim') = Some w /\
    dict_get String.eqb "StraightWalker1"%string (__total_dict sim') = Some records /\
    Forall (@record_is_sound rational_math) (dict_values records).
Proof.
  let v := eval vm_compute in
    (@run_simulation rational_math box_shapely short_sim (constant_rng 0)) in
  match v with
  | Ok ((true, ?s), ?r) =>
      assert (E : @run_simulation rational_math box_shapely short_sim (constant_rng 0)
                  = Ok ((true, s), r)) by (vm_compute; reflexivity);
      destruct (@records_are_sound rational_math box_shapely _ _ _ _
                  "StraightWalker1"%string before_run_short_sim E short_sim_named)
        as (w & records & H1 & H2 & H3 & _);
      exists s, r, w, records; auto
  end.
Defined.

Lemma short_sim_counters (name : string) (w : Walker) :
  dict_get String.eqb name (__walkers short_sim) = Some w ->
  type_ w <> BaseWalker /\
  dict_get String.eqb name (__crosses_y short_sim) = Some (-1)%Z.
Proof.
  change (__walkers short_sim)
    with [("StraightWalker1"%string, Walker_init StraightWalker)].
  change (__crosses_y short_sim) with [("StraightWalker1"%string, (-1)%Z)].
  cbn [dict_get]. destruct (String.eqb name "StraightWalker1"); [|discriminate].
  intros H. injection H as <-. split; [discriminate | reflexivity].
Qed.

Lemma crossing_fields_of_records_witness :
  exists sim' r' records,
    @run_simulation rational_math box_shapely short_sim (constant_rng 0)
    = Ok ((true, sim'), r') /\
    dict_get String.eqb "StraightWalker1"%string (__total_dict sim') = Some records /\
    map y_crosses (dict_values records)
    = crossing_fields (-1) 0 (map fst (trace records)).
Proof.
  let v := eval vm_compute in
    (@run_simulation rational_math box_shapely short_sim (constant_rng 0)) in
  match v with
  | Ok ((true, ?s), ?r) =>
      assert (E : @run_simulation rational_math box_shapely short_sim (constant_rng 0)
                  = Ok ((true, s), r)) by (vm_compute; reflexivity);
      destruct (@crossing_fields_of_records rational_math box_shapely _ _ _ _
                  "StraightWalker1"%string (Walker_init StraightWalker)
                  before_run_short_sim eq_refl short_sim_counters E eq_refl)
        as (records & H1 & H2 & _);
      exists s, r, records; auto
  end.
Defined.

(** ** The memory of a MemoryWalker over a turn *)

Lemma update_memory_short (w : Walker) :
  (List.length (__memory w) < __memory_size)%nat ->
  update_memory w
  = set_memory w (__memory w ++ [get_location w]).
Proof.
  intros Hlen. unfold update_memory.
  destruct (Nat.ltb_spec __memory_size (List.length (__memory w ++ [(_x w, _y w)])))
    as [H|_]; [|reflexivity].
  rewrite length_app in H. simpl in H. lia.
Qed.

Section MemoryTurn.
Context {math : MathLib} {shapely : Shapely}.

Lemma collision_loop_free (n : nat) (sim : Simulation) (walker_name : string)
  (w : Walker) (r : Rng) :
  __obstacles sim = [] ->
  collision_loop n sim walker_name w r = Ok ((true, w), r).
Proof.
  intros Hfree. destruct n; cbn [collision_loop];
    unfold check_collision; rewrite Hfree; reflexivity.
Qed.

(** X24. On free ground (no interaction, obstacle, gate or terrain) the
    turn of a MemoryWalker that has a neighbouring cell out of its memory
    goes through, takes the walker to such a cell, and appends that cell
    to the memory three times, as long as the memory has room: once in
    [move], once in [handle_terrain] and once after the collision
    loop. *)
Theorem memory_walker_turn_remembers_thrice (i : Z) (sim sim' : Simulation)
  (walker_name : string) (w : Walker) (ok : bool) (r r' : Rng) :
  __walkers_interaction sim = None ->
  __obstacles sim = [] ->
  __enchanted_gates sim = [] ->
  __waters sim = [] -> __sands sim = [] -> __grasses sim = [] ->
  dict_get String.eqb walker_name (__walkers sim) = Some w ->
  type_ w = MemoryWalker ->
  possible_moves w <> [] ->
  (List.length (__memory w) + 3 <= __memory_size)%nat ->
  walker_turn i sim walker_name r = Ok ((ok, sim'), r') ->
  exists w',
    dict_get String.eqb walker_name (__walkers sim') = Some w' /\
    ok = true /\
    In (get_location w') (possible_moves w) /\
    __memory w'
    = __memory w ++ [get_location w'; get_location w'; get_location w'].
Proof.
  intros Hnone Hobs Hgates Hwaters Hsands Hgrasses Hw Ht Hfree Hroom H.
  apply walker_turn_Ok in H as (w1 & r1 & w2 & r2 & Hfirst & Hrest).
  apply first_move_Ok in Hfirst as (w0 & wm & Hget & Hmove & ->).
  assert (w0 = w) by congruence. subst w0.
  unfold choose_move in Hmove. rewrite Hnone in Hmove.
  unfold move in Hmove. rewrite Ht in Hmove. unfold MemoryWalker_move in Hmove.
  destruct (possible_moves w) as [|p ps] eqn:Hp; [congruence|]. rewrite <- Hp in *.
  destruct (choice_In (0, 0) (possible_moves w) r Hfree) as (d & rd & Hc & Hd).
  unfold bind in Hmove. rewrite Hc in Hmove. apply ret_Ok in Hmove as [<- <-].
  set (wm := set_memory (set_position (snapshot_prev w) d)
                        (__memory (set_position (snapshot_prev w) d) ++
                         [(_x (set_position (snapshot_prev w) d),
                           _y (set_position (snapshot_prev w) d))])) in *.
  assert (Hwm : type_ wm = MemoryWalker /\ get_location wm = d /\
                __memory wm = __memory w ++ [d]).
  { unfold wm, get_location, set_memory, set_position, snapshot_prev.
    cbn [type_ _x _y __memory]. rewrite <- surjective_pairing. auto. }
  destruct Hwm as (Htm & Hlm & Hmm).
  assert (Hterrain : terrain_check sim wm = None).
  { unfold terrain_check. now rewrite Hwaters, Hsands, Hgrasses. }
  rewrite Hterrain in Hrest.
  assert (Hinst : forall v, type_ v = MemoryWalker -> isinstance v MemoryWalker = true).
  { intros v Hv. unfold isinstance. now rewrite Hv. }
  unfold handle_terrain in Hrest. rewrite (Hinst wm Htm) in Hrest.
  rewrite (collision_loop_free _ _ _ _ _ Hobs) in Hrest.
  destruct Hrest as [(Hloop & _)|(Hloop & -> & sim3 & w3 & Hbook & ->)];
    [discriminate|].
  injection Hloop as <- <-.
  rewrite (Hinst (update_memory wm)) in Hbook by now rewrite update_memory_type.
  unfold gate_check in Hbook. rewrite Hgates in Hbook. cbn [gate_loop] in Hbook.
  pose proof (bookkeeping_walker _ _ _ _ _ _ _ _ Hbook) as (_ & Hloc3 & _).
  assert (Hmem3 : __memory w3 = __memory (update_memory (update_memory wm))).
  { unfold bookkeeping, Simulation_escape_check in Hbook.
    destruct (escape_check_walker (update_memory (update_memory wm)))
      as (_ & _ & _ & Hm1).
    destruct (escape_check (update_memory (update_memory wm))) as [esc wa].
    cbn [snd] in Hm1.
    destruct (negb esc);
      apply bind_Ok in Hbook as (sim1 & ra & _ & Hbook);
      apply simulation_results_update_walker in Hbook as [-> _];
      destruct (escape_check_walker wa) as (_ & _ & _ & Hm2);
      rewrite Hm2; exact Hm1. }
  rewrite !update_memory_location, Hlm in Hloc3.
  assert (Hm1 : __memory (update_memory wm) = __memory w ++ [d; d]).
  { rewrite update_memory_short by (rewrite Hmm, length_app; simpl; lia).
    cbn [__memory set_memory]. rewrite Hmm, Hlm, <- app_assoc. reflexivity. }
  assert (Hm2 : __memory (update_memory (update_memory wm)) = __memory w ++ [d; d; d]).
  { rewrite update_memory_short by (rewrite Hm1, length_app; simpl; lia).
    cbn [__memory set_memory].
    rewrite Hm1, update_memory_location, Hlm, <- app_assoc. reflexivity. }
  exists w3. unfold store_walker. cbn [__walkers set_walkers].
  split; [apply dict_get_set_eq, String.eqb_eq|]. split; [reflexivity|].
  rewrite Hloc3. split; [exact Hd|]. rewrite Hmem3. exact Hm2.
Qed.

(** X25. For a walker name that has no crossing counter,
    [cross_y_check] raises KeyError when the walker crossed the axis and
    does nothing when it did not; [simulation_results_update] raises
    KeyError; and [escape_check] of the simulation, for a walker that has
    not escaped, files the step under the name all the same. *)
Theorem bookkeeping_of_unregistered_name (sim : Simulation) (walker_name : string)
  (w : Walker) (i : Z) (r : Rng) :
  dict_get String.eqb walker_name (__crosses_y sim) = None ->
  (crosses_y_axis w = true -> cross_y_check sim walker_name w r = Err KeyError) /\
  (crosses_y_axis w = false -> cross_y_check sim walker_name w r = Ok (sim, r)) /\
  simulation_results_update sim walker_name w i r = Err KeyError /\
  (fst (escape_check w) = false ->
   dict_get String.eqb walker_name
            (__escape_times (fst (Simulation_escape_check sim walker_name w i)))
   = Some (Some i)).
Proof.
  intros Hmissing. split; [|split; [|split]].
  - intros Hc. unfold cross_y_check, bind. now rewrite Hc, Hmissing.
  - intros Hc. unfold cross_y_check. now rewrite Hc.
  - unfold simulation_results_update.
    destruct (escape_check w) as [esc w1]. unfold bind, get_crosses_y.
    rewrite Hmissing.
    destruct esc; [|reflexivity].
    destruct (dict_get String.eqb walker_name (get_escape_times sim)); reflexivity.
  - intros Hesc. unfold Simulation_escape_check.
    destruct (escape_check w) as [esc w1]. cbn [fst] in Hesc. subst esc.
    cbn [negb fst __escape_times set_escape_times].
    apply dict_get_set_eq, String.eqb_eq.
Qed.
End MemoryTurn.

Lemma memory_walker_turn_remembers_thrice_witness :
  exists sim' r' w',
    @walker_turn rational_math box_shapely 1 memory_sim "MemoryWalker1"%string
                 (constant_rng 0) = Ok ((true, sim'), r') /\
    dict_get String.eqb "MemoryWalker1"%string (__walkers sim') = Some w' /\
    __memory w' = [get_location w'; get_location w'; get_location w'].
Proof.
  let v := eval vm_compute in
    (@walker_turn rational_math box_shapely 1 memory_sim "MemoryWalker1"%string
                  (constant_rng 0)) in
  match v with
  | Ok ((true, ?s), ?r) =>
      assert (E : @walker_turn rational_math box_shapely 1 memory_sim "MemoryWalker1"%string
                    (constant_rng 0) = Ok ((true, s), r)) by (vm_compute; reflexivity);
      destruct (@memory_walker_turn_remembers_thrice rational_math box_shapely
                  1 memory_sim s "MemoryWalker1"%string (Walker_init MemoryWalker) true
                  (constant_rng 0) r eq_refl eq_refl eq_refl eq_refl eq_refl eq_refl
                  ltac:(vm_compute; reflexivity) eq_refl
                  ltac:(vm_compute; discriminate) ltac:(vm_compute; lia) E)
        as (w' & H1 & _ & _ & H4);
      exists s, r, w'; auto
  end.
Defined.

Lemma bookkeeping_of_unregistered_name_witness :
  @simulation_results_update rational_math (Simulation_init 1) "nobody"%string
    (Walker_init StraightWalker) 1 (constant_rng 0) = Err KeyError.
Proof.
  apply (@bookkeeping_of_unregistered_name rational_math (Simulation_init 1)
           "nobody"%string (Walker_init StraightWalker) 1 (constant_rng 0)).
  reflexivity.
Defined.
